(** * A verification development for the Elastic extension of the Go language
      server ([internal/lsp/elasticserver.go]).

    The file embeds the extended handlers ([EDefinition], [Full]), the symbol
    classifier, the qualified-name resolver, the package locator with its
    version resolver, the outline flattener and the workspace module manager
    (module-boundary synthesis, cleanup, vendor-mode registry) as Rocq
    functions, and proves the properties stated for them.

    Go strings are byte sequences: they are [string] (a list of [ascii]).
    Go's [int] indices are [Z].  A Go panic is an explicit outcome. *)

From Stdlib Require Import ZArith Lia Bool Ascii String List.
From stdpp Require Import base option list strings gmap.

Local Open Scope string_scope.
Local Open Scope Z_scope.

(** String concatenation computes under [simpl] in this file. *)
Arguments String.append !s1 s2.

(** ** The part of Go's [strings] package the source calls *)

Module GoStrings.

(** [strings.HasPrefix(s, prefix)]. *)
Fixpoint HasPrefix (s prefix : string) {struct prefix} : bool :=
  match prefix with
  | EmptyString => true
  | String c prefix' =>
      match s with
      | EmptyString => false
      | String d s' => Ascii.eqb d c && HasPrefix s' prefix'
      end
  end.

(** [s[n:]] for an in-range natural [n]: the bytes after the first [n]. *)
Fixpoint drop_bytes (n : nat) (s : string) : string :=
  match n with
  | O => s
  | S n' => match s with
            | EmptyString => EmptyString
            | String _ s' => drop_bytes n' s'
            end
  end.

(** [s[:n]] for an in-range natural [n]: the first [n] bytes. *)
Fixpoint take_bytes (n : nat) (s : string) : string :=
  match n with
  | O => EmptyString
  | S n' => match s with
            | EmptyString => EmptyString
            | String c s' => String c (take_bytes n' s')
            end
  end.

(** The slice expression [s[i:]] on an [int] index; Go panics when the
    index is negative or beyond [len(s)], which is [None] here. *)
Definition slice_from (s : string) (i : Z) : option string :=
  if (i <? 0) || (Z.of_nat (String.length s) <? i) then None
  else Some (drop_bytes (Z.to_nat i) s).

(** [strings.HasSuffix(s, suffix)]:
    [len(s) >= len(suffix) && s[len(s)-len(suffix):] == suffix]. *)
Definition HasSuffix (s suffix : string) : bool :=
  (String.length suffix <=? String.length s)%nat
  && String.eqb (drop_bytes (String.length s - String.length suffix) s) suffix.

(** [strings.TrimPrefix(s, prefix)]. *)
Definition TrimPrefix (s prefix : string) : string :=
  if HasPrefix s prefix then drop_bytes (String.length prefix) s else s.

(** [strings.TrimSuffix(s, suffix)]. *)
Definition TrimSuffix (s suffix : string) : string :=
  if HasSuffix s suffix
  then take_bytes (String.length s - String.length suffix) s
  else s.

(** [strings.Contains(s, substr)], that is [strings.Index(s, substr) >= 0]. *)
Fixpoint Contains (s substr : string) : bool :=
  HasPrefix s substr
  || match s with
     | EmptyString => false
     | String _ s' => Contains s' substr
     end.

(** [strings.Count(s, sep)] for a one-byte separator (the source counts
    ["-"] only): the number of bytes of [s] equal to [sep]. *)
Fixpoint Count (s : string) (sep : ascii) : Z :=
  match s with
  | EmptyString => 0
  | String c s' => (if Ascii.eqb c sep then 1 else 0) + Count s' sep
  end.

(** [strings.LastIndex(s, sep)] for a one-byte separator: the index of the
    last byte equal to [sep], or [-1]. *)
Fixpoint LastIndex (s : string) (sep : ascii) : Z :=
  match s with
  | EmptyString => -1
  | String c s' =>
      let i := LastIndex s' sep in
      if 0 <=? i then i + 1
      else if Ascii.eqb c sep then 0 else -1
  end.

(** [strings.Split(s, sep)] for a one-byte separator. *)
Fixpoint Split (s : string) (sep : ascii) : list string :=
  match s with
  | EmptyString => [EmptyString]
  | String c s' =>
      if Ascii.eqb c sep then EmptyString :: Split s' sep
      else match Split s' sep with
           | p :: ps => String c p :: ps
           | [] => [String c EmptyString]
           end
  end.

(** [strings.SplitAfter(s, sep)] for a one-byte separator: like [Split],
    but every piece keeps the separator that ends it. *)
Fixpoint SplitAfter (s : string) (sep : ascii) : list string :=
  match s with
  | EmptyString => [EmptyString]
  | String c s' =>
      if Ascii.eqb c sep then String c EmptyString :: SplitAfter s' sep
      else match SplitAfter s' sep with
           | p :: ps => String c p :: ps
           | [] => [String c EmptyString]
           end
  end.

(** Whether a byte occurs in a string. *)
Fixpoint has_byte (c : ascii) (s : string) : bool :=
  match s with
  | EmptyString => false
  | String d s' => Ascii.eqb d c || has_byte c s'
  end.

End GoStrings.

Import GoStrings.


(** ** Outcomes of Go code

    A Go function either returns or panics.  The handlers also call the
    external collaborators (type checker, parser, repository lookup); a
    computation records the calls it makes, in order, so that "this path does
    not invoke the type checker" is a statement about the recorded calls. *)

Inductive Call : Type :=
  | CallViewOf                  (* session.ViewOf *)
  | CallGetFile                 (* view.GetFile *)
  | CallIdentifier              (* source.Identifier *)
  | CallDeclRange               (* ident.Declaration.Range *)
  | CallGetSymbolKind           (* getSymbolKind *)
  | CallGetQName                (* getQName *)
  | CallParse                   (* ParseGoHandle(...).Parse *)
  | CallPathEnclosingInterval   (* astutil.PathEnclosingInterval *)
  | CallCollectPkgMetadata      (* collectPkgMetadata *)
  | CallRepoRootForImportPath   (* vcs.RepoRootForImportPath *)
  | CallCheckPackageHandles     (* view.CheckPackageHandles *)
  | CallCheck                   (* cph.Check: the type checker *)
  | CallDocumentSymbol.         (* Server.DocumentSymbol *)

(** [None] is a panic; the list is the calls made so far. *)
Definition M (A : Type) : Type := (option A * list Call)%type.

Definition ret {A} (a : A) : M A := (Some a, []).

Definition panic {A} : M A := (None, []).

Definition bind {A B} (m : M A) (k : A -> M B) : M B :=
  match m with
  | (None, t) => (None, t)
  | (Some a, t) => let '(r, t') := k a in (r, (t ++ t')%list)
  end.

Definition call (c : Call) : M unit := (Some tt, [c]).

Definition value_of {A} (m : M A) : option A := fst m.
Definition calls_of {A} (m : M A) : list Call := snd m.

Notation "'let*' x := m 'in' k" := (bind m (fun x => k))
  (at level 10, x name, m at level 100, k at level 200).

(** Go's [error]: the message. *)
Definition error : Type := string.

(** A [(T, error)] result whose value is only used when the error is nil. *)
Inductive Result (A : Type) : Type :=
  | ok (a : A)
  | err (e : error).
Arguments ok {A} a.
Arguments err {A} e.

(** [filepath.Separator] on the platforms the project builds for (Linux and
    macOS, [.travis.yml]). *)
Definition Separator : ascii := "/"%char.

(** ** Protocol types (the fields the source reads or writes) *)

Set Warnings "-register-all".

Module protocol.

Definition SymbolKind : Type := Z.

(** Modelled from the spec: the symbol-kind enum of [lsp/protocol], which is
    not among the sources; the values are those of the Language Server
    Protocol, and [0] is the unmapped outcome. *)
Definition Package : SymbolKind := 4.
Definition Method : SymbolKind := 6.
Definition Field : SymbolKind := 8.
Definition Interface : SymbolKind := 11.
Definition Function_ : SymbolKind := 12.
Definition Variable_ : SymbolKind := 13.
Definition Constant : SymbolKind := 14.
Definition String_ : SymbolKind := 15.
Definition Number : SymbolKind := 16.
Definition Boolean : SymbolKind := 17.
Definition Array : SymbolKind := 18.
Definition Null : SymbolKind := 21.
Definition Struct : SymbolKind := 23.

Record Position : Type := { Line : Z; Character : Z }.
Record Range : Type := { Start : Position; End : Position }.
Record Location : Type := { URI : string; Range_ : Range }.

Record PackageLocator : Type :=
  { Version : string; Name : string; RepoURI : string }.

(** [protocol.PackageLocator{}]. *)
Definition PackageLocator_zero : PackageLocator :=
  {| Version := ""; Name := ""; RepoURI := "" |}.

(** [Loc] is a pointer: [None] is nil. *)
Record SymbolLocator : Type :=
  { Qname : string; Kind : SymbolKind;
    Loc : option Location; Package_ : PackageLocator }.

Inductive DocumentSymbol : Type :=
  mkDocumentSymbol (name : string) (kind : SymbolKind) (deprecated : bool)
                   (selectionRange : Range)
                   (children : list DocumentSymbol).

Definition ds_Name (d : DocumentSymbol) : string :=
  let 'mkDocumentSymbol n _ _ _ _ := d in n.
Definition ds_Kind (d : DocumentSymbol) : SymbolKind :=
  let 'mkDocumentSymbol _ k _ _ _ := d in k.
Definition ds_Deprecated (d : DocumentSymbol) : bool :=
  let 'mkDocumentSymbol _ _ b _ _ := d in b.
Definition ds_SelectionRange (d : DocumentSymbol) : Range :=
  let 'mkDocumentSymbol _ _ _ r _ := d in r.
Definition ds_Children (d : DocumentSymbol) : list DocumentSymbol :=
  let 'mkDocumentSymbol _ _ _ _ c := d in c.

Record SymbolInformation : Type :=
  { si_Name : string; si_Kind : SymbolKind; si_Deprecated : bool;
    si_ContainerName : string; si_Location : Location }.

Record DetailSymbolInformation : Type :=
  { Symbol : SymbolInformation; dsi_Qname : string;
    dsi_Package : PackageLocator }.

(** [References] is never filled by the source: its elements are opaque. *)
Record FullResponse : Type :=
  { Symbols : list DetailSymbolInformation; References : list unit }.

End protocol.

(** ** The declarations of [go/types] the classifier inspects *)

Module types.

(** [types.BasicInfo] flags. *)
Definition IsBoolean : Z := 1.
Definition IsInteger : Z := 2.
Definition IsUnsigned : Z := 4.
Definition IsFloat : Z := 8.
Definition IsComplex : Z := 16.
Definition IsString : Z := 32.
Definition IsUntyped : Z := 64.
Definition IsNumeric : Z := Z.lor IsInteger (Z.lor IsFloat IsComplex).

(** The result of [Type().Underlying()]: its dynamic type, and the
    [Info()] of a basic type. *)
Inductive Type_ : Type :=
  | Struct | Interface | Slice | Array
  | Basic (info : Z)
  | Pointer | Tuple | Signature | Map | Chan.

(** The dynamic type of a [types.Object], with what the classifier reads:
    [IsField()] of a variable, whether the signature of a function has a
    receiver, the underlying type of a type name. *)
Inductive ObjectShape : Type :=
  | Const
  | Var (isField : bool)
  | Nil
  | PkgName
  | Func (hasRecv : bool)
  | TypeName (underlying : Type_)
  | Label
  | Builtin.

Record Package : Type := { pkg_Name : string; pkg_Path : string }.

(** [Pkg()] is nil for the objects of the universe scope. *)
Record Object : Type :=
  { shape : ObjectShape; obj_Name : string;
    obj_Pkg : option Package; obj_Pos : Z }.

End types.

(** ** Symbol classifier *)

Definition getSymbolKind (declObj : types.Object) : protocol.SymbolKind :=
  match types.shape declObj with
  | types.Const => protocol.Constant
  | types.Var isField => if isField then protocol.Field else protocol.Variable_
  | types.Nil => protocol.Null
  | types.PkgName => protocol.Package
  | types.Func hasRecv =>
      if hasRecv then protocol.Method else protocol.Function_
  | types.TypeName u =>
      match u with
      | types.Struct => protocol.Struct
      | types.Interface => protocol.Interface
      | types.Slice => protocol.Array
      | types.Array => protocol.Array
      | types.Basic info =>
          if negb (Z.land info types.IsNumeric =? 0) then protocol.Number
          else if negb (Z.land info types.IsBoolean =? 0) then protocol.Boolean
          else if negb (Z.land info types.IsString =? 0) then protocol.String_
          else 0
      | _ => 0
      end
  | _ => 0
  end.


(** ** Qualified-name resolver *)

Module ast.

(** A receiver type expression. *)
Inductive Expr : Type :=
  | Ident (name : string)
  | StarExpr (x : Expr)
  | OtherExpr.

(** A node of the enclosing path, with what [getQName] reads from it: the
    name of a type spec, the names of a field or value spec, and of a
    function declaration its [Recv] (nil, or the [Type] of each field of
    [Recv.List]). *)
Inductive Node : Type :=
  | StructType
  | InterfaceType
  | TypeSpec (name : string)
  | Field (names : list string)
  | ValueSpec (names : list string)
  | FuncDecl (recv : option (list Expr))
  | OtherNode.

End ast.

(** The body of the loop of [getQName] for the node [n]; [parent] is
    [astPath[id+2]], [None] when that index is out of range (reading it then
    panics). *)
Definition qnameStep (n : ast.Node) (parent : option ast.Node)
                     (qname : string) : option string :=
  match n with
  | ast.StructType =>
      match parent with
      | None => None
      | Some (ast.TypeSpec name) => Some (name ++ "." ++ qname)
      | Some (ast.Field names) =>
          match names with
          | first :: _ => Some (first ++ "." ++ qname)
          | [] => Some qname
          end
      | Some (ast.ValueSpec names) =>
          match names with
          | first :: _ => Some (first ++ "." ++ qname)
          | [] => Some qname
          end
      | Some _ => Some qname
      end
  | ast.InterfaceType =>
      match parent with
      | None => None
      | Some (ast.TypeSpec name) => Some (name ++ "." ++ qname)
      | Some _ => Some qname
      end
  | ast.FuncDecl recv =>
      match recv with
      | None => Some qname
      | Some [] => None
      | Some (ast.StarExpr x :: _) =>
          match x with
          | ast.Ident typeName => Some (typeName ++ "." ++ qname)
          | _ => None
          end
      | Some (ast.Ident typeName :: _) => Some (typeName ++ "." ++ qname)
      | Some (ast.OtherExpr :: _) => Some ("" ++ "." ++ qname)
      end
  | _ => Some qname
  end.

(** [for id, n := range astPath[1:]]: the argument is [astPath[id+1:]], so
    its head is [n] and the head of its tail is [astPath[id+2]]. *)
Fixpoint qnameWalk (rest : list ast.Node) (qname : string) : option string :=
  match rest with
  | [] => Some qname
  | n :: rest' =>
      match qnameStep n (head rest') qname with
      | None => None
      | Some qname' => qnameWalk rest' qname'
      end
  end.

(** ** The handlers and the package locator, over their collaborators *)

(** [source.IdentifierInfo]: the name, the declaration ([URI()] and the
    result of [Range()]) and [GetDeclObject()]. *)
Record IdentifierInfo : Type :=
  { ident_Name : string;
    Declaration_URI : string;
    Declaration_Range : Result protocol.Range;
    GetDeclObject : types.Object }.

(** Paths and URIs: [filepath.Join] of two elements, [filepath.Clean],
    [filepath.Base], [span.NewURI] and [URI.Filename]. *)
Class Paths : Type :=
  { filepath_Join : string -> string -> string;
    filepath_Clean : string -> string;
    filepath_Base : string -> string;
    span_NewURI : string -> string;
    Filename : string -> string }.

(** What the handlers are given: the process environment and the interfaces
    of the session (views, files, parser, type checker, outline). *)
Class Collaborators : Type :=
  { handler_paths :: Paths;
    (** [semver.IsValid], the module cache [$GOPATH/pkg/mod], [$GOROOT], the
        repository lookup [vcs.RepoRootForImportPath(path, false)] (its
        [Repo] on success), and [protocol.NewURI]. *)
    semver_IsValid : string -> bool;
    pkgMod : string;
    goRoot : string;
    vcs_RepoRootForImportPath : string -> Result string;
    protocol_NewURI : string -> string;
    (** The session, its views and files; the parser and the enclosing path
        (innermost node first, the file last); the type checker. *)
    View : Type;
    File : Type;
    AstFile : Type;
    CheckPackageHandle : Type;
    Pkg : Type;
    session_ViewOf : string -> View;
    view_Folder : View -> string;
    view_GetFile : View -> string -> Result File;
    file_URI : File -> string;
    view_Parse : View -> File -> Result AstFile;
    astutil_PathEnclosingInterval : AstFile -> Z -> Z -> list ast.Node;
    view_CheckPackageHandles :
      View -> File -> Result (list CheckPackageHandle);
    source_NarrowestCheckPackageHandle :
      list CheckPackageHandle -> CheckPackageHandle;
    cph_Check : CheckPackageHandle -> Result Pkg;
    pkg_GetTypes : Pkg -> option types.Package;
    source_Identifier :
      View -> File -> protocol.Position -> Result IdentifierInfo;
    (** [Server.DocumentSymbol]: the outline and the error, both returned. *)
    Server_DocumentSymbol :
      string -> list protocol.DocumentSymbol * option error }.

Section Server.

Context {env : Collaborators}.

Definition lift {A} (o : option A) : M A := (o, []).

(** [fmt.Errorf(format)] without operands, for a format without a verb (a
    Go identifier has no ['%'] byte). *)
Definition fmt_Errorf (format : string) : error := format.

(** *** Version resolver *)

Definition getPkgVersionFast (loc : string) : string :=
  let strs := SplitAfter loc "@" in
  let validVersion :=
    fold_left
      (fun validVersion str =>
         let substrs := Split str Separator in
         let substrs0 := List.hd EmptyString substrs in
         if semver_IsValid substrs0
         then (validVersion ++ [substrs0])%list
         else validVersion)
      (List.tl strs) [] in
  match validVersion with
  | [v] => v
  | _ => ""
  end.

Definition getPkgVersionSlow : option error :=
  Some (fmt_Errorf
    "for now, there is no proper and efficient API to get the revision").

(** The pseudo-version block of [getPkgVersion]
    ([if strings.Count(rev, "-") == 2 {...}]); [None] if the slice
    expression panics. *)
Definition normalizeRev (rev : string) : option string :=
  if Count rev "-" =? 2 then
    let rev := TrimSuffix rev "+incompatible" in
    let i := LastIndex rev "-" in
    slice_from rev (i + 1)
  else Some rev.

(** [pkgLoc] is a pointer in the source: the updated locator is returned. *)
Definition getPkgVersion (dir : string) (pkgLoc : protocol.PackageLocator)
                         (loc : string) : option protocol.PackageLocator :=
  let rev := getPkgVersionFast (TrimPrefix loc (filepath_Join pkgMod dir)) in
  if String.eqb rev "" && bool_decide (is_Some getPkgVersionSlow)
  then Some pkgLoc
  else
    match normalizeRev rev with
    | None => None
    | Some rev =>
        Some {| protocol.Version := rev;
                protocol.Name := protocol.Name pkgLoc;
                protocol.RepoURI := protocol.RepoURI pkgLoc |}
    end.

Definition collectPkgMetadata (pkg : option types.Package)
                              (dir loc : string) : M protocol.PackageLocator :=
  let* _ := call CallCollectPkgMetadata in
  match pkg with
  | None => ret protocol.PackageLocator_zero
  | Some pkg =>
      let pkgLocator :=
        {| protocol.Version := "";
           protocol.Name := types.pkg_Name pkg;
           protocol.RepoURI := types.pkg_Path pkg |} in
      if HasPrefix loc dir || HasPrefix loc goRoot then ret pkgLocator
      else
        let* pkgLocator := lift (getPkgVersion dir pkgLocator loc) in
        let* _ := call CallRepoRootForImportPath in
        match vcs_RepoRootForImportPath (types.pkg_Path pkg) with
        | ok repo =>
            ret {| protocol.Version := protocol.Version pkgLocator;
                   protocol.Name := protocol.Name pkgLocator;
                   protocol.RepoURI := repo |}
        | err _ => ret pkgLocator
        end
  end.

(** *** Qualified names *)

Definition getQName (view : View) (f : File) (declObj : types.Object)
                    (kind : protocol.SymbolKind) : M string :=
  let* _ := call CallGetQName in
  let qname := types.obj_Name declObj in
  if kind =? protocol.Package then ret qname
  else
    let* _ := call CallParse in
    match view_Parse view f with
    | err _ => ret ""
    | ok fAST =>
        let pos := types.obj_Pos declObj in
        let* _ := call CallPathEnclosingInterval in
        let astPath := astutil_PathEnclosingInterval fAST pos pos in
        match astPath with
        | [] => panic
        | _ :: rest =>
            let* qname := lift (qnameWalk rest qname) in
            match types.obj_Pkg declObj with
            | None => ret qname
            | Some pkg => ret (types.pkg_Name pkg ++ "." ++ qname)
            end
        end
    end.

(** *** EDefinition *)

Record DefinitionParams : Type :=
  { dp_URI : string; dp_Position : protocol.Position }.

Definition EDefinition (params : DefinitionParams)
  : M (Result (list protocol.SymbolLocator)) :=
  let uri := span_NewURI (dp_URI params) in
  let* _ := call CallViewOf in
  let view := session_ViewOf uri in
  let* _ := call CallGetFile in
  match view_GetFile view uri with
  | err e => ret (err e)
  | ok f =>
  let* _ := call CallIdentifier in
  match source_Identifier view f (dp_Position params) with
  | err e => ret (err e)
  | ok ident =>
  let* _ := call CallDeclRange in
  match Declaration_Range ident with
  | err e => ret (err e)
  | ok declRange =>
  if HasPrefix (Filename (Declaration_URI ident)) (Filename (view_Folder view))
  then
    ret (ok [ {| protocol.Qname := "";
                 protocol.Kind := 0;
                 protocol.Loc :=
                   Some {| protocol.URI :=
                             protocol_NewURI (Declaration_URI ident);
                           protocol.Range_ := declRange |};
                 protocol.Package_ := protocol.PackageLocator_zero |} ])
  else
    let declObj := GetDeclObject ident in
    let declURI := Declaration_URI ident in
    let* _ := call CallGetFile in
    match view_GetFile view declURI with
    | err e => ret (err e)
    | ok declFile =>
    let* _ := call CallGetSymbolKind in
    let kind := getSymbolKind declObj in
    if kind =? 0 then
      ret (err (fmt_Errorf ("no corresponding symbol kind for '"
                            ++ ident_Name ident ++ "'")))
    else
      let* qname := getQName view declFile declObj kind in
      let declPath := Filename declURI in
      let* pkgLocator :=
        collectPkgMetadata (types.obj_Pkg declObj)
                           (Filename (view_Folder view)) declPath in
      ret (ok [ {| protocol.Qname := qname;
                   protocol.Kind := kind;
                   protocol.Loc := None;
                   protocol.Package_ := pkgLocator |} ])
    end
  end end end.

(** *** Full *)

Definition folderSkip : string :=
  String Separator ("vendor" ++ String Separator "").

(** The closure [flattenDocumentSymbol] of [constructDetailSymbol]; the
    slice [detailSyms] it appends to is passed and returned.
    [flattenSymbol] is the body of its loop for one symbol, with the
    recursive call on the children as a local loop. *)
Fixpoint flattenSymbol (uri : string) (pkgLocator : protocol.PackageLocator)
    (symbol : protocol.DocumentSymbol) (prefix container : string)
    (detailSyms : list protocol.DetailSymbolInformation)
    {struct symbol} : list protocol.DetailSymbolInformation :=
  match symbol with
  | protocol.mkDocumentSymbol name kind deprecated selectionRange children =>
      let sym :=
        {| protocol.si_Name := name;
           protocol.si_Kind := kind;
           protocol.si_Deprecated := deprecated;
           protocol.si_ContainerName := container;
           protocol.si_Location :=
             {| protocol.URI := uri;
                protocol.Range_ := selectionRange |} |} in
      let qnamePrefix :=
        if negb (String.eqb prefix "") then prefix ++ "." ++ name
        else name in
      let detailSyms :=
        (detailSyms ++
         [ {| protocol.Symbol := sym;
              protocol.dsi_Qname :=
                protocol.Name pkgLocator ++ "." ++ qnamePrefix;
              protocol.dsi_Package := pkgLocator |} ])%list in
      match children with
      | [] => detailSyms
      | _ :: _ =>
          (fix range (symbols : list protocol.DocumentSymbol)
               (detailSyms : list protocol.DetailSymbolInformation) :=
             match symbols with
             | [] => detailSyms
             | symbol :: symbols' =>
                 range symbols'
                   (flattenSymbol uri pkgLocator symbol qnamePrefix name
                                  detailSyms)
             end) children detailSyms
      end
  end.

Fixpoint flattenDocumentSymbol (uri : string)
    (pkgLocator : protocol.PackageLocator)
    (symbols : list protocol.DocumentSymbol) (prefix container : string)
    (detailSyms : list protocol.DetailSymbolInformation)
    : list protocol.DetailSymbolInformation :=
  match symbols with
  | [] => detailSyms
  | symbol :: symbols' =>
      flattenDocumentSymbol uri pkgLocator symbols' prefix container
        (flattenSymbol uri pkgLocator symbol prefix container detailSyms)
  end.

(** [params.TextDocument.URI] is the only field of the parameters read. *)
Definition constructDetailSymbol (params_URI : string)
    (pkgLocator : protocol.PackageLocator)
  : M (list protocol.DetailSymbolInformation * option error) :=
  let* _ := call CallDocumentSymbol in
  let '(docSyms, e) := Server_DocumentSymbol params_URI in
  ret (flattenDocumentSymbol params_URI pkgLocator docSyms "" "" [], e).

Record FullParams : Type := { fp_URI : string; fp_Reference : bool }.

Definition Full (fullParams : FullParams)
  : M (protocol.FullResponse * option error) :=
  let params_URI := fp_URI fullParams in
  let fullResponse :=
    {| protocol.Symbols := []; protocol.References := [] |} in
  let uri := span_NewURI (fp_URI fullParams) in
  if Contains (Filename uri) folderSkip then ret (fullResponse, None)
  else
    let* _ := call CallViewOf in
    let view := session_ViewOf uri in
    let* _ := call CallGetFile in
    match view_GetFile view uri with
    | err e => ret (fullResponse, Some e)
    | ok f =>
    let path := Filename (file_URI f) in
    let* _ := call CallCheckPackageHandles in
    match view_CheckPackageHandles view f with
    | err e => ret (fullResponse, Some e)
    | ok cphs =>
    let cph := source_NarrowestCheckPackageHandle cphs in
    let* _ := call CallCheck in
    match cph_Check cph with
    | err e => ret (fullResponse, Some e)
    | ok pkg =>
    let* pkgLocator :=
      collectPkgMetadata (pkg_GetTypes pkg) (Filename (view_Folder view))
                         path in
    let* r := constructDetailSymbol params_URI pkgLocator in
    match r with
    | (_, Some e) => ret (fullResponse, Some e)
    | (detailSyms, None) =>
        let fullResponse :=
          {| protocol.Symbols := detailSyms; protocol.References := [] |} in
        if negb (fp_Reference fullParams) then ret (fullResponse, None)
        else ret (fullResponse, None)
    end
    end end end.

End Server.

(** ** The file system

    What the module manager observes and changes: which paths exist
    ([os.Stat] returning no error), regular-file contents, and, for the
    operations that can fail, the paths on which they do. *)

Inductive Entry : Type :=
  | RegularFile (data : string)
  | Directory.

Record FileSystem : Type :=
  { entries : gmap string Entry;
    create_fails : gset string;
    write_fails : gset string;
    remove_fails : gset string }.

(** [_, err := os.Stat(path); err == nil]. *)
Definition os_Stat (fs : FileSystem) (path : string) : bool :=
  bool_decide (is_Some (entries fs !! path)).

(** [os.Create(path)]: the file exists and is empty afterwards, or an error. *)
Definition os_Create (fs : FileSystem) (path : string) : Result FileSystem :=
  if bool_decide (path ∈ create_fails fs) then err "create"
  else ok {| entries := <[path := RegularFile ""]> (entries fs);
             create_fails := create_fails fs;
             write_fails := write_fails fs;
             remove_fails := remove_fails fs |}.

(** [file.WriteString(data)] on the file just created at [path]. *)
Definition file_WriteString (fs : FileSystem) (path data : string)
  : Result FileSystem :=
  if bool_decide (path ∈ write_fails fs) then err "write"
  else ok {| entries := <[path := RegularFile data]> (entries fs);
             create_fails := create_fails fs;
             write_fails := write_fails fs;
             remove_fails := remove_fails fs |}.

(** [os.Remove(path)]; the source ignores its error. *)
Definition os_Remove (fs : FileSystem) (path : string) : FileSystem :=
  if bool_decide (path ∈ remove_fails fs) then fs
  else {| entries := delete path (entries fs);
          create_fails := create_fails fs;
          write_fails := write_fails fs;
          remove_fails := remove_fails fs |}.

(** ** Workspace module manager *)

Definition DependencyControlSystem : list string :=
  [ "GLOCKFILE"; "Godeps/Godeps.json"; "Gopkg.lock"; "dependencies.tsv";
    "glide.lock"; "vendor.conf"; "vendor.yml"; "vendor/manifest";
    "vendor/vendor.json" ].

Record WorkspaceFolder : Type := { wf_URI : string; wf_Name : string }.

(** [ElasticServer]: the session option read by [ManageDeps], and the
    cleanup list. *)
Record ElasticServer : Type :=
  { session_InstallGoDependency : bool;
    FolderNeedsCleanup : list string }.

Record DepsManager : Type :=
  { installGoDeps : bool;
    moduleFolders : list WorkspaceFolder;
    dm_FolderNeedsCleanup : list string }.

(** The state outside the server: the file system and the slice
    [folderUnderVendorMode] captured by the closures of [vendorModeHelper]. *)
Record World : Type :=
  { fs : FileSystem; folderUnderVendorMode : list string }.

(** A value of the [options interface{}] map. *)
Inductive OptionValue : Type :=
  | OptBool (b : bool)
  | OptOther.

(** ** [filepath.Walk]

    The walk of the standard library, in the form that reads the names of
    a directory before it calls the function on the directory, over what
    it finds: at a path [os.Lstat] fails, or gives the info of a file, or
    that of a directory whose names are then read, in order, or fail to be
    read. The function it is given answers [nil], [filepath.SkipDir] or
    another error, may change a state of its own, and may panic. *)
Module Walk.

(** [os.FileInfo], as far as the source reads it. *)
Record FileInfo : Type := { info_Name : string; info_IsDir : bool }.

Inductive Node : Type :=
  | Missing (e : error)
  | Found (info : FileInfo) (names : Result (list (string * Node))).

Inductive WalkError : Type :=
  | SkipDir
  | Other (e : error).

Section Walker.

Context {paths : Paths} {S : Type}.

Variable walkFn :
  S -> string -> option FileInfo -> option error ->
  option (S * option WalkError).

(** Whether the loop of [walk] goes on after an entry answered with an
    error: [SkipDir] is passed over for a path that is missing or a
    directory. *)
Definition passed_over (child : Node) (e : WalkError) : bool :=
  match e with
  | SkipDir =>
      match child with
      | Missing _ => true
      | Found fileInfo _ => info_IsDir fileInfo
      end
  | Other _ => false
  end.

(** [walk(path, info, walkFn)]; for a missing path, the call
    [walkFn(path, nil, err)] that the caller of [walk] makes instead. *)
Fixpoint walk (node : Node) (path : string) (s : S) {struct node}
  : option (S * option WalkError) :=
  match node with
  | Missing e => walkFn s path None (Some e)
  | Found info names =>
      if negb (info_IsDir info) then walkFn s path (Some info) None
      else
        let err_ := match names with
                    | err e => Some e
                    | ok _ => None
                    end in
        match walkFn s path (Some info) err_ with
        | None => None
        | Some (s1, err1) =>
            match names, err1 with
            | ok names, None =>
                (fix loop (names : list (string * Node)) (s : S)
                   : option (S * option WalkError) :=
                   match names with
                   | [] => Some (s, None)
                   | (name, child) :: rest =>
                       let filename := filepath_Join path name in
                       match walk child filename s with
                       | None => None
                       | Some (s', None) => loop rest s'
                       | Some (s', Some e) =>
                           if passed_over child e then loop rest s'
                           else Some (s', Some e)
                       end
                   end) names s1
            | _, _ => Some (s1, err1)
            end
        end
  end.

(** [filepath.Walk(root, walkFn)]. *)
Definition filepath_Walk (root : string) (node : Node) (s : S)
  : option (S * option error) :=
  match walk node root s with
  | None => None
  | Some (s', None) => Some (s', None)
  | Some (s', Some SkipDir) => Some (s', None)
  | Some (s', Some (Other e)) => Some (s', Some e)
  end.

End Walker.

End Walk.

(** What the module manager is given: the path functions, what a walk
    finds below a path of the file system, the scan for uncovered sources
    and the [go] commands. *)
Class Platform : Type :=
  { manager_paths :: Paths;
    filepath_Dir : string -> string;
    (** What [filepath.Walk] finds at a path. *)
    lstat_tree : FileSystem -> string -> Walk.Node;
    collectUncoveredSrc :
      FileSystem -> string -> list (list string) * list string * option error;
    (** [getModulePath], which reads import comments and manifests. *)
    getModulePath : FileSystem -> string -> string;
    (** The commands [go mod init modulePath] and [go mod download], run in a
        directory. *)
    go_mod_init : FileSystem -> string -> string -> FileSystem * option error;
    go_mod_download : FileSystem -> string -> FileSystem * option error }.

Section Workspace.

Context {sys : Platform}.

(** *** Vendor-mode registry: the closures of [vendorModeHelper] *)

Definition storeVendorFolder (w : World) (folder : string) : World :=
  {| fs := fs w;
     folderUnderVendorMode := (folderUnderVendorMode w ++ [folder])%list |}.

(** The first loop of [checkVendorFolder]: the index of the first entry
    equal to [folder]. *)
Fixpoint indexOf (folder : string) (l : list string) (index : Z) : option Z :=
  match l with
  | [] => None
  | dir :: l' =>
      if String.eqb folder dir then Some index
      else indexOf folder l' (index + 1)
  end.

Definition checkVendorFolder (w : World) (folder : string) : World * Z :=
  match indexOf folder (folderUnderVendorMode w) 0 with
  | Some index => (w, index)
  | None =>
      if os_Stat (fs w) (filepath_Join folder "go.mod") then (w, -1)
      else if existsb (fun name => os_Stat (fs w) (filepath_Join folder name))
                      DependencyControlSystem
      then (w, -1)
      else if os_Stat (fs w) (filepath_Join folder "vendor") then
        let w' := storeVendorFolder w folder in
        (w', Z.of_nat (length (folderUnderVendorMode w')) - 1)
      else (w, -1)
  end.

Definition clearVendorFolder (w : World) (index : Z) : World :=
  let l := folderUnderVendorMode w in
  let length_ := Z.of_nat (length l) in
  if (index <? 0) || (length_ <=? index) then w
  else
    match l !! Z.to_nat (length_ - 1) with
    | None => w
    | Some last =>
        {| fs := fs w;
           folderUnderVendorMode :=
             take (Z.to_nat (length_ - 1)) (<[Z.to_nat index := last]> l) |}
    end.

(** *** Module-boundary synthesis *)

Definition constructGoModManually (fs0 : FileSystem)
    (folder modulePath : string) : FileSystem * option error :=
  if os_Stat fs0 (filepath_Join folder "go.mod") then (fs0, None)
  else
    match os_Create fs0 (filepath_Join folder "go.mod") with
    | err e => (fs0, Some e)
    | ok fs1 =>
        let data := "module " ++ modulePath in
        match file_WriteString fs1 (filepath_Join folder "go.mod") data with
        | err e => (fs1, Some e)
        | ok fs2 => (fs2, None)
        end
    end.

Definition goModInit (depsMgr : DepsManager) (fs0 : FileSystem)
    (folder : string) : DepsManager * FileSystem * option error :=
  let modulePath := getModulePath fs0 folder in
  if installGoDeps depsMgr then
    let '(fs1, e) := go_mod_init fs0 folder modulePath in
    (depsMgr, fs1, e)
  else
    let depsMgr :=
      {| installGoDeps := installGoDeps depsMgr;
         moduleFolders := moduleFolders depsMgr;
         dm_FolderNeedsCleanup :=
           (dm_FolderNeedsCleanup depsMgr ++ [folder])%list |} in
    let '(fs1, e) := constructGoModManually fs0 folder modulePath in
    (depsMgr, fs1, e).

(** The labelled loop of [collectMetadata] computing the longest common
    prefix; [i] is the index of [name] in [folderUncovered[0]]. *)
Fixpoint commonPrefix (names : list string) (i : nat)
    (others : list (list string)) (longestPrefix : string) : string :=
  match names with
  | [] => longestPrefix
  | name :: names' =>
      if forallb (fun folder =>
                    match folder !! i with
                    | Some x => String.eqb x name
                    | None => false
                    end) others
      then commonPrefix names' (S i) others (filepath_Join longestPrefix name)
      else longestPrefix
  end.

(** The function [collectMetadata] gives to [filepath.Walk]; the slice
    [module] it appends to is its state. [None] is a panic: of [base[0]],
    or of [info.IsDir()] on a nil [info]. *)
Definition collectModule (module : list string) (path : string)
    (info : option Walk.FileInfo) (err_ : option error)
  : option (list string * option Walk.WalkError) :=
  let base := filepath_Base path in
  match base with
  | EmptyString => None
  | String c _ =>
      let marked := Ascii.eqb c "." || String.eqb base "vendor" in
      let isDir :=
        if marked then
          match info with
          | None => None
          | Some info => Some (Walk.info_IsDir info)
          end
        else Some false in
      match isDir with
      | None => None
      | Some true => Some (module, Some Walk.SkipDir)
      | Some false =>
          match info with
          | Some info =>
              if String.eqb (Walk.info_Name info) "go.mod"
              then Some ((module ++ [filepath_Dir path])%list, None)
              else Some (module, None)
          | None => Some (module, None)
          end
      end
  end.

Definition collectMetadata (depsMgr : DepsManager) (fs0 : FileSystem)
    (folder : string)
  : option (DepsManager * FileSystem * (option error * list string)) :=
  match Walk.filepath_Walk collectModule folder (lstat_tree fs0 folder) []
  with
  | None => None
  | Some (module, Some e) => Some (depsMgr, fs0, (Some e, module))
  | Some (module, None) =>
      match collectUncoveredSrc fs0 folder with
      | (_, _, Some _) => Some (depsMgr, fs0, (None, module))
      | (folderUncovered, folderNeedMod, None) =>
          let folderNeedMod :=
            match folderUncovered with
            | [] => folderNeedMod
            | first :: others =>
                let longestPrefix :=
                  commonPrefix first 0 others (String Separator "") in
                (folderNeedMod ++ [filepath_Clean longestPrefix])%list
            end in
          let '(depsMgr, fs1, module) :=
            fold_left
              (fun '(depsMgr, fs1, module) folder =>
                 match goModInit depsMgr fs1 folder with
                 | (depsMgr, fs2, Some _) => (depsMgr, fs2, module)
                 | (depsMgr, fs2, None) =>
                     (depsMgr, fs2, (module ++ [folder])%list)
                 end)
              folderNeedMod (depsMgr, fs0, module) in
          Some (depsMgr, fs1, (None, module))
      end
  end.

Definition run (depsMgr : DepsManager) (fs0 : FileSystem)
    (root : WorkspaceFolder)
  : option (DepsManager * FileSystem * option error) :=
  match collectMetadata depsMgr fs0 (Filename (span_NewURI (wf_URI root))) with
  | None => None
  | Some (depsMgr, fs1, (Some e, _)) => Some (depsMgr, fs1, Some e)
  | Some (depsMgr, fs1, (None, modules)) =>
      let depsMgr :=
        fold_left
          (fun depsMgr folder =>
             let uri := span_NewURI folder in
             if String.eqb (filepath_Clean uri) (filepath_Clean (wf_URI root))
             then depsMgr
             else
               {| installGoDeps := installGoDeps depsMgr;
                  moduleFolders :=
                    (moduleFolders depsMgr ++
                     [ {| wf_URI := uri;
                          wf_Name := filepath_Base folder |} ])%list;
                  dm_FolderNeedsCleanup := dm_FolderNeedsCleanup depsMgr |})
          modules depsMgr in
      Some (depsMgr, fs1, None)
  end.

Definition downloadDeps (depsMgr : DepsManager) (w : World)
    (folders : list WorkspaceFolder) : World :=
  if negb (installGoDeps depsMgr) then w
  else
    fold_left
      (fun w folder =>
         let dir := Filename (span_NewURI (wf_URI folder)) in
         let '(w, index) := checkVendorFolder w dir in
         if 0 <=? index then w
         else
           let '(fs1, e) := go_mod_download (fs w) dir in
           let w := {| fs := fs1;
                       folderUnderVendorMode := folderUnderVendorMode w |} in
           match e with
           | Some _ => storeVendorFolder w dir
           | None => w
           end)
      folders w.

(** [ManageDeps] with, besides what the caller sees (the server, the world
    and [*folders]), the final value of its local [depsMgr]. [None] is a
    panic, which can only come from a walk. *)
Definition ManageDeps_local (s : ElasticServer) (w : World)
    (folders : list WorkspaceFolder)
    (options : option (gmap string OptionValue))
  : option (ElasticServer * World * list WorkspaceFolder * DepsManager) :=
  let installGoDeps_ := session_InstallGoDependency s in
  let installGoDeps_ :=
    if negb installGoDeps_ then
      match options with
      | Some opts =>
          match opts !! "installGoDependency" with
          | Some (OptBool true) => true
          | _ => installGoDeps_
          end
      | None => installGoDeps_
      end
    else installGoDeps_ in
  let depsMgr :=
    {| installGoDeps := installGoDeps_;
       moduleFolders := [];
       dm_FolderNeedsCleanup := [] |} in
  match
    fold_left
      (fun state folder =>
         match state with
         | None => None
         | Some (depsMgr, fs1, folders') =>
             match run depsMgr fs1 folder with
             | None => None
             | Some (depsMgr, fs2, _) =>
                 Some (depsMgr, fs2, (folders' ++ moduleFolders depsMgr)%list)
             end
         end)
      folders (Some (depsMgr, fs w, folders))
  with
  | None => None
  | Some (depsMgr, fs1, folders') =>
      let w := {| fs := fs1;
                  folderUnderVendorMode := folderUnderVendorMode w |} in
      let w := downloadDeps depsMgr w folders' in
      Some (s, w, folders', depsMgr)
  end.

Definition ManageDeps (s : ElasticServer) (w : World)
    (folders : list WorkspaceFolder)
    (options : option (gmap string OptionValue))
  : option (ElasticServer * World * list WorkspaceFolder) :=
  match ManageDeps_local s w folders options with
  | None => None
  | Some (s, w, folders', _) => Some (s, w, folders')
  end.

(** The body of the loop of [Cleanup]. *)
Definition cleanup_folder (fs1 : FileSystem) (folder : string) : FileSystem :=
  let goMod := filepath_Join folder "go.mod" in
  let goSum := filepath_Join folder "go.sum" in
  let fs2 := if os_Stat fs1 goMod then os_Remove fs1 goMod else fs1 in
  if os_Stat fs2 goSum then os_Remove fs2 goSum else fs2.

Definition Cleanup (s : ElasticServer) (fs0 : FileSystem) : FileSystem :=
  fold_left cleanup_folder (FolderNeedsCleanup s) fs0.

End Workspace.

(** ** Fast version extraction, as section 4.3 words it

    For every ['@'] of the path, the segment that follows it runs up to the
    next path separator. *)

Fixpoint until_separator (s : string) : string :=
  match s with
  | EmptyString => EmptyString
  | String c s' =>
      if Ascii.eqb c Separator then EmptyString
      else String c (until_separator s')
  end.

Fixpoint segments_after_at (s : string) : list string :=
  match s with
  | EmptyString => []
  | String c s' =>
      if Ascii.eqb c "@" then until_separator s' :: segments_after_at s'
      else segments_after_at s'
  end.

(** The segment [getPkgVersionFast] tests for a piece of [SplitAfter]. *)
Definition piece_segment (str : string) : string :=
  List.hd EmptyString (Split str Separator).

(** ** A small concrete environment, for running the definitions *)

Module Demo.

(** A version checker that accepts a few known versions. *)
Definition IsValid (v : string) : bool :=
  existsb (String.eqb v)
    [ "v1.2.3"; "v2.0.0"; "v0.0.0-20200101000000-abcdef123456" ].

(** [filepath.Clean], [filepath.Join] and [filepath.Base] on Unix paths,
    element by element: empty and ["."] elements are dropped, [".."]
    removes the element before it. *)
Definition clean_step (rooted : bool) (stack : list string)
    (part : string) : list string :=
  if String.eqb part "" || String.eqb part "." then stack
  else if String.eqb part ".." then
    match stack with
    | top :: below => if String.eqb top ".." then part :: stack else below
    | [] => if rooted then [] else [part]
    end
  else part :: stack.

Definition Clean (path : string) : string :=
  if String.eqb path "" then "."
  else
    let rooted := HasPrefix path "/" in
    let parts :=
      List.rev (fold_left (clean_step rooted) (Split path "/") []) in
    let body := String.concat "/" parts in
    if rooted then "/" ++ body
    else if String.eqb body "" then "." else body.

Definition Join (a b : string) : string :=
  if String.eqb a "" then (if String.eqb b "" then "" else Clean b)
  else if String.eqb b "" then Clean a
  else Clean (a ++ "/" ++ b).

Definition Base (path : string) : string :=
  if String.eqb path "" then "."
  else
    List.last
      (List.filter (fun part => negb (String.eqb part "")) (Split path "/"))
      "/".

(** URIs are file names here. *)
Definition paths : Paths :=
  {| filepath_Join := Join;
     filepath_Clean := Clean;
     filepath_Base := Base;
     span_NewURI := fun s => s;
     Filename := fun uri => uri |}.

(** A repository lookup that knows one import-path root. *)
Definition RepoRoot (path : string) : Result string :=
  if HasPrefix path "github.com/x/y" then ok "https://github.com/x/y"
  else err "unrecognized import path".

Definition zeroPosition : protocol.Position :=
  {| protocol.Line := 0; protocol.Character := 0 |}.
Definition zeroRange : protocol.Range :=
  {| protocol.Start := zeroPosition; protocol.End := zeroPosition |}.

Definition modFile : string := "/go/pkg/mod/github.com/x/y@v1.2.3/z.go".
Definition pkgY : types.Package :=
  {| types.pkg_Name := "y"; types.pkg_Path := "github.com/x/y" |}.
Definition pkgMain : types.Package :=
  {| types.pkg_Name := "main"; types.pkg_Path := "example.com/proj" |}.

(** The enclosing path of the field [x] in
    [type T struct { a, b struct { x int } }]. *)
Definition pathOfX : list ast.Node :=
  [ ast.OtherNode;              (* the identifier x *)
    ast.Field ["x"];
    ast.OtherNode;              (* field list *)
    ast.StructType;
    ast.Field ["a"; "b"];
    ast.OtherNode;              (* field list *)
    ast.StructType;
    ast.TypeSpec "T";
    ast.OtherNode;              (* general declaration *)
    ast.OtherNode ].            (* file *)

(** The identifier found in each file of the workspace ["/w/proj"]. *)
Definition Identifier (f : string) : Result IdentifierInfo :=
  if String.eqb f "/w/proj/main.go" then
    ok {| ident_Name := "helper";
          Declaration_URI := "/w/project2/f.go";
          Declaration_Range := ok zeroRange;
          GetDeclObject :=
            {| types.shape := types.Func false; types.obj_Name := "helper";
               types.obj_Pkg := Some pkgMain; types.obj_Pos := 10 |} |}
  else if String.eqb f "/w/proj/a.go" then
    ok {| ident_Name := "x";
          Declaration_URI := modFile;
          Declaration_Range := ok zeroRange;
          GetDeclObject :=
            {| types.shape := types.Var true; types.obj_Name := "x";
               types.obj_Pkg := Some pkgY; types.obj_Pos := 42 |} |}
  else if String.eqb f "/w/proj/b.go" then
    ok {| ident_Name := "M";
          Declaration_URI := modFile;
          Declaration_Range := ok zeroRange;
          GetDeclObject :=
            {| types.shape := types.TypeName types.Map;
               types.obj_Name := "M";
               types.obj_Pkg := Some pkgY; types.obj_Pos := 7 |} |}
  else err "no identifier found".

Definition outline : list protocol.DocumentSymbol :=
  [ protocol.mkDocumentSymbol "Foo" protocol.Struct false zeroRange
      [ protocol.mkDocumentSymbol "bar" protocol.Field false zeroRange [];
        protocol.mkDocumentSymbol "baz" protocol.Field false zeroRange [] ];
    protocol.mkDocumentSymbol "Qux" protocol.Function_ false zeroRange [] ].

(** A session with one view, rooted at ["/w/proj"]; URIs are file names. *)
Definition env : Collaborators :=
  {| handler_paths := paths;
     semver_IsValid := IsValid;
     pkgMod := "/go/pkg/mod";
     goRoot := "/usr/local/go";
     vcs_RepoRootForImportPath := RepoRoot;
     protocol_NewURI := fun uri => uri;
     View := string;
     File := string;
     AstFile := list ast.Node;
     CheckPackageHandle := string;
     Pkg := types.Package;
     session_ViewOf := fun _ => "/w/proj";
     view_Folder := fun view => view;
     view_GetFile := fun _ uri => ok uri;
     file_URI := fun f => f;
     view_Parse := fun _ f =>
       if String.eqb f modFile then ok pathOfX else err "no syntax tree";
     astutil_PathEnclosingInterval := fun fAST _ _ => fAST;
     view_CheckPackageHandles := fun _ f => ok [f];
     source_NarrowestCheckPackageHandle := List.hd "";
     cph_Check := fun _ => ok pkgMain;
     pkg_GetTypes := Some;
     source_Identifier := fun _ f _ => Identifier f;
     Server_DocumentSymbol := fun _ => (outline, None) |}.

(** Requests: [a.go] refers to a field of a module in the module cache,
    [b.go] to a named map type of that module, [main.go] to a function of
    the sibling directory ["/w/project2"], and the last is a document of a
    vendored dependency. *)
Definition requestA : DefinitionParams :=
  {| dp_URI := "/w/proj/a.go"; dp_Position := zeroPosition |}.
Definition requestMain : DefinitionParams :=
  {| dp_URI := "/w/proj/main.go"; dp_Position := zeroPosition |}.
Definition requestVendored : FullParams :=
  {| fp_URI := "/w/proj/vendor/github.com/x/y/z.go";
     fp_Reference := false |}.
Definition requestFull : FullParams :=
  {| fp_URI := "/w/proj/main.go"; fp_Reference := false |}.

Definition objectX : types.Object :=
  {| types.shape := types.Var true; types.obj_Name := "x";
     types.obj_Pkg := Some pkgY; types.obj_Pos := 42 |}.

Definition locatorA : protocol.SymbolLocator :=
  {| protocol.Qname := "y.T.a.x";
     protocol.Kind := protocol.Field;
     protocol.Loc := None;
     protocol.Package_ :=
       {| protocol.Version := "v1.2.3";
          protocol.Name := "y";
          protocol.RepoURI := "https://github.com/x/y" |} |}.

Definition locatorMain : protocol.SymbolLocator :=
  {| protocol.Qname := "";
     protocol.Kind := 0;
     protocol.Loc :=
       Some {| protocol.URI := "/w/project2/f.go";
               protocol.Range_ := zeroRange |};
     protocol.Package_ := protocol.PackageLocator_zero |}.

(** A workspace folder ["/w"] that holds [main.go] and no [go.mod]. *)
Definition tree : FileSystem :=
  {| entries :=
       <["/w" := Directory]>
         (<["/w/main.go" := RegularFile "package main"]> ∅);
     create_fails := ∅;
     write_fails := ∅;
     remove_fails := ∅ |}.

(** [filepath.Dir] on Unix paths: the path up to its last separator,
    cleaned. *)
Definition Dir (path : string) : string :=
  Clean (take_bytes (Z.to_nat (LastIndex path "/" + 1)) path).

(** What a walk finds at [path], down to [depth] levels, in a file system
    whose directories hold no other names than [names] (in order). *)
Fixpoint found (depth : nat) (names : list string) (fs0 : FileSystem)
    (path : string) : Walk.Node :=
  match entries fs0 !! path with
  | None => Walk.Missing "lstat: no such file or directory"
  | Some (RegularFile _) =>
      Walk.Found {| Walk.info_Name := Base path; Walk.info_IsDir := false |}
                 (ok [])
  | Some Directory =>
      Walk.Found {| Walk.info_Name := Base path; Walk.info_IsDir := true |}
        (match depth with
         | O => ok []
         | S depth' =>
             ok (List.map
                   (fun name => (name, found depth' names fs0 (Join path name)))
                   (List.filter (fun name => os_Stat fs0 (Join path name))
                                names))
         end)
  end.

(** The walk and the scan, for a folder without subdirectories that may
    hold [go.mod] and [main.go]: the folder is uncovered if it holds
    [main.go] and no [go.mod]; without import comment or manifest,
    [getModulePath] falls back on the folder; the [go] command is not
    installed. *)
Definition platform : Platform :=
  {| manager_paths := paths;
     filepath_Dir := Dir;
     lstat_tree := found 1 ["go.mod"; "main.go"];
     collectUncoveredSrc := fun fs0 path =>
       if os_Stat fs0 (Join path "go.mod") then ([], [], None)
       else if os_Stat fs0 (Join path "main.go")
            then ([Split path Separator], [], None)
            else ([], [], None);
     getModulePath := fun _ folder => folder;
     go_mod_init := fun fs0 _ _ => (fs0, Some "exec: go: not found");
     go_mod_download := fun fs0 _ => (fs0, Some "exec: go: not found") |}.

Definition server : ElasticServer :=
  {| session_InstallGoDependency := false; FolderNeedsCleanup := [] |}.

Definition world : World := {| fs := tree; folderUnderVendorMode := [] |}.

Definition folders : list WorkspaceFolder :=
  [ {| wf_URI := "/w"; wf_Name := "w" |} ].

(** A registry with one folder, and a folder ["/w/a"] with a [vendor]
    directory and no manifest. *)
Definition vendorWorld : World :=
  {| fs := {| entries :=
                <["/w/a" := Directory]> (<["/w/a/vendor" := Directory]> ∅);
              create_fails := ∅;
              write_fails := ∅;
              remove_fails := ∅ |};
     folderUnderVendorMode := ["/w/x"] |}.

End Demo.

(** The nodes at which the loop of [getQName] leaves the name unchanged. *)
Definition neutral (n : ast.Node) : bool :=
  match n with
  | ast.StructType | ast.InterfaceType | ast.FuncDecl _ => false
  | _ => true
  end.

(** ** The outline in pre-order

    [outline_entries] lists a symbol, then the entries of its children, child
    after child; an entry's qualified name is the qualified name of its
    parent (for a top-level symbol: the name of the package locator), a dot,
    and the symbol's own name. *)

Fixpoint outline_entries (uri : string) (pkgLocator : protocol.PackageLocator)
    (parentQname container : string) (symbol : protocol.DocumentSymbol)
  : list protocol.DetailSymbolInformation :=
  match symbol with
  | protocol.mkDocumentSymbol name kind deprecated selectionRange children =>
      {| protocol.Symbol :=
           {| protocol.si_Name := name;
              protocol.si_Kind := kind;
              protocol.si_Deprecated := deprecated;
              protocol.si_ContainerName := container;
              protocol.si_Location :=
                {| protocol.URI := uri;
                   protocol.Range_ := selectionRange |} |};
         protocol.dsi_Qname := parentQname ++ "." ++ name;
         protocol.dsi_Package := pkgLocator |}
      :: List.concat
           (List.map
              (outline_entries uri pkgLocator (parentQname ++ "." ++ name) name)
              children)
  end.

(** The qualified names in pre-order when a top-level symbol is named by its
    own name alone ([parent] is [None] at top level). *)
Fixpoint bare_qnames (parent : option string)
    (symbol : protocol.DocumentSymbol) : list string :=
  match symbol with
  | protocol.mkDocumentSymbol name _ _ _ children =>
      let qname :=
        match parent with
        | None => name
        | Some parentQname => parentQname ++ "." ++ name
        end in
      qname :: List.concat (List.map (bare_qnames (Some qname)) children)
  end.

(** Every symbol of the outline has a name. *)
Fixpoint named (symbol : protocol.DocumentSymbol) : bool :=
  match symbol with
  | protocol.mkDocumentSymbol name _ _ _ children =>
      negb (String.eqb name "") && forallb named children
  end.

(** The qualified name of the parent of the symbols that
    [flattenDocumentSymbol] is given with [prefix]. *)
Definition parent_qname (pkgLocator : protocol.PackageLocator)
    (prefix : string) : string :=
  if String.eqb prefix "" then protocol.Name pkgLocator
  else protocol.Name pkgLocator ++ "." ++ prefix.

(** ** Same-view jumps, as section 4.4 words them

    A file is inside a root directory when it is the root or its path
    continues the root's path with a separator. *)
Definition inside_root (root path : string) : bool :=
  String.eqb path root || HasPrefix path (root ++ String Separator "").

(** The shape of a successful [EDefinition] result decided by containment:
    the location and the empty package locator for a declaration inside the
    root, no location otherwise. *)
Definition shape_by_containment {env : Collaborators} : Prop :=
  forall (params : DefinitionParams) (f : File) (ident : IdentifierInfo)
         (locator : protocol.SymbolLocator),
    let view := session_ViewOf (span_NewURI (dp_URI params)) in
    view_GetFile view (span_NewURI (dp_URI params)) = ok f ->
    source_Identifier view f (dp_Position params) = ok ident ->
    value_of (EDefinition params) = Some (ok [locator]) ->
    if inside_root (Filename (view_Folder view))
                   (Filename (Declaration_URI ident))
    then is_Some (protocol.Loc locator)
         /\ protocol.Package_ locator = protocol.PackageLocator_zero
    else protocol.Loc locator = None.

(** ** When the walk of [getQName] panics

    A node is safe when the loop body can read what it needs: a struct or
    interface type has a parent in the path, and a receiver list has a first
    field whose type, under a star, is an identifier. *)
Definition safe_node (n : ast.Node) (hasParent : bool) : bool :=
  match n with
  | ast.StructType | ast.InterfaceType => hasParent
  | ast.FuncDecl (Some []) => false
  | ast.FuncDecl (Some (ast.StarExpr (ast.Ident _) :: _)) => true
  | ast.FuncDecl (Some (ast.StarExpr _ :: _)) => false
  | _ => true
  end.

Fixpoint safe_path (rest : list ast.Node) : bool :=
  match rest with
  | [] => true
  | n :: rest' =>
      safe_node n (match rest' with [] => false | _ :: _ => true end)
      && safe_path rest'
  end.

(** The environment of [Demo], with a parser that fails on every file. *)
Module DemoUnparsed.

Definition env : Collaborators :=
  {| handler_paths := Demo.paths;
     semver_IsValid := Demo.IsValid;
     pkgMod := "/go/pkg/mod";
     goRoot := "/usr/local/go";
     vcs_RepoRootForImportPath := Demo.RepoRoot;
     protocol_NewURI := fun uri => uri;
     View := string;
     File := string;
     AstFile := list ast.Node;
     CheckPackageHandle := string;
     Pkg := types.Package;
     session_ViewOf := fun _ => "/w/proj";
     view_Folder := fun view => view;
     view_GetFile := fun _ uri => ok uri;
     file_URI := fun f => f;
     view_Parse := fun _ _ => err "no syntax tree";
     astutil_PathEnclosingInterval := fun fAST _ _ => fAST;
     view_CheckPackageHandles := fun _ _ => err "no package";
     source_NarrowestCheckPackageHandle := List.hd "";
     cph_Check := fun _ => ok Demo.pkgMain;
     pkg_GetTypes := Some;
     source_Identifier := fun _ f _ => Demo.Identifier f;
     Server_DocumentSymbol := fun _ => (Demo.outline, None) |}.

End DemoUnparsed.

(** ** The names of an outline in pre-order

    Each symbol with the name of its parent (the given container at the top
    level), before its children. *)
Fixpoint outline_names (container : string)
    (symbol : protocol.DocumentSymbol) : list (string * string) :=
  match symbol with
  | protocol.mkDocumentSymbol name _ _ _ children =>
      (name, container)
      :: List.concat (List.map (outline_names name) children)
  end.

(** The name and the container name of a flattened entry. *)
Definition entry_names (entry : protocol.DetailSymbolInformation)
  : string * string :=
  (protocol.si_Name (protocol.Symbol entry),
   protocol.si_ContainerName (protocol.Symbol entry)).
(** ** What the module manager may do to the files without the [go] command

    [extends_with fs0 fs1 added]: every entry of [fs0] is in [fs1] as it
    was, the failure sets are the same, and a path that is new in [fs1] is
    the [go.mod] of a folder of [added], holding nothing or a [module]
    line. *)
Definition extends_with {sys : Platform} (fs0 fs1 : FileSystem)
    (added : list string) : Prop :=
  (forall path e, entries fs0 !! path = Some e -> entries fs1 !! path = Some e)
  /\ (forall path,
        entries fs0 !! path = None ->
        entries fs1 !! path = None
        \/ exists folder data,
            folder ∈ added
            /\ path = filepath_Join folder "go.mod"
            /\ entries fs1 !! path = Some (RegularFile data)
            /\ (data = "" \/ exists modulePath, data = "module " ++ modulePath))
  /\ create_fails fs1 = create_fails fs0
  /\ write_fails fs1 = write_fails fs0
  /\ remove_fails fs1 = remove_fails fs0.

(** From the manager [dm0] and the files [fs0] to [dm1] and [fs1]: the
    install flag is off, folders were only added to the cleanup list, and
    the new files are the [go.mod] of these folders. *)
Definition manual_progress {sys : Platform} (dm0 : DepsManager)
    (fs0 : FileSystem) (dm1 : DepsManager) (fs1 : FileSystem) : Prop :=
  installGoDeps dm1 = false
  /\ exists added,
      dm_FolderNeedsCleanup dm1 = (dm_FolderNeedsCleanup dm0 ++ added)%list
      /\ extends_with fs0 fs1 added.

(** ** A workspace with a nested module, for running the module manager

    Two workspace folders: ["/w"], whose subdirectory ["/w/a"] holds a
    [go.mod], and ["/v"], which holds none. The directories hold no other
    names than [a] and [go.mod]; no source is uncovered. *)
Module DemoModules.

Definition tree : FileSystem :=
  {| entries :=
       <["/w" := Directory]>
         (<["/w/a" := Directory]>
            (<["/w/a/go.mod" := RegularFile "module example.com/a"]>
               (<["/v" := Directory]> ∅)));
     create_fails := ∅;
     write_fails := ∅;
     remove_fails := ∅ |}.

Definition platform : Platform :=
  {| manager_paths := Demo.paths;
     filepath_Dir := Demo.Dir;
     lstat_tree := Demo.found 2 ["a"; "go.mod"];
     collectUncoveredSrc := fun _ _ => ([], [], None);
     getModulePath := fun _ folder => folder;
     go_mod_init := fun fs0 _ _ => (fs0, Some "exec: go: not found");
     go_mod_download := fun fs0 _ => (fs0, Some "exec: go: not found") |}.

Definition world : World := {| fs := tree; folderUnderVendorMode := [] |}.

Definition first : WorkspaceFolder := {| wf_URI := "/w"; wf_Name := "w" |}.
Definition second : WorkspaceFolder := {| wf_URI := "/v"; wf_Name := "v" |}.
Definition nested : WorkspaceFolder := {| wf_URI := "/w/a"; wf_Name := "a" |}.

End DemoModules.

(** ** The scan for uncovered sources, over a directory tree

    [collectUncoveredSrc] reads the directory it is given with [os.Stat]
    and [ioutil.ReadDir] and calls itself on the subdirectories. The
    directory is a finite tree here: a node is a file or a directory with
    its entries in the order of [ReadDir], which may fail for it. *)
Module Scan.

Inductive Node : Type :=
  | File
  | Dir (unreadable : option error) (fileInfo : list (string * Node)).

(** The entry of a directory listing with a given name. *)
Fixpoint entry (name : string) (fileInfo : list (string * Node))
  : option Node :=
  match fileInfo with
  | [] => None
  | (n, sub) :: rest => if String.eqb n name then Some sub else entry name rest
  end.

(** Whether the path made of [segments] exists below a node. *)
Fixpoint exists_below (segments : list string) (node : Node) : bool :=
  match segments with
  | [] => true
  | segment :: rest =>
      match node with
      | File => false
      | Dir _ fileInfo =>
          match entry segment fileInfo with
          | Some sub => exists_below rest sub
          | None => false
          end
      end
  end.

(** [os.Stat(filepath.Join(path, name))] succeeds, for the node at [path]. *)
Definition stat_under (dir : Node) (name : string) : bool :=
  exists_below (Split name Separator) dir.

(** The loop of [filepath.Ext], from the last byte down to a separator. *)
Fixpoint ext_scan (reversed : list ascii) (suffix : string) : string :=
  match reversed with
  | [] => ""
  | c :: before =>
      if Ascii.eqb c Separator then ""
      else if Ascii.eqb c "." then String c suffix
      else ext_scan before (String c suffix)
  end.

Definition filepath_Ext (path : string) : string :=
  ext_scan (rev (list_ascii_of_string path)) "".

(** [name[0]], which panics on the empty string. *)
Definition first_byte (name : string) : option ascii :=
  match name with
  | EmptyString => None
  | String c _ => Some c
  end.

Definition Outcome : Type :=
  (list (list string) * list string * option error)%type.

Section Scanner.

Context {paths : Paths}.

Definition existDepControlFile (dir : Node) : bool :=
  existsb (fun name => stat_under dir name) DependencyControlSystem.

(** The loop over the listing of [path]; [collect] is the function itself,
    called on the subdirectories. [None] is a panic. *)
Definition scan_entries (collect : Node -> string -> option Outcome)
    (path : string)
  : list (string * Node) -> bool -> list string -> list (list string) ->
    option error -> option Outcome :=
  fix loop fileInfo shouldBeCovered folderNeedMod folderUncovered err :=
    match fileInfo with
    | [] =>
        let folderUncovered :=
          if shouldBeCovered
          then (folderUncovered ++ [Split path Separator])%list
          else folderUncovered in
        Some (folderUncovered, folderNeedMod, err)
    | (name, sub) :: rest =>
        let shouldBeCovered :=
          if negb shouldBeCovered
             && String.eqb (filepath_Ext name) ".go"
             && negb (HasSuffix name "_test.go")
          then true else shouldBeCovered in
        match sub with
        | File => loop rest shouldBeCovered folderNeedMod folderUncovered err
        | Dir _ _ =>
            match first_byte name with
            | None => None
            | Some c =>
                if Ascii.eqb c "." then
                  loop rest shouldBeCovered folderNeedMod folderUncovered err
                else
                  match collect sub (filepath_Join path name) with
                  | None => None
                  | Some (uncovered, needMod, e) =>
                      loop rest shouldBeCovered
                           (folderNeedMod ++ needMod)%list
                           (folderUncovered ++ uncovered)%list e
                  end
            end
        end
    end.

Fixpoint collectUncoveredSrc (dir : Node) (path : string) {struct dir}
  : option Outcome :=
  if stat_under dir "go.mod" then Some ([], [], None)
  else if existDepControlFile dir then Some ([], [path], None)
  else if stat_under dir "vendor" then Some ([], [path], None)
  else
    match dir with
    | File => Some ([], [], Some "readdir: not a directory")
    | Dir (Some e) _ => Some ([], [], Some e)
    | Dir None fileInfo =>
        scan_entries collectUncoveredSrc path fileInfo false [] [] None
    end.

(** The directories that stop the scan: a module, a manifest of a
    dependency tool, or a [vendor] directory. *)
Definition marked (dir : Node) : bool :=
  stat_under dir "go.mod" || existDepControlFile dir
  || stat_under dir "vendor".

(** The names that make their directory one to cover. *)
Definition is_source (name : string) : bool :=
  String.eqb (filepath_Ext name) ".go" && negb (HasSuffix name "_test.go").

Definition hidden (name : string) : bool :=
  match first_byte name with
  | Some c => Ascii.eqb c "."
  | None => false
  end.

(** [scans root rootPath dir path]: from [root] at [rootPath], the scan
    comes to [dir] at [path], through readable directories that are not
    marked and whose names do not start with a dot. *)
Inductive scans : Node -> string -> Node -> string -> Prop :=
  | scans_here (dir : Node) (path : string) : scans dir path dir path
  | scans_below (fileInfo : list (string * Node)) (path name : string)
      (unreadable : option error) (subInfo : list (string * Node))
      (dir : Node) (path' : string) :
      marked (Dir None fileInfo) = false ->
      (name, Dir unreadable subInfo) ∈ fileInfo ->
      hidden name = false ->
      scans (Dir unreadable subInfo) (filepath_Join path name) dir path' ->
      scans (Dir None fileInfo) path dir path'.

End Scanner.

End Scan.

(** ** A directory tree, for running the scan

    The folder ["/w"] holds the unreadable directory [a], the directory [b]
    with a [vendor] directory, and the directory [c] with [main.go]. *)
Module DemoScan.

Definition tree : Scan.Node :=
  Scan.Dir None
    [ ("a", Scan.Dir (Some "permission denied") []);
      ("b", Scan.Dir None [("vendor", Scan.Dir None [])]);
      ("c", Scan.Dir None [("main.go", Scan.File)]) ].

Definition outcome : Scan.Outcome :=
  ([[""; "w"; "c"]], ["/w/b"], None).

End DemoScan.

(** ** The module path of a folder

    [getModulePath] first looks for an import comment or a manifest that
    names the import path (its closure [findModulePath], which reads the
    files of the folder: its outcome is a parameter here), and falls back
    on the shape of the folder name. *)
Module ModulePath.

(** [strings.Split(s, sep)] for a separator of one byte or more: [s] is cut
    at the occurrences of [sep], leftmost first and without overlap. [skip]
    counts the bytes of the occurrence just found that are still to drop. *)
Fixpoint split_from (s sep : string) (skip : nat) : list string :=
  match s with
  | EmptyString => [EmptyString]
  | String c s' =>
      match skip with
      | S skip' => split_from s' sep skip'
      | O =>
          if HasPrefix s sep
          then EmptyString :: split_from s' sep (String.length sep - 1)
          else match split_from s' sep 0 with
               | p :: ps => String c p :: ps
               | [] => [String c EmptyString]
               end
      end
  end.

Definition SplitString (s sep : string) : list string := split_from s sep 0.

(** [strings.Join(elems, sep)]. *)
Fixpoint Join (elems : list string) (sep : string) : string :=
  match elems with
  | [] => ""
  | a :: rest =>
      match rest with
      | [] => a
      | _ :: _ => a ++ sep ++ Join rest sep
      end
  end.

Definition getModulePath (findModulePath : Result string) (folder : string)
  : string :=
  match findModulePath with
  | ok modulePath => modulePath
  | err _ =>
      let list := SplitString folder (String Separator "__") in
      if negb (Nat.eqb (length list) 2) then folder
      else
        let prefixList := Split (nth 0 list "") Separator in
        let suffixList := Split (nth 1 list "") Separator in
        if Nat.ltb (length prefixList) 4 then folder
        else
          let modulePath :=
            Join (drop (length prefixList - 3) prefixList) "/" in
          if Nat.ltb (length suffixList) 3 then modulePath
          else Join (modulePath :: drop 2 suffixList) "/"
  end.

End ModulePath.

(** ** The paths a walk of [collectMetadata] comes to

    A base name is marked when it starts with a dot or is [vendor]. From
    [root], the walk comes to the entries of every directory it has come
    to whose names could be read and whose base name is not marked. *)
Definition marked_base (base : string) : bool :=
  match base with
  | EmptyString => false
  | String c _ => Ascii.eqb c "." || String.eqb base "vendor"
  end.

Inductive reaches {paths : Paths}
  : string -> Walk.Node -> string -> Walk.Node -> Prop :=
  | reaches_here (root : string) (node : Walk.Node) :
      reaches root node root node
  | reaches_below (root : string) (info : Walk.FileInfo)
      (names : list (string * Walk.Node)) (name : string)
      (child : Walk.Node) (path : string) (node : Walk.Node) :
      Walk.info_IsDir info = true ->
      filepath_Base root <> "" ->
      marked_base (filepath_Base root) = false ->
      (name, child) ∈ names ->
      reaches (filepath_Join root name) child path node ->
      reaches root (Walk.Found info (ok names)) path node.

(** Where the function given to the walk panics: at a path without base
    name, and at a missing path whose base name is marked. *)
Definition panics_at {paths : Paths} (path : string) (node : Walk.Node)
  : Prop :=
  filepath_Base path = ""
  \/ (marked_base (filepath_Base path) = true
      /\ exists e, node = Walk.Missing e).

(** The environment of [Demo], with a view that cannot get the file of the
    module cache. *)
Module DemoMissingFile.

Definition env : Collaborators :=
  {| handler_paths := Demo.paths;
     semver_IsValid := Demo.IsValid;
     pkgMod := "/go/pkg/mod";
     goRoot := "/usr/local/go";
     vcs_RepoRootForImportPath := Demo.RepoRoot;
     protocol_NewURI := fun uri => uri;
     View := string;
     File := string;
     AstFile := list ast.Node;
     CheckPackageHandle := string;
     Pkg := types.Package;
     session_ViewOf := fun _ => "/w/proj";
     view_Folder := fun view => view;
     view_GetFile := fun _ uri =>
       if String.eqb uri Demo.modFile then err "file not found" else ok uri;
     file_URI := fun f => f;
     view_Parse := fun _ _ => err "no syntax tree";
     astutil_PathEnclosingInterval := fun fAST _ _ => fAST;
     view_CheckPackageHandles := fun _ f => ok [f];
     source_NarrowestCheckPackageHandle := List.hd "";
     cph_Check := fun _ => ok Demo.pkgMain;
     pkg_GetTypes := Some;
     source_Identifier := fun _ f _ => Demo.Identifier f;
     Server_DocumentSymbol := fun _ => (Demo.outline, None) |}.

End DemoMissingFile.


(** * Properties *)

(** ** Facts about the string functions *)

Module GoStringsFacts.

Lemma length_append (a b : string) :
  String.length (a ++ b) = (String.length a + String.length b)%nat.
Proof. induction a as [|c a IH]; simpl; [reflexivity | now rewrite IH]. Qed.

Lemma append_assoc (a b c : string) : (a ++ b) ++ c = a ++ (b ++ c).
Proof. induction a as [|x a IH]; simpl; [reflexivity | now rewrite IH]. Qed.

Lemma HasPrefix_iff (s p : string) :
  HasPrefix s p = true <-> exists t, s = p ++ t.
Proof.
  revert s; induction p as [|c p IH]; intros s; simpl.
  - split; [intros _; now exists s | reflexivity].
  - destruct s as [|d s].
    + split; [discriminate | intros [t H]; discriminate].
    + rewrite andb_true_iff, Ascii.eqb_eq, IH. split.
      * intros [-> [t ->]]. now exists t.
      * intros [t H]. injection H as -> ->. split; [reflexivity | now exists t].
Qed.

Lemma Contains_iff (s sub : string) :
  Contains s sub = true <-> exists a b, s = a ++ sub ++ b.
Proof.
  induction s as [|c s IH].
  - simpl. rewrite orb_false_r, HasPrefix_iff. split.
    + intros [t H]. now exists "", t.
    + intros [a [b H]]. destruct a; [now exists b | discriminate].
  - cbn [Contains]. rewrite orb_true_iff, HasPrefix_iff, IH. split.
    + intros [[t H] | [a [b H]]].
      * now exists "", t.
      * exists (String c a), b. simpl. now rewrite H.
    + intros [a [b H]]. destruct a as [|x a].
      * left. now exists b.
      * right. injection H as _ H. now exists a, b.
Qed.

Lemma drop_bytes_append (a b : string) :
  drop_bytes (String.length a) (a ++ b) = b.
Proof. induction a as [|c a IH]; simpl; [reflexivity | exact IH]. Qed.

Lemma take_bytes_append (a b : string) :
  take_bytes (String.length a) (a ++ b) = a.
Proof. induction a as [|c a IH]; simpl; [reflexivity | now rewrite IH]. Qed.

Lemma take_drop_bytes (n : nat) (s : string) :
  take_bytes n s ++ drop_bytes n s = s.
Proof.
  revert s; induction n as [|n IH]; intros s; simpl; [reflexivity|].
  destruct s as [|c s]; simpl; [reflexivity | now rewrite IH].
Qed.

Lemma HasSuffix_iff (s suf : string) :
  HasSuffix s suf = true <-> exists b, s = b ++ suf.
Proof.
  unfold HasSuffix. rewrite andb_true_iff, Nat.leb_le, String.eqb_eq. split.
  - intros [Hlen H].
    exists (take_bytes (String.length s - String.length suf) s).
    pose proof (take_drop_bytes (String.length s - String.length suf) s) as T.
    rewrite H in T. now symmetry.
  - intros [b ->]. rewrite length_append. split; [lia|].
    replace (String.length b + String.length suf - String.length suf)%nat
      with (String.length b) by lia.
    apply drop_bytes_append.
Qed.

Lemma TrimSuffix_present (b suf : string) : TrimSuffix (b ++ suf) suf = b.
Proof.
  unfold TrimSuffix.
  assert (H : HasSuffix (b ++ suf) suf = true)
    by (apply HasSuffix_iff; now exists b).
  rewrite H, length_append.
  replace (String.length b + String.length suf - String.length suf)%nat
    with (String.length b) by lia.
  apply take_bytes_append.
Qed.

Lemma TrimSuffix_absent (s suf : string) :
  (forall b, s <> b ++ suf) -> TrimSuffix s suf = s.
Proof.
  intros H. unfold TrimSuffix.
  destruct (HasSuffix s suf) eqn:E; [|reflexivity].
  apply HasSuffix_iff in E as [b E]. now destruct (H b).
Qed.


Lemma Count_append (a b : string) (c : ascii) :
  Count (a ++ b) c = Count a c + Count b c.
Proof. induction a as [|x a IH]; simpl; [reflexivity | rewrite IH; lia]. Qed.

Lemma Count_nonneg (s : string) (c : ascii) : 0 <= Count s c.
Proof.
  induction s as [|x s IH]; simpl; [lia | destruct (Ascii.eqb x c); lia].
Qed.

Lemma Count_zero_iff (s : string) (c : ascii) :
  Count s c = 0 <-> has_byte c s = false.
Proof.
  induction s as [|x s IH]; simpl; [tauto|].
  pose proof (Count_nonneg s c).
  destruct (Ascii.eqb x c); simpl; [split; [lia | discriminate]|].
  rewrite <- IH. split; lia.
Qed.


Lemma LastIndex_absent (s : string) (c : ascii) :
  has_byte c s = false -> LastIndex s c = -1.
Proof.
  induction s as [|x s IH]; simpl; [reflexivity|].
  rewrite orb_false_iff. intros [Hx Hs]. rewrite (IH Hs), Hx. reflexivity.
Qed.

(** The last occurrence splits the string, and nothing after it is the
    separator. *)
Lemma LastIndex_present (s : string) (c : ascii) :
  0 < Count s c ->
  exists a r, s = a ++ String c r /\ has_byte c r = false
              /\ LastIndex s c = Z.of_nat (String.length a).
Proof.
  induction s as [|x s IH]; simpl; [lia|].
  intros H. destruct (has_byte c s) eqn:Hs.
  - assert (Hc : 0 < Count s c).
    { pose proof (Count_nonneg s c).
      destruct (Z.eq_dec (Count s c) 0) as [E|E]; [|lia].
      apply Count_zero_iff in E. congruence. }
    destruct (IH Hc) as [a [r [-> [Hr Hi]]]].
    exists (String x a), r. split; [reflexivity|]. split; [exact Hr|].
    rewrite Hi. simpl String.length.
    destruct (0 <=? Z.of_nat (String.length a)) eqn:E; [lia|].
    apply Z.leb_gt in E. lia.
  - assert (Hc : Count s c = 0) by now apply Count_zero_iff.
    rewrite (LastIndex_absent _ _ Hs). simpl.
    destruct (Ascii.eqb x c) eqn:Ex; [|lia].
    apply Ascii.eqb_eq in Ex. subst x.
    exists "", s. auto.
Qed.

Lemma slice_from_after (a r : string) (c : ascii) :
  slice_from (a ++ String c r) (Z.of_nat (String.length a) + 1) = Some r.
Proof.
  unfold slice_from. rewrite length_append. simpl String.length.
  destruct (Z.of_nat (String.length a) + 1 <? 0) eqn:E1;
    [apply Z.ltb_lt in E1; lia|].
  destruct (Z.of_nat (String.length a + S (String.length r))
            <? Z.of_nat (String.length a) + 1) eqn:E2;
    [apply Z.ltb_lt in E2; lia|].
  simpl. f_equal.
  replace (Z.to_nat (Z.of_nat (String.length a) + 1))
    with (String.length (a ++ String c ""))
    by (rewrite length_append; simpl; lia).
  replace (a ++ String c r) with ((a ++ String c "") ++ r)
    by (now rewrite append_assoc).
  apply drop_bytes_append.
Qed.

Lemma Split_nonempty (s : string) (c : ascii) : Split s c <> [].
Proof.
  destruct s as [|x s]; simpl; [discriminate|].
  destruct (Ascii.eqb x c); [discriminate|].
  destruct (Split s c); discriminate.
Qed.

Lemma SplitAfter_nonempty (s : string) (c : ascii) : SplitAfter s c <> [].
Proof.
  destruct s as [|x s]; simpl; [discriminate|].
  destruct (Ascii.eqb x c); [discriminate|].
  destruct (SplitAfter s c); discriminate.
Qed.

End GoStringsFacts.

Import GoStringsFacts.

(** ** Version resolver *)

Section VersionFacts.

Context {env : Collaborators}.

Lemma collect_valid (l : list string) (acc : list string) :
  fold_left
    (fun validVersion str =>
       let substrs := Split str Separator in
       let substrs0 := List.hd EmptyString substrs in
       if semver_IsValid substrs0
       then (validVersion ++ [substrs0])%list
       else validVersion) l acc
  = (acc ++ List.filter semver_IsValid (List.map piece_segment l))%list.
Proof.
  revert acc; induction l as [|str l IH]; intros acc; simpl.
  - now rewrite app_nil_r.
  - rewrite IH. unfold piece_segment at 2.
    destruct (semver_IsValid (List.hd "" (Split str Separator))).
    + now rewrite <- app_assoc.
    + reflexivity.
Qed.

Lemma getPkgVersionFast_filter (loc : string) :
  getPkgVersionFast loc =
  match List.filter semver_IsValid
          (List.map piece_segment (List.tl (SplitAfter loc "@"))) with
  | [v] => v
  | _ => ""
  end.
Proof. unfold getPkgVersionFast. now rewrite collect_valid. Qed.

(** The segment the code tests and the segment up to the next separator
    are equal, or both contain an ['@']. *)
Lemma piece_segment_until (s : string) :
  let a := piece_segment (List.hd EmptyString (SplitAfter s "@")) in
  let b := until_separator s in
  a = b \/ (has_byte "@" a = true /\ has_byte "@" b = true).
Proof.
  induction s as [|c s IH]; [now left|].
  cbn [SplitAfter until_separator].
  destruct (Ascii.eqb c "@") eqn:Eat.
  - apply Ascii.eqb_eq in Eat. subst c. right. split; reflexivity.
  - pose proof (SplitAfter_nonempty s "@") as Hne.
    destruct (SplitAfter s "@") as [|p ps]; [congruence|].
    cbn [List.hd] in *. unfold piece_segment in *. cbn [Split].
    destruct (Ascii.eqb c Separator) eqn:Esep; [now left|].
    pose proof (Split_nonempty p Separator) as Hne'.
    destruct (Split p Separator) as [|q qs]; [congruence|].
    cbn [List.hd] in *.
    destruct IH as [-> | [Ha Hb]]; [now left|].
    right. cbn [has_byte]. rewrite Ha, Hb, !orb_true_r. now split.
Qed.

Lemma tl_SplitAfter_cons (c : ascii) (s : string) :
  List.tl (SplitAfter (String c s) "@") =
  if Ascii.eqb c "@" then SplitAfter s "@" else List.tl (SplitAfter s "@").
Proof.
  cbn [SplitAfter]. destruct (Ascii.eqb c "@"); [reflexivity|].
  pose proof (SplitAfter_nonempty s "@").
  destruct (SplitAfter s "@"); [congruence | reflexivity].
Qed.

(** The block is total: with two hyphens there is a last one. *)
Lemma normalizeRev_total (rev : string) : is_Some (normalizeRev rev).
Proof.
  unfold normalizeRev. destruct (Count rev "-" =? 2) eqn:E; [|eauto].
  apply Z.eqb_eq in E.
  assert (Hc : 0 < Count (TrimSuffix rev "+incompatible") "-").
  { unfold TrimSuffix.
    destruct (HasSuffix rev "+incompatible") eqn:Es; [|lia].
    apply HasSuffix_iff in Es as [b ->].
    rewrite length_append, Count_append in *.
    replace (String.length b + String.length "+incompatible"
             - String.length "+incompatible")%nat
      with (String.length b) by lia.
    rewrite take_bytes_append. cbn in E. lia. }
  destruct (LastIndex_present _ _ Hc) as [a [r [Ha [_ Hi]]]].
  rewrite Hi. rewrite Ha at 1. rewrite slice_from_after. eauto.
Qed.

(** A version found by the fast path is stored normalized, and
    [getPkgVersion] does not panic. *)
Lemma getPkgVersion_normalizes (dir : string)
    (pkgLoc : protocol.PackageLocator) (loc : string) :
  let rev := getPkgVersionFast (TrimPrefix loc (filepath_Join pkgMod dir)) in
  rev <> "" ->
  exists r,
    normalizeRev rev = Some r
    /\ getPkgVersion dir pkgLoc loc
       = Some {| protocol.Version := r;
                 protocol.Name := protocol.Name pkgLoc;
                 protocol.RepoURI := protocol.RepoURI pkgLoc |}.
Proof.
  intros rev Hrev. unfold getPkgVersion. fold rev.
  apply String.eqb_neq in Hrev. rewrite Hrev. cbn [andb].
  destruct (normalizeRev_total rev) as [r Hr]. exists r. now rewrite Hr.
Qed.

Hypothesis IsValid_no_at :
  forall v, semver_IsValid v = true -> has_byte "@" v = false.

Lemma valid_segments_agree (loc : string) :
  List.filter semver_IsValid
    (List.map piece_segment (List.tl (SplitAfter loc "@")))
  = List.filter semver_IsValid (segments_after_at loc).
Proof.
  induction loc as [|c s IH]; [reflexivity|].
  rewrite tl_SplitAfter_cons. cbn [segments_after_at].
  destruct (Ascii.eqb c "@"); [|exact IH].
  pose proof (SplitAfter_nonempty s "@") as Hne.
  pose proof (piece_segment_until s) as Hseg.
  destruct (SplitAfter s "@") as [|p ps]; [congruence|].
  cbn [List.hd List.tl List.map List.filter] in *.
  rewrite IH.
  destruct Hseg as [-> | [Ha Hb]]; [reflexivity|].
  destruct (semver_IsValid (piece_segment p)) eqn:Va;
    [apply IsValid_no_at in Va; congruence|].
  destruct (semver_IsValid (until_separator s)) eqn:Vb;
    [apply IsValid_no_at in Vb; congruence|].
  reflexivity.
Qed.

End VersionFacts.

Lemma Demo_IsValid_no_at (v : string) :
  Demo.IsValid v = true -> has_byte "@" v = false.
Proof.
  unfold Demo.IsValid. cbn [existsb]. rewrite !orb_true_iff, !String.eqb_eq.
  intros [-> | [-> | [-> | H]]]; [reflexivity .. | discriminate].
Qed.

(** C3. Version normalization: with exactly two hyphens, the
    ["+incompatible"] suffix (if present) is stripped and the result is what
    follows the final hyphen; any other string passes through unchanged. The
    slice expression never panics. The three concrete versions of the
    specification normalize as stated. *)
Theorem normalizeRev_spec (rev : string) :
  (Count rev "-" = 2 ->
     exists p r,
       TrimSuffix rev "+incompatible" = p ++ "-" ++ r
       /\ has_byte "-" r = false
       /\ normalizeRev rev = Some r)
  /\ (Count rev "-" <> 2 -> normalizeRev rev = Some rev)
  /\ (forall b, rev = b ++ "+incompatible" ->
        TrimSuffix rev "+incompatible" = b)
  /\ ((forall b, rev <> b ++ "+incompatible") ->
        TrimSuffix rev "+incompatible" = rev)
  /\ normalizeRev "v0.0.0-20200101000000-abcdef123456" = Some "abcdef123456"
  /\ normalizeRev "v1.2.3+incompatible" = Some "v1.2.3+incompatible"
  /\ normalizeRev "v1.2.3-pre-deadbeef+incompatible" = Some "deadbeef".
Proof.
  repeat split.
  - intros H2. unfold normalizeRev. rewrite H2. cbn [Z.eqb Pos.eqb].
    assert (Hc : Count (TrimSuffix rev "+incompatible") "-" = 2).
    { unfold TrimSuffix.
      destruct (HasSuffix rev "+incompatible") eqn:E; [|exact H2].
      apply HasSuffix_iff in E as [b ->].
      rewrite length_append, Count_append in *.
      replace (String.length b + String.length "+incompatible"
               - String.length "+incompatible")%nat
        with (String.length b) by lia.
      rewrite take_bytes_append. cbn in H2. lia. }
    destruct (LastIndex_present (TrimSuffix rev "+incompatible") "-")
      as [a [r [Ha [Hr Hi]]]]; [lia|].
    exists a, r. split; [exact Ha|]. split; [exact Hr|].
    rewrite Hi. rewrite Ha at 1. apply slice_from_after.
  - intros Hn. unfold normalizeRev.
    destruct (Count rev "-" =? 2) eqn:E; [apply Z.eqb_eq in E; contradiction|].
    reflexivity.
  - intros b ->. apply TrimSuffix_present.
  - apply TrimSuffix_absent.
Qed.

Lemma normalizeRev_spec_witness :
  exists p r,
    TrimSuffix "v1.2.3-pre-deadbeef+incompatible" "+incompatible"
      = p ++ "-" ++ r
    /\ has_byte "-" r = false
    /\ normalizeRev "v1.2.3-pre-deadbeef+incompatible" = Some r.
Proof.
  apply (proj1 (normalizeRev_spec "v1.2.3-pre-deadbeef+incompatible")).
  reflexivity.
Defined.

(** C4. Fast version extraction returns the one segment that follows an
    ['@'] (up to the next path separator) and is a valid semantic version,
    and the empty string when there is none or more than one; the slow
    fallback always fails, so the version of the package locator is then left
    empty and the locator is still returned. *)
Theorem getPkgVersionFast_spec {env : Collaborators}
    (IsValid_no_at :
       forall v, semver_IsValid v = true -> has_byte "@" v = false)
    (loc : string) :
  let valid := List.filter semver_IsValid (segments_after_at loc) in
  (forall v, valid = [v] -> getPkgVersionFast loc = v)
  /\ (length valid <> 1%nat -> getPkgVersionFast loc = "")
  /\ getPkgVersionSlow <> None
  /\ (forall dir pkgLoc loc',
        getPkgVersionFast (TrimPrefix loc' (filepath_Join pkgMod dir)) = "" ->
        getPkgVersion dir pkgLoc loc' = Some pkgLoc)
  /\ (forall pkg dir loc',
        getPkgVersionFast (TrimPrefix loc' (filepath_Join pkgMod dir)) = "" ->
        exists locator,
          value_of (collectPkgMetadata (Some pkg) dir loc') = Some locator
          /\ protocol.Version locator = ""
          /\ protocol.Name locator = types.pkg_Name pkg).
Proof.
  intros valid. subst valid.
  rewrite getPkgVersionFast_filter, (valid_segments_agree IsValid_no_at).
  split; [|split; [|split; [|split]]].
  - intros v ->. reflexivity.
  - intros Hlen.
    destruct (List.filter semver_IsValid (segments_after_at loc))
      as [|v [|v' l]]; [reflexivity | now destruct Hlen | reflexivity].
  - discriminate.
  - intros dir pkgLoc loc' Hfast. unfold getPkgVersion.
    rewrite Hfast. reflexivity.
  - intros pkg dir loc' Hfast. unfold collectPkgMetadata, getPkgVersion.
    rewrite Hfast. cbn.
    destruct (HasPrefix loc' dir || HasPrefix loc' goRoot); cbn.
    + eexists. split; [reflexivity|]. split; reflexivity.
    + destruct (vcs_RepoRootForImportPath (types.pkg_Path pkg)); cbn;
        eexists; (split; [reflexivity|]); split; reflexivity.
Qed.

Lemma getPkgVersionFast_spec_witness :
  @getPkgVersionFast Demo.env "/github.com/x/y@v1.2.3/z.go" = "v1.2.3"
  /\ @getPkgVersionFast Demo.env "/github.com/x/y@v1.2.3/z@v2.0.0/f.go" = "".
Proof.
  split.
  - apply (proj1 (@getPkgVersionFast_spec Demo.env Demo_IsValid_no_at
                    "/github.com/x/y@v1.2.3/z.go")).
    reflexivity.
  - apply (proj1 (proj2 (@getPkgVersionFast_spec Demo.env Demo_IsValid_no_at
                    "/github.com/x/y@v1.2.3/z@v2.0.0/f.go"))).
    cbn. lia.
Defined.

(** ** The handlers *)

Section ServerFacts.

Context {env : Collaborators}.




Lemma getPkgVersion_total (dir : string) (pkgLoc : protocol.PackageLocator)
    (loc : string) :
  is_Some (getPkgVersion dir pkgLoc loc).
Proof.
  unfold getPkgVersion.
  destruct (String.eqb _ "" && _); [eauto|].
  destruct (normalizeRev_total
              (getPkgVersionFast (TrimPrefix loc (filepath_Join pkgMod dir))))
    as [r ->].
  eauto.
Qed.

(** The package locator skips the version and the repository lookup
    exactly when the directory or [$GOROOT] is a string prefix of the file
    name. *)
Lemma collectPkgMetadata_skips_iff (pkg : types.Package) (dir loc : string) :
  collectPkgMetadata (Some pkg) dir loc
  = (Some {| protocol.Version := "";
             protocol.Name := types.pkg_Name pkg;
             protocol.RepoURI := types.pkg_Path pkg |},
     [CallCollectPkgMetadata])
  <-> (exists t, loc = dir ++ t) \/ (exists t, loc = goRoot ++ t).
Proof.
  rewrite <- !HasPrefix_iff, <- orb_true_iff. unfold collectPkgMetadata.
  destruct (HasPrefix loc dir || HasPrefix loc goRoot); [now split|].
  split; [|discriminate].
  destruct (getPkgVersion_total dir
              {| protocol.Version := "";
                 protocol.Name := types.pkg_Name pkg;
                 protocol.RepoURI := types.pkg_Path pkg |} loc) as [l ->].
  cbn. destruct (vcs_RepoRootForImportPath _); discriminate.
Qed.

Local Opaque getQName collectPkgMetadata.

(** A successful [EDefinition] returns one locator, of one of two shapes,
    told apart by the test the code makes. If the root's file name is a
    prefix of the declaration's file name, it has the location, no qualified name, kind [0] and the empty
    package locator, and the only calls made are the four that resolve the
    identifier: neither the classifier, nor the qualified-name resolver,
    nor the package locator runs. Otherwise it has no location, the kind
    given by the classifier, which is not [0], the qualified name and the
    package locator. *)
Theorem EDefinition_result_shape (params : DefinitionParams)
    (r : list protocol.SymbolLocator) :
  let uri := span_NewURI (dp_URI params) in
  let view := session_ViewOf uri in
  value_of (EDefinition params) = Some (ok r) ->
  exists f ident declRange locator,
    view_GetFile view uri = ok f
    /\ source_Identifier view f (dp_Position params) = ok ident
    /\ Declaration_Range ident = ok declRange
    /\ r = [locator]
    /\ if HasPrefix (Filename (Declaration_URI ident))
                    (Filename (view_Folder view))
       then
         locator =
           {| protocol.Qname := "";
              protocol.Kind := 0;
              protocol.Loc :=
                Some {| protocol.URI :=
                          protocol_NewURI (Declaration_URI ident);
                        protocol.Range_ := declRange |};
              protocol.Package_ := protocol.PackageLocator_zero |}
         /\ calls_of (EDefinition params)
            = [CallViewOf; CallGetFile; CallIdentifier; CallDeclRange]
       else
         protocol.Loc locator = None
         /\ protocol.Kind locator = getSymbolKind (GetDeclObject ident)
         /\ protocol.Kind locator <> 0
         /\ exists declFile,
             view_GetFile view (Declaration_URI ident) = ok declFile
             /\ value_of (getQName view declFile (GetDeclObject ident)
                                   (protocol.Kind locator))
                = Some (protocol.Qname locator)
             /\ value_of (collectPkgMetadata
                            (types.obj_Pkg (GetDeclObject ident))
                            (Filename (view_Folder view))
                            (Filename (Declaration_URI ident)))
                = Some (protocol.Package_ locator).
Proof.
  intros uri view H. subst view uri. unfold EDefinition in *.
  cbn in H |- *.
  destruct (view_GetFile _ _) as [f|e] eqn:Hf; [|discriminate].
  cbn in H |- *.
  destruct (source_Identifier _ f (dp_Position params)) as [ident|e]
    eqn:Hid; [|discriminate].
  cbn in H |- *.
  destruct (Declaration_Range ident) as [declRange|e] eqn:Hrange;
    [|discriminate].
  exists f, ident, declRange.
  destruct (HasPrefix (Filename (Declaration_URI ident)) _) eqn:Hprefix.
  - cbn in H |- *. injection H as <-. eexists.
    repeat split; first [reflexivity | assumption].
  - cbn in H.
    destruct (view_GetFile _ (Declaration_URI ident)) as [declFile|e]
      eqn:Hdecl; [|discriminate].
    cbn in H.
    destruct (getSymbolKind (GetDeclObject ident) =? 0) eqn:Hkind;
      [discriminate|].
    destruct (getQName _ declFile (GetDeclObject ident)
                       (getSymbolKind (GetDeclObject ident)))
      as [[qname|] tq] eqn:Hq; [|discriminate].
    cbn in H.
    destruct (collectPkgMetadata (types.obj_Pkg (GetDeclObject ident)) _ _)
      as [[l|] tl] eqn:Hl; [|discriminate].
    cbn in H. injection H as <-. eexists.
    split; [first [reflexivity | assumption]|].
    split; [first [reflexivity | assumption]|].
    split; [first [reflexivity | assumption]|].
    split; [reflexivity|]. cbn.
    split; [reflexivity|]. split; [reflexivity|].
    split; [now apply Z.eqb_neq|].
    exists declFile. rewrite Hq.
    repeat split; first [reflexivity | assumption].
Qed.


(** C10. The same-view test is a test on strings: with the identifier
    resolved, [EDefinition] answers with the location exactly when the
    file name of the workspace root is a string prefix of the file name of
    the declaration; and the package locator skips the version (and the
    repository lookup) exactly when the root or [$GOROOT] is a string prefix
    of the file name. The root ["/w/proj"] is such a prefix of ["/w/project2/f.go"]. *)
Theorem same_view_is_string_prefix (params : DefinitionParams)
    (f : File) (ident : IdentifierInfo) (declRange : protocol.Range) :
  let uri := span_NewURI (dp_URI params) in
  let view := session_ViewOf uri in
  let d := Filename (view_Folder view) in
  let p := Filename (Declaration_URI ident) in
  view_GetFile view uri = ok f ->
  source_Identifier view f (dp_Position params) = ok ident ->
  Declaration_Range ident = ok declRange ->
  (value_of (EDefinition params)
   = Some (ok [ {| protocol.Qname := "";
                   protocol.Kind := 0;
                   protocol.Loc :=
                     Some {| protocol.URI :=
                               protocol_NewURI (Declaration_URI ident);
                             protocol.Range_ := declRange |};
                   protocol.Package_ := protocol.PackageLocator_zero |} ])
   <-> exists t, p = d ++ t)
  /\ (forall pkg dir loc,
        collectPkgMetadata (Some pkg) dir loc
        = (Some {| protocol.Version := "";
                   protocol.Name := types.pkg_Name pkg;
                   protocol.RepoURI := types.pkg_Path pkg |},
           [CallCollectPkgMetadata])
        <-> (exists t, loc = dir ++ t) \/ (exists t, loc = goRoot ++ t))
  /\ HasPrefix "/w/project2/f.go" "/w/proj" = true.
Proof.
  intros uri view d p Hf Hid Hrange. split; [|split; [|reflexivity]].
  - rewrite <- HasPrefix_iff. subst d p.
    unfold EDefinition. fold uri. fold view.
    cbn. rewrite Hf. cbn. rewrite Hid. cbn. rewrite Hrange.
    destruct (HasPrefix (Filename (Declaration_URI ident))
                        (Filename (view_Folder view))); [now split|].
    split; [|discriminate]. cbn.
    destruct (view_GetFile view (Declaration_URI ident)); [|discriminate].
    cbn.
    destruct (getSymbolKind (GetDeclObject ident) =? 0); [discriminate|].
    destruct (getQName _ _ _ _) as [[qname|] tq]; [|discriminate]. cbn.
    destruct (collectPkgMetadata _ _ _) as [[l|] tl]; discriminate.
  - apply collectPkgMetadata_skips_iff.
Qed.

Local Transparent getQName collectPkgMetadata.

Lemma qnameWalk_neutral (inner rest : list ast.Node) (qname : string) :
  forallb neutral inner = true ->
  qnameWalk (inner ++ rest)%list qname = qnameWalk rest qname.
Proof.
  revert qname; induction inner as [|n inner IH]; intros qname H;
    [reflexivity|].
  cbn [forallb] in H. apply andb_true_iff in H as [Hn Hinner].
  cbn [app qnameWalk].
  assert (E : forall parent, qnameStep n parent qname = Some qname)
    by (intros parent; destruct n; (discriminate || reflexivity)).
  rewrite E. now apply IH.
Qed.

(** C8. In the walk of [getQName], an anonymous struct type whose parent
    is a field or a value spec that declares several names prepends the
    first of these names: the qualified name is the one computed from
    [first.name] by the rest of the walk, whatever the other names are. *)
Theorem getQName_first_declared_name (view : View) (f : File)
    (declObj : types.Object) (kind : protocol.SymbolKind) (fAST : AstFile)
    (n0 : ast.Node) (inner outer : list ast.Node) (site : ast.Node)
    (first : string) (others : list string) :
  (kind =? protocol.Package) = false ->
  view_Parse view f = ok fAST ->
  astutil_PathEnclosingInterval fAST (types.obj_Pos declObj)
                                (types.obj_Pos declObj)
  = (n0 :: inner ++ ast.StructType :: site :: outer)%list ->
  forallb neutral inner = true ->
  site = ast.Field (first :: others)
  \/ site = ast.ValueSpec (first :: others) ->
  qnameStep ast.StructType (Some site) (types.obj_Name declObj)
  = Some (first ++ "." ++ types.obj_Name declObj)
  /\ value_of (getQName view f declObj kind)
     = match qnameWalk outer (first ++ "." ++ types.obj_Name declObj) with
       | None => None
       | Some qname =>
           Some match types.obj_Pkg declObj with
                | None => qname
                | Some pkg => types.pkg_Name pkg ++ "." ++ qname
                end
       end.
Proof.
  intros Hkind Hparse Hpath Hinner Hsite.
  assert (Hstep : qnameStep ast.StructType (Some site)
                            (types.obj_Name declObj)
                  = Some (first ++ "." ++ types.obj_Name declObj))
    by (destruct Hsite as [-> | ->]; reflexivity).
  split; [exact Hstep|].
  unfold getQName. rewrite Hkind. cbn. rewrite Hparse. cbn.
  rewrite Hpath. cbn [lift].
  rewrite (qnameWalk_neutral _ _ _ Hinner).
  cbn [qnameWalk head]. rewrite Hstep.
  assert (E : forall q, qnameStep site (head outer) q = Some q)
    by (intros q; destruct Hsite as [-> | ->]; reflexivity).
  rewrite E. cbn.
  destruct (qnameWalk outer _); [|reflexivity].
  cbn. now destruct (types.obj_Pkg declObj).
Qed.

(** C9. A [Full] request for a document under a [vendor] directory returns
    the empty response and no error at once: no collaborator is called, so
    neither the type checker nor the package resolution runs. *)
Theorem Full_vendor_is_empty (fullParams : FullParams) (p q : string) :
  Filename (span_NewURI (fp_URI fullParams)) = p ++ "/vendor/" ++ q ->
  Full fullParams
  = (Some ({| protocol.Symbols := []; protocol.References := [] |}, None),
     []).
Proof.
  intros H. unfold Full.
  assert (E : Contains (Filename (span_NewURI (fp_URI fullParams)))
                       folderSkip = true).
  { apply Contains_iff. exists p, q. exact H. }
  rewrite E. reflexivity.
Qed.

End ServerFacts.

Lemma EDefinition_result_shape_witness :
  value_of (@EDefinition Demo.env Demo.requestA) = Some (ok [Demo.locatorA])
  /\ exists f ident declRange locator,
       @view_GetFile Demo.env "/w/proj" "/w/proj/a.go" = ok f
       /\ @source_Identifier Demo.env "/w/proj" f Demo.zeroPosition = ok ident
       /\ Declaration_Range ident = ok declRange
       /\ [Demo.locatorA] = [locator]
       /\ if HasPrefix (Declaration_URI ident) "/w/proj"
          then
            locator =
              {| protocol.Qname := "";
                 protocol.Kind := 0;
                 protocol.Loc :=
                   Some {| protocol.URI := Declaration_URI ident;
                           protocol.Range_ := declRange |};
                 protocol.Package_ := protocol.PackageLocator_zero |}
            /\ calls_of (@EDefinition Demo.env Demo.requestA)
               = [CallViewOf; CallGetFile; CallIdentifier; CallDeclRange]
          else
            protocol.Loc locator = None
            /\ protocol.Kind locator = getSymbolKind (GetDeclObject ident)
            /\ protocol.Kind locator <> 0
            /\ exists declFile,
                @view_GetFile Demo.env "/w/proj" (Declaration_URI ident)
                = ok declFile
                /\ value_of (@getQName Demo.env "/w/proj" declFile
                               (GetDeclObject ident) (protocol.Kind locator))
                   = Some (protocol.Qname locator)
                /\ value_of (@collectPkgMetadata Demo.env
                               (types.obj_Pkg (GetDeclObject ident))
                               "/w/proj" (Declaration_URI ident))
                   = Some (protocol.Package_ locator).
Proof.
  split; [reflexivity|].
  apply (@EDefinition_result_shape Demo.env Demo.requestA [Demo.locatorA]).
  reflexivity.
Defined.


Lemma same_view_is_string_prefix_witness :
  value_of (@EDefinition Demo.env Demo.requestMain)
  = Some (ok [Demo.locatorMain]).
Proof.
  apply (proj1 (@same_view_is_string_prefix Demo.env Demo.requestMain
                  "/w/proj/main.go" _ Demo.zeroRange
                  eq_refl eq_refl eq_refl)).
  exists "ect2/f.go". reflexivity.
Defined.

Lemma getQName_first_declared_name_witness :
  value_of (@getQName Demo.env "/w/proj" Demo.modFile Demo.objectX
              protocol.Field)
  = Some "y.T.a.x".
Proof.
  exact (proj2 (@getQName_first_declared_name Demo.env "/w/proj" Demo.modFile
                  Demo.objectX protocol.Field Demo.pathOfX ast.OtherNode
                  [ast.Field ["x"]; ast.OtherNode]
                  [ast.OtherNode; ast.StructType; ast.TypeSpec "T";
                   ast.OtherNode; ast.OtherNode]
                  (ast.Field ["a"; "b"]) "a" ["b"]
                  eq_refl eq_refl eq_refl eq_refl (or_introl eq_refl))).
Defined.

Lemma Full_vendor_is_empty_witness :
  @Full Demo.env Demo.requestVendored
  = (Some ({| protocol.Symbols := []; protocol.References := [] |}, None),
     []).
Proof.
  apply (@Full_vendor_is_empty Demo.env Demo.requestVendored
           "/w/proj" "github.com/x/y/z.go").
  reflexivity.
Defined.

(** ** The flattened outline *)

Section FlattenFacts.

Variable uri : string.
Variable pkgLocator : protocol.PackageLocator.

Lemma DocumentSymbol_children_ind (P : protocol.DocumentSymbol -> Prop) :
  (forall name kind deprecated selectionRange children,
      Forall P children ->
      P (protocol.mkDocumentSymbol name kind deprecated selectionRange
                                   children)) ->
  forall symbol, P symbol.
Proof.
  intros step. fix IH 1. intros [name kind deprecated selectionRange children].
  apply step. induction children as [|c cs IHcs]; constructor.
  - apply IH.
  - exact IHcs.
Qed.

Lemma range_children (l : list protocol.DocumentSymbol)
      (qnamePrefix name : string) :
  forall detailSyms,
    (fix range (symbols : list protocol.DocumentSymbol)
         (detailSyms : list protocol.DetailSymbolInformation) :=
       match symbols with
       | [] => detailSyms
       | symbol :: symbols' =>
           range symbols'
             (flattenSymbol uri pkgLocator symbol qnamePrefix name
                            detailSyms)
       end) l detailSyms
    = flattenDocumentSymbol uri pkgLocator l qnamePrefix name detailSyms.
Proof.
  induction l as [|s l IH]; intros detailSyms; [reflexivity|].
  cbn [flattenDocumentSymbol]. apply IH.
Qed.

Lemma flattenSymbol_children name kind deprecated selectionRange children
      prefix container detailSyms :
  flattenSymbol uri pkgLocator
    (protocol.mkDocumentSymbol name kind deprecated selectionRange children)
    prefix container detailSyms
  = let qnamePrefix :=
      if negb (String.eqb prefix "") then prefix ++ "." ++ name else name in
    flattenDocumentSymbol uri pkgLocator children qnamePrefix name
      (detailSyms ++
       [ {| protocol.Symbol :=
              {| protocol.si_Name := name;
                 protocol.si_Kind := kind;
                 protocol.si_Deprecated := deprecated;
                 protocol.si_ContainerName := container;
                 protocol.si_Location :=
                   {| protocol.URI := uri;
                      protocol.Range_ := selectionRange |} |};
            protocol.dsi_Qname :=
              protocol.Name pkgLocator ++ "." ++ qnamePrefix;
            protocol.dsi_Package := pkgLocator |} ])%list.
Proof.
  cbn zeta. cbn [flattenSymbol].
  set (q := if negb (String.eqb prefix "") then _ else _).
  generalize (detailSyms ++
    [ {| protocol.Symbol :=
           {| protocol.si_Name := name;
              protocol.si_Kind := kind;
              protocol.si_Deprecated := deprecated;
              protocol.si_ContainerName := container;
              protocol.si_Location :=
                {| protocol.URI := uri;
                   protocol.Range_ := selectionRange |} |};
         protocol.dsi_Qname := protocol.Name pkgLocator ++ "." ++ q;
         protocol.dsi_Package := pkgLocator |} ])%list.
  intros acc. destruct children as [|c cs]; [reflexivity|].
  cbn [flattenDocumentSymbol]. apply range_children.
Qed.

Lemma qname_assoc (prefix name : string) :
  protocol.Name pkgLocator ++ "." ++
    (if negb (String.eqb prefix "") then prefix ++ "." ++ name else name)
  = parent_qname pkgLocator prefix ++ "." ++ name.
Proof.
  unfold parent_qname. destruct (String.eqb prefix ""); cbn [negb];
    [reflexivity|].
  now rewrite !append_assoc.
Qed.

Lemma parent_qname_child (prefix name : string) :
  String.eqb name "" = false ->
  parent_qname pkgLocator
    (if negb (String.eqb prefix "") then prefix ++ "." ++ name else name)
  = parent_qname pkgLocator prefix ++ "." ++ name.
Proof.
  intros Hname. rewrite <- qname_assoc. unfold parent_qname at 1.
  destruct (String.eqb prefix "") eqn:E; cbn [negb].
  - now rewrite Hname.
  - destruct prefix; [discriminate E | reflexivity].
Qed.

Lemma flatten_outline_list (symbols : list protocol.DocumentSymbol) :
  Forall (fun symbol =>
            forall prefix container detailSyms,
              named symbol = true ->
              flattenSymbol uri pkgLocator symbol prefix container detailSyms
              = (detailSyms ++
                 outline_entries uri pkgLocator
                                 (parent_qname pkgLocator prefix)
                                 container symbol)%list) symbols ->
  forall prefix container detailSyms,
    forallb named symbols = true ->
    flattenDocumentSymbol uri pkgLocator symbols prefix container detailSyms
    = (detailSyms ++
       List.concat
         (List.map (outline_entries uri pkgLocator
                                    (parent_qname pkgLocator prefix)
                                    container) symbols))%list.
Proof.
  induction 1 as [|s l Hs Hl IH]; intros prefix container detailSyms Hn.
  - cbn. now rewrite app_nil_r.
  - cbn [forallb] in Hn. apply andb_true_iff in Hn as [Hns Hnl].
    cbn [flattenDocumentSymbol List.map List.concat].
    rewrite (Hs _ _ _ Hns), (IH _ _ _ Hnl). now rewrite <- app_assoc.
Qed.

Lemma flatten_outline_symbol (symbol : protocol.DocumentSymbol) :
  forall prefix container detailSyms,
    named symbol = true ->
    flattenSymbol uri pkgLocator symbol prefix container detailSyms
    = (detailSyms ++
       outline_entries uri pkgLocator (parent_qname pkgLocator prefix)
                       container symbol)%list.
Proof.
  induction symbol as [name kind deprecated selectionRange children IH]
    using DocumentSymbol_children_ind.
  intros prefix container detailSyms Hn.
  cbn [named] in Hn. apply andb_true_iff in Hn as [Hname Hchildren].
  apply negb_true_iff in Hname.
  rewrite flattenSymbol_children. cbn zeta.
  rewrite (flatten_outline_list children IH _ _ _ Hchildren).
  rewrite (parent_qname_child _ _ Hname), qname_assoc.
  cbn [outline_entries]. now rewrite <- app_assoc.
Qed.

Lemma flatten_outline (symbols : list protocol.DocumentSymbol) :
  forallb named symbols = true ->
  flattenDocumentSymbol uri pkgLocator symbols "" "" []
  = List.concat
      (List.map (outline_entries uri pkgLocator (protocol.Name pkgLocator) "")
                symbols).
Proof.
  intros Hn. rewrite (flatten_outline_list symbols); [reflexivity| |exact Hn].
  apply Forall_forall. intros s _. apply flatten_outline_symbol.
Qed.

End FlattenFacts.

Lemma outline_entries_package (uri : string)
    (pkgLocator : protocol.PackageLocator) (symbol : protocol.DocumentSymbol) :
  forall parentQname container,
    Forall (fun entry => protocol.dsi_Package entry = pkgLocator)
           (outline_entries uri pkgLocator parentQname container symbol).
Proof.
  induction symbol as [name kind deprecated selectionRange children IH]
    using DocumentSymbol_children_ind.
  intros parentQname container. cbn [outline_entries].
  constructor; [reflexivity|].
  induction IH as [|c cs Hc _ IHcs]; cbn [List.map List.concat];
    [constructor|].
  apply Forall_app. split; [apply Hc | exact IHcs].
Qed.

#[local] Opaque collectPkgMetadata.

(** C5, as the code has it. When [Full] flattens the outline (the document
    is not vendored, no step fails) and every symbol has a name, the symbols
    of the response are the outline in pre-order; the qualified name of an
    entry is the name of the package locator, a dot, and the symbol's name
    for a top-level symbol, and the parent's qualified name, a dot, and the
    symbol's name for a nested one; all entries carry the package locator
    computed once for the package of the document. *)
Theorem Full_symbols_preorder {env : Collaborators} (fullParams : FullParams)
    (resp : protocol.FullResponse) :
  let uri := span_NewURI (fp_URI fullParams) in
  let view := session_ViewOf uri in
  let docSyms := fst (Server_DocumentSymbol (fp_URI fullParams)) in
  Contains (Filename uri) folderSkip = false ->
  forallb named docSyms = true ->
  value_of (Full fullParams) = Some (resp, None) ->
  exists f cphs pkg pkgLocator,
    view_GetFile view uri = ok f
    /\ view_CheckPackageHandles view f = ok cphs
    /\ cph_Check (source_NarrowestCheckPackageHandle cphs) = ok pkg
    /\ value_of (collectPkgMetadata (pkg_GetTypes pkg)
                   (Filename (view_Folder view)) (Filename (file_URI f)))
       = Some pkgLocator
    /\ protocol.Symbols resp
       = List.concat
           (List.map
              (outline_entries (fp_URI fullParams) pkgLocator
                               (protocol.Name pkgLocator) "")
              docSyms)
    /\ Forall (fun entry => protocol.dsi_Package entry = pkgLocator)
              (protocol.Symbols resp)
    /\ protocol.References resp = [].
Proof.
  intros uri view docSyms Hvendor Hnamed H. subst docSyms view uri.
  unfold Full in H. rewrite Hvendor in H. cbn in H.
  destruct (view_GetFile _ _) as [f|e] eqn:Hf; [|discriminate]. cbn in H.
  destruct (view_CheckPackageHandles _ f) as [cphs|e] eqn:Hcphs;
    [|discriminate].
  cbn in H.
  destruct (cph_Check _) as [pkg|e] eqn:Hpkg; [|discriminate].
  destruct (collectPkgMetadata (pkg_GetTypes pkg) _ _) as [[l|] tl] eqn:Hl;
    [|discriminate].
  cbn in H.
  destruct (Server_DocumentSymbol (fp_URI fullParams)) as [docSyms [e|]];
    [discriminate|].
  cbn in H, Hnamed.
  assert (E : resp =
              {| protocol.Symbols :=
                   flattenDocumentSymbol (fp_URI fullParams) l docSyms "" "" [];
                 protocol.References := [] |})
    by (destruct (fp_Reference fullParams); cbn in H; congruence).
  subst resp. cbn [protocol.Symbols protocol.References].
  rewrite (flatten_outline _ _ _ Hnamed).
  exists f, cphs, pkg, l. rewrite Hl.
  repeat split; try first [reflexivity | assumption].
  apply Forall_concat, Forall_map, Forall_forall. intros s _.
  apply outline_entries_package.
Qed.

#[local] Transparent collectPkgMetadata.

Lemma Full_symbols_preorder_witness :
  exists resp,
    value_of (@Full Demo.env Demo.requestFull) = Some (resp, None)
    /\ List.map protocol.dsi_Qname (protocol.Symbols resp)
       = ["main.Foo"; "main.Foo.bar"; "main.Foo.baz"; "main.Qux"]
    /\ List.map (fun entry => protocol.si_ContainerName (protocol.Symbol entry))
                (protocol.Symbols resp)
       = [""; "Foo"; "Foo"; ""]
    /\ exists pkgLocator,
        protocol.Symbols resp
        = List.concat
            (List.map
               (outline_entries "/w/proj/main.go" pkgLocator
                                (protocol.Name pkgLocator) "")
               Demo.outline).
Proof.
  eexists. split; [reflexivity|]. split; [reflexivity|].
  split; [reflexivity|].
  destruct (@Full_symbols_preorder Demo.env Demo.requestFull _
              eq_refl eq_refl eq_refl)
    as (f & cphs & pkg & pkgLocator & _ & _ & _ & _ & Hsyms & _).
  exists pkgLocator. exact Hsyms.
Defined.

(** C5 as stated fails: in the response for an outline with the top-level
    symbols [Foo] (children [bar], [baz]) and [Qux] in package [main], the
    qualified names start with the package name; they are not the names in
    which a top-level symbol is named by its own name alone. *)
Lemma Full_qualified_names_counterexample :
  exists resp,
    value_of (@Full Demo.env Demo.requestFull) = Some (resp, None)
    /\ List.map protocol.dsi_Qname (protocol.Symbols resp)
       = ["main.Foo"; "main.Foo.bar"; "main.Foo.baz"; "main.Qux"]
    /\ List.concat (List.map (bare_qnames None) Demo.outline)
       = ["Foo"; "Foo.bar"; "Foo.baz"; "Qux"]
    /\ List.map protocol.dsi_Qname (protocol.Symbols resp)
       <> List.concat (List.map (bare_qnames None) Demo.outline).
Proof.
  eexists. split; [reflexivity|]. split; [reflexivity|].
  split; [reflexivity|]. discriminate.
Qed.

(** ** The vendor-mode registry *)

Section RegistryFacts.

Context {sys : Platform}.

Lemma indexOf_spec (folder : string) (l : list string) (start : Z) :
  match indexOf folder l start with
  | Some index =>
      exists i : nat,
        index = start + Z.of_nat i
        /\ l !! i = Some folder
        /\ forall j : nat, (j < i)%nat -> l !! j <> Some folder
  | None => folder ∉ l
  end.
Proof.
  revert start; induction l as [|dir l IH]; intros start; cbn [indexOf].
  - apply not_elem_of_nil.
  - destruct (String.eqb folder dir) eqn:E.
    + apply String.eqb_eq in E. subst dir. exists 0%nat.
      split; [lia|]. split; [reflexivity|]. intros j Hj. lia.
    + apply String.eqb_neq in E. specialize (IH (start + 1)).
      destruct (indexOf folder l (start + 1)) as [index|].
      * destruct IH as (i & -> & Hi & Hfirst). exists (S i).
        split; [lia|]. split; [exact Hi|].
        intros [|j] Hj; cbn; [congruence | apply Hfirst; lia].
      * rewrite elem_of_cons. intros [H|H]; [congruence | contradiction].
Qed.

Lemma last_default_lookup (l : list string) (d y : string) :
  l !! (length l - 1)%nat = Some y -> List.last l d = y.
Proof.
  destruct l as [|a l'] using rev_ind; [discriminate|].
  rewrite length_app. cbn [length]. intros H.
  rewrite lookup_app_r in H by lia.
  replace (length l' + 1 - 1 - length l')%nat with 0%nat in H by lia.
  injection H as ->. apply List.last_last.
Qed.

(** Overwriting slot [i] with the last element and dropping the last slot
    removes exactly the element that was at [i]. *)
Lemma swap_remove_Permutation (l : list string) (i : nat) (x last : string) :
  l !! i = Some x ->
  l !! (length l - 1)%nat = Some last ->
  Permutation (x :: take (length l - 1) (<[i := last]> l)) l.
Proof.
  destruct l as [|a l0] using rev_ind; [discriminate|]. clear IHl0.
  rename l0 into l'. rewrite length_app. cbn [length].
  replace (length l' + 1 - 1)%nat with (length l') by lia.
  intros Hi Hlast.
  rewrite lookup_app_r, Nat.sub_diag in Hlast by lia.
  injection Hlast as ->.
  destruct (decide (i < length l')%nat) as [Hlt|Hge].
  - rewrite lookup_app_l in Hi by exact Hlt.
    rewrite insert_app_l by exact Hlt.
    rewrite take_app_length' by (now rewrite length_insert).
    apply list_elem_of_split_length in Hi as (l1 & l2 & -> & ->).
    rewrite insert_app_r_alt, Nat.sub_diag by lia. cbn [insert list_insert].
    rewrite <- !app_assoc. cbn [app].
    rewrite Permutation_middle.
    apply Permutation_app_head.
    change (Permutation ([x; last] ++ l2) (x :: l2 ++ [last])).
    constructor. cbn. apply Permutation_cons_append.
  - assert (i = length l').
    { apply lookup_lt_Some in Hi. rewrite length_app in Hi. cbn in Hi. lia. }
    subst i. rewrite lookup_app_r, Nat.sub_diag in Hi by lia.
    injection Hi as ->.
    rewrite insert_app_r_alt, Nat.sub_diag by lia. cbn [insert list_insert].
    rewrite take_app_length. apply Permutation_cons_append.
Qed.

(** C7. The three operations of the vendor-mode registry: marking appends;
    checking returns the first index of a registered folder, [-1] for a
    folder with a [go.mod] or a dependency manifest, the new last index
    after registering a folder with a [vendor] entry, and [-1] otherwise;
    removing an index in range overwrites it with the last element and
    drops the last slot, which removes exactly that one entry. After
    marking [A], [B], [C] in an empty registry and removing the index of
    [B], the registry holds [A] and [C]. *)
Theorem vendor_registry_operations (w : World) (folder A B C : string)
    (index : Z) :
  let l := folderUnderVendorMode w in
  let has name := os_Stat (fs w) (filepath_Join folder name) in
  storeVendorFolder w folder
  = {| fs := fs w; folderUnderVendorMode := (l ++ [folder])%list |}
  /\ (folder ∈ l ->
      exists i : nat,
        checkVendorFolder w folder = (w, Z.of_nat i)
        /\ l !! i = Some folder
        /\ forall j : nat, (j < i)%nat -> l !! j <> Some folder)
  /\ (folder ∉ l ->
      checkVendorFolder w folder
      = if has "go.mod" || existsb has DependencyControlSystem
        then (w, -1)
        else if has "vendor"
             then (storeVendorFolder w folder, Z.of_nat (length l))
             else (w, -1))
  /\ (0 <= index < Z.of_nat (length l) ->
      exists x last,
        l !! Z.to_nat index = Some x
        /\ List.last l x = last
        /\ clearVendorFolder w index
           = {| fs := fs w;
                folderUnderVendorMode :=
                  take (length l - 1) (<[Z.to_nat index := last]> l) |}
        /\ Permutation (x :: folderUnderVendorMode (clearVendorFolder w index))
                       l)
  /\ (index < 0 \/ Z.of_nat (length l) <= index ->
      clearVendorFolder w index = w)
  /\ (let w0 := {| fs := fs w; folderUnderVendorMode := [] |} in
      let w3 :=
        storeVendorFolder (storeVendorFolder (storeVendorFolder w0 A) B) C in
      let '(w4, indexB) := checkVendorFolder w3 B in
      Permutation (folderUnderVendorMode (clearVendorFolder w4 indexB))
                  [A; C]).
Proof.
  intros l has. split; [reflexivity|].
  split; [|split; [|split; [|split]]].
  - intros Hin. unfold checkVendorFolder. fold l.
    pose proof (indexOf_spec folder l 0) as Hspec.
    destruct (indexOf folder l 0) as [i0|]; [|contradiction].
    destruct Hspec as (i & -> & Hi & Hfirst). exists i.
    split; [f_equal; lia|]. now split.
  - intros Hnotin. unfold checkVendorFolder. fold l.
    pose proof (indexOf_spec folder l 0) as Hspec.
    destruct (indexOf folder l 0) as [i0|].
    + destruct Hspec as (i & _ & Hi & _).
      apply list_elem_of_lookup_2 in Hi. contradiction.
    + fold (has "go.mod"). fold (has "vendor").
      change (existsb _ DependencyControlSystem)
        with (existsb has DependencyControlSystem).
      destruct (has "go.mod"); [reflexivity|]. cbn [orb].
      destruct (existsb has DependencyControlSystem); [reflexivity|].
      destruct (has "vendor"); [|reflexivity].
      f_equal. subst l. cbn. rewrite length_app. cbn. lia.
  - intros Hrange. unfold clearVendorFolder. fold l.
    destruct (index <? 0) eqn:E1; [apply Z.ltb_lt in E1; lia|].
    destruct (Z.of_nat (length l) <=? index) eqn:E2;
      [apply Z.leb_le in E2; lia|].
    cbn [orb].
    replace (Z.to_nat (Z.of_nat (length l) - 1)) with (length l - 1)%nat
      by lia.
    destruct (lookup_lt_is_Some_2 l (Z.to_nat index)) as [x Hx]; [lia|].
    destruct (lookup_lt_is_Some_2 l (length l - 1)) as [y Hy]; [lia|].
    rewrite Hy. exists x, y. split; [exact Hx|].
    split.
    { now apply last_default_lookup. }
    split; [reflexivity|].
    cbn [folderUnderVendorMode]. now apply swap_remove_Permutation.
  - intros Hout. unfold clearVendorFolder. fold l.
    destruct (index <? 0) eqn:E1; [reflexivity|].
    destruct (Z.of_nat (length l) <=? index) eqn:E2; [reflexivity|].
    apply Z.ltb_ge in E1. apply Z.leb_gt in E2. lia.
  - cbn zeta. unfold checkVendorFolder, storeVendorFolder.
    cbn [folderUnderVendorMode app indexOf].
    destruct (String.eqb B A) eqn:E.
    + apply String.eqb_eq in E. subst B. cbn. apply perm_swap.
    + rewrite String.eqb_refl. cbn. reflexivity.
Qed.

End RegistryFacts.

Lemma vendor_registry_operations_witness :
  ("/w/a" ∉ folderUnderVendorMode Demo.vendorWorld)
  /\ @checkVendorFolder Demo.platform Demo.vendorWorld "/w/a"
     = (storeVendorFolder Demo.vendorWorld "/w/a", 1).
Proof.
  assert (Hnotin : "/w/a" ∉ folderUnderVendorMode Demo.vendorWorld)
    by (rewrite list_elem_of_In; cbn; intros [H|[]]; discriminate).
  split; [exact Hnotin|].
  destruct (@vendor_registry_operations Demo.platform Demo.vendorWorld
              "/w/a" "A" "B" "C" 0) as (_ & _ & Hcheck & _).
  rewrite (Hcheck Hnotin). vm_compute. reflexivity.
Defined.

(** ** Module-boundary files and their cleanup *)

Section CleanupFacts.

Context {sys : Platform}.

(** [ManageDeps] never assigns to the server: when it returns, the cleanup
    list in particular is what it was. *)
Lemma ManageDeps_server_unchanged (s : ElasticServer) (w : World)
    (folders : list WorkspaceFolder)
    (options : option (gmap string OptionValue)) :
  match ManageDeps s w folders options with
  | Some (s', _, _) => s' = s
  | None => True
  end.
Proof.
  unfold ManageDeps, ManageDeps_local.
  destruct (fold_left _ folders _) as [[[depsMgr fs1] folders']|];
    [reflexivity | exact I].
Qed.

(** With the install flag off, [goModInit] records the folder in the
    cleanup list of the manager. *)
Lemma goModInit_records (depsMgr : DepsManager) (fs0 : FileSystem)
    (folder : string) :
  installGoDeps depsMgr = false ->
  dm_FolderNeedsCleanup (goModInit depsMgr fs0 folder).1.1
  = (dm_FolderNeedsCleanup depsMgr ++ [folder])%list.
Proof.
  intros Hflag. unfold goModInit. rewrite Hflag.
  destruct (constructGoModManually _ _ _). reflexivity.
Qed.

Lemma os_Remove_remove_fails (fs0 : FileSystem) (path : string) :
  remove_fails (os_Remove fs0 path) = remove_fails fs0.
Proof. unfold os_Remove. now case_bool_decide. Qed.

Lemma os_Remove_gone (fs0 : FileSystem) (path : string) :
  path ∉ remove_fails fs0 -> os_Stat (os_Remove fs0 path) path = false.
Proof.
  intros H. unfold os_Stat, os_Remove.
  rewrite (bool_decide_eq_false_2 (path ∈ remove_fails fs0)) by exact H.
  cbn. rewrite lookup_delete_eq. apply bool_decide_eq_false_2.
  intros [x Hx]. discriminate.
Qed.

Lemma os_Remove_absent (fs0 : FileSystem) (path other : string) :
  os_Stat fs0 other = false -> os_Stat (os_Remove fs0 path) other = false.
Proof.
  unfold os_Stat, os_Remove. rewrite !bool_decide_eq_false.
  intros H. case_bool_decide; [exact H|]. cbn.
  intros [x Hx]. apply lookup_delete_Some in Hx as [_ Hx]. apply H. eauto.
Qed.

Lemma cleanup_folder_remove_fails (fs1 : FileSystem) (folder : string) :
  remove_fails (cleanup_folder fs1 folder) = remove_fails fs1.
Proof.
  unfold cleanup_folder.
  repeat (destruct (os_Stat _ _); rewrite ?os_Remove_remove_fails);
    reflexivity.
Qed.

Lemma cleanup_folder_absent (fs1 : FileSystem) (folder other : string) :
  os_Stat fs1 other = false ->
  os_Stat (cleanup_folder fs1 folder) other = false.
Proof.
  intros H. unfold cleanup_folder.
  repeat (destruct (os_Stat _ (filepath_Join _ _)));
    repeat apply os_Remove_absent; exact H.
Qed.

Lemma cleanup_folder_gone (fs1 : FileSystem) (folder : string) :
  filepath_Join folder "go.mod" ∉ remove_fails fs1 ->
  os_Stat (cleanup_folder fs1 folder) (filepath_Join folder "go.mod") = false.
Proof.
  intros H. unfold cleanup_folder.
  assert (E : os_Stat (if os_Stat fs1 (filepath_Join folder "go.mod")
                       then os_Remove fs1 (filepath_Join folder "go.mod")
                       else fs1) (filepath_Join folder "go.mod") = false).
  { destruct (os_Stat fs1 (filepath_Join folder "go.mod")) eqn:E;
      [now apply os_Remove_gone | exact E]. }
  destruct (os_Stat _ (filepath_Join folder "go.sum"));
    [now apply os_Remove_absent | exact E].
Qed.

(** For a folder that is in the server's cleanup list, [Cleanup] deletes
    the [go.mod], unless its removal fails. *)
Lemma Cleanup_deletes_recorded (s : ElasticServer) (fs0 : FileSystem)
    (folder : string) :
  folder ∈ FolderNeedsCleanup s ->
  filepath_Join folder "go.mod" ∉ remove_fails fs0 ->
  os_Stat (Cleanup s fs0) (filepath_Join folder "go.mod") = false.
Proof.
  unfold Cleanup. generalize (FolderNeedsCleanup s). intros l.
  revert fs0. induction l as [|dir l IH]; intros fs0 Hin Hremovable.
  - now apply not_elem_of_nil in Hin.
  - cbn [fold_left]. apply elem_of_cons in Hin as [<- | Hin].
    + assert (E := cleanup_folder_gone fs0 folder Hremovable). revert E.
      generalize (cleanup_folder fs0 folder). clear. revert l.
      intros l. induction l as [|dir l IH]; intros fs1 E; [exact E|].
      cbn [fold_left]. apply IH. now apply cleanup_folder_absent.
    + apply IH; [exact Hin|]. now rewrite cleanup_folder_remove_fails.
Qed.

End CleanupFacts.

(** C6 fails on the code. [goModInit] records the folder in the cleanup
    list of the [DepsManager] that is local to [ManageDeps], and [ManageDeps]
    never copies that list to the server: the server is returned as it was,
    so with a cleanup list that starts empty [Cleanup] leaves every file in
    place. For the workspace folder ["/w"] that holds [main.go] and no
    [go.mod], with the install flag off, [ManageDeps] writes ["/w/go.mod"],
    the manager's list is [["/w"]], the server's list stays empty, and the
    file is still there after [Cleanup]. *)
Theorem ManageDeps_drops_cleanup_folders :
  (forall (sys : Platform) s w folders options,
      match ManageDeps s w folders options with
      | Some (s', _, _) => s' = s
      | None => True
      end)
  /\ (forall (sys : Platform) s w folders options,
        FolderNeedsCleanup s = [] ->
        match ManageDeps s w folders options with
        | Some (s', w', _) => Cleanup s' (fs w') = fs w'
        | None => True
        end)
  /\ match @ManageDeps_local Demo.platform Demo.server Demo.world Demo.folders
                             None with
     | Some (s', w', _, depsMgr) =>
         os_Stat (fs Demo.world) "/w/go.mod" = false
         /\ entries (fs w') !! "/w/go.mod" = Some (RegularFile "module /w")
         /\ dm_FolderNeedsCleanup depsMgr = ["/w"]
         /\ FolderNeedsCleanup s' = []
         /\ os_Stat (@Cleanup Demo.platform s' (fs w')) "/w/go.mod" = true
     | None => False
     end.
Proof.
  split; [intros; apply ManageDeps_server_unchanged|].
  split.
  - intros sys s w folders options Hempty.
    pose proof (ManageDeps_server_unchanged s w folders options) as Hs.
    destruct (ManageDeps s w folders options) as [[[s' w'] folders']|];
      [|exact I].
    subst s'. unfold Cleanup. now rewrite Hempty.
  - vm_compute. repeat split; reflexivity.
Qed.

(** C1 fails on the code. The comment on the same-view test says that it
    checks whether the definition is in the current view, that is the
    workspace folder, but the test is [strings.HasPrefix] on the two file
    names: whenever the root's file name is a string prefix of the
    declaration's, [EDefinition] answers with the location only, whether
    or not the declaration is inside the root. With the root ["/w/proj"], a
    declaration in ["/w/project2/f.go"] is not inside the root, and the
    answer still has the location and no qualified name, kind or package
    locator. *)
Theorem EDefinition_same_view_crosses_boundary :
  (forall (env : Collaborators) (params : DefinitionParams) (f : File)
          (ident : IdentifierInfo) (declRange : protocol.Range),
      let uri := span_NewURI (dp_URI params) in
      let view := session_ViewOf uri in
      view_GetFile view uri = ok f ->
      source_Identifier view f (dp_Position params) = ok ident ->
      Declaration_Range ident = ok declRange ->
      HasPrefix (Filename (Declaration_URI ident))
                (Filename (view_Folder view)) = true ->
      value_of (EDefinition params)
      = Some (ok [ {| protocol.Qname := "";
                      protocol.Kind := 0;
                      protocol.Loc :=
                        Some {| protocol.URI :=
                                  protocol_NewURI (Declaration_URI ident);
                                protocol.Range_ := declRange |};
                      protocol.Package_ := protocol.PackageLocator_zero |} ]))
  /\ HasPrefix "/w/project2/f.go" "/w/proj" = true
  /\ inside_root "/w/proj" "/w/project2/f.go" = false
  /\ value_of (@EDefinition Demo.env Demo.requestMain)
     = Some (ok [Demo.locatorMain])
  /\ ~ @shape_by_containment Demo.env.
Proof.
  split.
  { intros env params f ident declRange uri view Hf Hid Hrange Hprefix.
    subst view uri. unfold EDefinition. cbn. rewrite Hf. cbn.
    rewrite Hid. cbn. rewrite Hrange, Hprefix. reflexivity. }
  split; [reflexivity|]. split; [reflexivity|]. split; [reflexivity|].
  intros H.
  specialize (H Demo.requestMain "/w/proj/main.go" _ Demo.locatorMain
                eq_refl eq_refl eq_refl).
  cbn in H. discriminate H.
Qed.


(** * Further properties of the code *)

(** ** Where a resolved version comes from *)

Lemma SplitAfter_hd_prefix (s : string) (c : ascii) :
  exists r, s = List.hd EmptyString (SplitAfter s c) ++ r.
Proof.
  induction s as [|x s [r IH]]; [now exists ""|].
  cbn [SplitAfter]. destruct (Ascii.eqb x c).
  - now exists s.
  - pose proof (SplitAfter_nonempty s c) as Hne.
    destruct (SplitAfter s c) as [|p ps]; [congruence|].
    cbn [List.hd] in *. exists r. simpl. now rewrite <- IH.
Qed.

Lemma Split_hd_prefix (s : string) (c : ascii) :
  exists r, s = List.hd EmptyString (Split s c) ++ r.
Proof.
  induction s as [|x s [r IH]]; [now exists ""|].
  cbn [Split]. destruct (Ascii.eqb x c).
  - now exists (String x s).
  - pose proof (Split_nonempty s c) as Hne.
    destruct (Split s c) as [|p ps]; [congruence|].
    cbn [List.hd] in *. exists r. simpl. now rewrite <- IH.
Qed.

(** Every piece of [SplitAfter] but the first follows an ['@'] of the
    string. *)
Lemma SplitAfter_tl_occurs (s p : string) :
  In p (List.tl (SplitAfter s "@")) -> exists a b, s = a ++ "@" ++ p ++ b.
Proof.
  induction s as [|c s IH]; [intros []|].
  rewrite tl_SplitAfter_cons. destruct (Ascii.eqb c "@") eqn:E.
  - apply Ascii.eqb_eq in E. subst c. intros Hin.
    pose proof (SplitAfter_nonempty s "@") as Hne.
    pose proof (SplitAfter_hd_prefix s "@") as [r Hr].
    destruct (SplitAfter s "@") as [|q qs]; [congruence|].
    cbn [List.hd List.tl] in *. destruct Hin as [-> | Hin].
    + exists "", r. simpl. now rewrite <- Hr.
    + destruct (IH Hin) as [a [b ->]]. now exists (String "@" a), b.
  - intros Hin. destruct (IH Hin) as [a [b ->]]. now exists (String c a), b.
Qed.

Lemma TrimPrefix_suffix (s prefix : string) :
  exists pre, s = pre ++ TrimPrefix s prefix.
Proof.
  unfold TrimPrefix. destruct (HasPrefix s prefix) eqn:E; [|now exists ""].
  apply HasPrefix_iff in E as [t ->]. exists prefix.
  now rewrite drop_bytes_append.
Qed.

Section VersionProvenance.

Context {env : Collaborators}.

(** A valid segment that the fast path collected stands in the path right
    after an ['@']. *)
Lemma valid_segment_occurs (loc v : string) :
  In v (List.filter semver_IsValid
          (List.map piece_segment (List.tl (SplitAfter loc "@")))) ->
  semver_IsValid v = true /\ exists a b, loc = a ++ "@" ++ v ++ b.
Proof.
  intros [Hin Hvalid]%List.filter_In. split; [exact Hvalid|].
  apply List.in_map_iff in Hin as [p [Hp Hin]].
  destruct (SplitAfter_tl_occurs _ _ Hin) as [a [b ->]].
  destruct (Split_hd_prefix p Separator) as [r Hr].
  unfold piece_segment in Hp. rewrite Hp in Hr.
  exists a, (r ++ b). rewrite Hr at 1. now rewrite !append_assoc.
Qed.

(** X1. What the fast path returns, when it is not empty, is a valid
    semantic version that stands in the path right after an ['@']. *)
Theorem getPkgVersionFast_sound (loc v : string) :
  getPkgVersionFast loc = v ->
  v <> "" ->
  semver_IsValid v = true /\ exists a b, loc = a ++ "@" ++ v ++ b.
Proof.
  rewrite getPkgVersionFast_filter. intros Hv Hne.
  destruct (List.filter semver_IsValid _) as [|x [|y l]] eqn:E;
    [congruence | | congruence].
  subst x. apply valid_segment_occurs. rewrite E. now left.
Qed.

(** X2. The package locator never panics. For a nil package it is empty;
    otherwise it carries the name of the package, as repository the import
    path or the root the lookup gave for it, and as version either nothing
    or the normalized form of a valid semantic version that stands in the
    file name after an ['@']. *)
Theorem collectPkgMetadata_locator (pkg : option types.Package)
    (dir loc : string) :
  exists locator,
    value_of (collectPkgMetadata pkg dir loc) = Some locator
    /\ match pkg with
       | None => locator = protocol.PackageLocator_zero
       | Some p =>
           protocol.Name locator = types.pkg_Name p
           /\ (protocol.RepoURI locator = types.pkg_Path p
               \/ vcs_RepoRootForImportPath (types.pkg_Path p)
                  = ok (protocol.RepoURI locator))
           /\ (protocol.Version locator = ""
               \/ exists rev a b,
                    semver_IsValid rev = true
                    /\ loc = a ++ "@" ++ rev ++ b
                    /\ normalizeRev rev = Some (protocol.Version locator))
       end.
Proof.
  destruct pkg as [p|]; [|now eexists].
  unfold collectPkgMetadata.
  destruct (HasPrefix loc dir || HasPrefix loc goRoot).
  { eexists. split; [reflexivity|]. cbn. auto. }
  unfold getPkgVersion.
  set (rev := getPkgVersionFast (TrimPrefix loc (filepath_Join pkgMod dir))).
  destruct (String.eqb rev "") eqn:Erev; cbn [andb].
  - cbn. destruct (vcs_RepoRootForImportPath (types.pkg_Path p)) eqn:Erepo;
      cbn; eexists; (split; [reflexivity|]); cbn; auto.
  - apply String.eqb_neq in Erev.
    assert (Hfast : semver_IsValid rev = true
                    /\ exists a b,
                        TrimPrefix loc (filepath_Join pkgMod dir)
                        = a ++ "@" ++ rev ++ b).
    { subst rev. revert Erev. rewrite getPkgVersionFast_filter.
      destruct (List.filter semver_IsValid _) as [|x [|y l]] eqn:E;
        [congruence | | congruence].
      intros _. apply valid_segment_occurs. rewrite E. now left. }
    destruct Hfast as [Hvalid [a [b Hocc]]].
    destruct (TrimPrefix_suffix loc (filepath_Join pkgMod dir)) as [pre Hpre].
    destruct (normalizeRev_total rev) as [r Hr]. rewrite Hr. cbn.
    assert (Hversion : exists rev a b,
               semver_IsValid rev = true
               /\ loc = a ++ "@" ++ rev ++ b
               /\ normalizeRev rev = Some r).
    { exists rev, (pre ++ a), b. split; [exact Hvalid|]. split; [|exact Hr].
      rewrite Hpre at 1. rewrite Hocc. now rewrite !append_assoc. }
    destruct (vcs_RepoRootForImportPath (types.pkg_Path p)) eqn:Erepo;
      cbn; eexists; (split; [reflexivity|]); cbn; auto.
Qed.

End VersionProvenance.

Lemma getPkgVersionFast_sound_witness :
  @semver_IsValid Demo.env "v1.2.3" = true
  /\ exists a b, "/github.com/x/y@v1.2.3/z.go" = a ++ "@" ++ "v1.2.3" ++ b.
Proof.
  apply (@getPkgVersionFast_sound Demo.env "/github.com/x/y@v1.2.3/z.go"
           "v1.2.3").
  - reflexivity.
  - discriminate.
Defined.

(** ** Qualified names: panics and the shape of the result *)

Lemma qnameStep_safe (n : ast.Node) (parent : option ast.Node)
    (qname : string) :
  qnameStep n parent qname = None
  <-> safe_node n (match parent with None => false | Some _ => true end)
      = false.
Proof.
  destruct n as [| | | | |recv|]; cbn;
    try (split; discriminate).
  - destruct parent as [[| | |[|]|[|]| |]|]; cbn; split;
      (discriminate || reflexivity).
  - destruct parent as [[]|]; cbn; split; (discriminate || reflexivity).
  - destruct recv as [[|[name|x|] fields]|]; cbn;
      try (split; (discriminate || reflexivity)).
    destruct x; cbn; split; (discriminate || reflexivity).
Qed.

Lemma qnameWalk_panics_iff (rest : list ast.Node) (qname : string) :
  qnameWalk rest qname = None <-> safe_path rest = false.
Proof.
  revert qname; induction rest as [|n rest IH]; intros qname; cbn.
  - split; discriminate.
  - rewrite andb_false_iff.
    pose proof (qnameStep_safe n (head rest) qname) as Hstep.
    assert (Hparent :
              match head rest with None => false | Some _ => true end
              = match rest with [] => false | _ :: _ => true end)
      by now destruct rest.
    rewrite Hparent in Hstep.
    destruct (qnameStep n (head rest) qname) as [qname'|].
    + rewrite IH. split; [now right|].
      intros [H|H]; [|exact H]. apply Hstep in H. discriminate.
    + split; [intros _; left; now apply Hstep | reflexivity].
Qed.

Lemma qnameStep_suffix (n : ast.Node) (parent : option ast.Node)
    (qname qname' : string) :
  qnameStep n parent qname = Some qname' -> exists m, qname' = m ++ qname.
Proof.
  assert (Hsame : Some qname = Some qname' -> exists m, qname' = m ++ qname)
    by (intros [= <-]; now exists "").
  assert (Hdot : forall name, Some (name ++ "." ++ qname) = Some qname' ->
                              exists m, qname' = m ++ qname).
  { intros name [= <-]. exists (name ++ "."). now rewrite append_assoc. }
  destruct n as [| | | | |recv|]; cbn; try exact Hsame.
  - destruct parent as [[| |name|[|first names]|[|first names]| |]|]; cbn;
      try exact Hsame; try apply Hdot. discriminate.
  - destruct parent as [[| |name| | | |]|]; cbn;
      try exact Hsame; try apply Hdot. discriminate.
  - destruct recv as [[|[name|x|] fields]|]; cbn;
      try exact Hsame; try apply Hdot; try discriminate.
    + destruct x; try discriminate. apply Hdot.
    + apply (Hdot "").
Qed.

Lemma qnameWalk_suffix (rest : list ast.Node) (qname qname' : string) :
  qnameWalk rest qname = Some qname' -> exists m, qname' = m ++ qname.
Proof.
  revert qname; induction rest as [|n rest IH]; intros qname; cbn.
  - intros [= <-]. now exists "".
  - destruct (qnameStep n (head rest) qname) as [q1|] eqn:E; [|discriminate].
    intros H. apply IH in H as [m2 ->].
    apply qnameStep_suffix in E as [m1 ->].
    exists (m2 ++ m1). now rewrite append_assoc.
Qed.

Section QualifiedNameFacts.

Context {env : Collaborators}.

(** X3. With the file parsed, [getQName] panics exactly when the enclosing
    path is empty or holds, after its first node, a node that is not safe: a
    struct or interface type that is the last node of the path, a receiver
    list without fields, or a star receiver whose operand is not an
    identifier. *)
Theorem getQName_panics_iff (view : View) (f : File)
    (declObj : types.Object) (kind : protocol.SymbolKind) (fAST : AstFile) :
  (kind =? protocol.Package) = false ->
  view_Parse view f = ok fAST ->
  let astPath :=
    astutil_PathEnclosingInterval fAST (types.obj_Pos declObj)
                                  (types.obj_Pos declObj) in
  value_of (getQName view f declObj kind) = None
  <-> astPath = [] \/ safe_path (List.tl astPath) = false.
Proof.
  intros Hkind Hparse astPath. unfold getQName. rewrite Hkind. cbn.
  rewrite Hparse. cbn. fold astPath.
  destruct astPath as [|n0 rest]; cbn.
  - split; [now left | reflexivity].
  - rewrite <- (qnameWalk_panics_iff rest (types.obj_Name declObj)).
    destruct (qnameWalk rest (types.obj_Name declObj)) as [q|]; cbn.
    + destruct (types.obj_Pkg declObj); cbn; split;
        (discriminate || intros [H|H]; discriminate).
    + split; [now right | reflexivity].
Qed.

(** X4. With the file parsed, a qualified name that [getQName] returns for
    a declaration that is not a package name starts with the name of the
    package and a dot (if the declaration has a package) and ends with the
    name of the declaration. *)
Theorem getQName_keeps_name (view : View) (f : File)
    (declObj : types.Object) (kind : protocol.SymbolKind) (fAST : AstFile)
    (qname : string) :
  (kind =? protocol.Package) = false ->
  view_Parse view f = ok fAST ->
  value_of (getQName view f declObj kind) = Some qname ->
  exists middle,
    qname = match types.obj_Pkg declObj with
            | Some pkg => types.pkg_Name pkg ++ "."
            | None => ""
            end ++ middle ++ types.obj_Name declObj.
Proof.
  intros Hkind Hparse. unfold getQName. rewrite Hkind. cbn.
  rewrite Hparse. cbn.
  destruct (astutil_PathEnclosingInterval fAST _ _) as [|n0 rest]; cbn;
    [discriminate|].
  destruct (qnameWalk rest (types.obj_Name declObj)) as [q|] eqn:E; cbn;
    [|discriminate].
  apply qnameWalk_suffix in E as [m ->]. exists m.
  destruct (types.obj_Pkg declObj); cbn in *; injection H as <-.
  - now rewrite append_assoc.
  - reflexivity.
Qed.

End QualifiedNameFacts.

Lemma getQName_panics_iff_witness :
  value_of (@getQName Demo.env "/w/proj" Demo.modFile Demo.objectX
              protocol.Field) = None
  <-> Demo.pathOfX = [] \/ safe_path (List.tl Demo.pathOfX) = false.
Proof.
  exact (@getQName_panics_iff Demo.env "/w/proj" Demo.modFile Demo.objectX
           protocol.Field Demo.pathOfX eq_refl eq_refl).
Defined.

Lemma getQName_keeps_name_witness :
  exists middle, "y.T.a.x" = "y." ++ middle ++ "x".
Proof.
  exact (@getQName_keeps_name Demo.env "/w/proj" Demo.modFile Demo.objectX
           protocol.Field Demo.pathOfX "y.T.a.x" eq_refl eq_refl eq_refl).
Defined.

(** ** The handlers: failures and what they leave in the response *)

Section HandlerFacts.

Context {env : Collaborators}.

Lemma collectPkgMetadata_returns (pkg : option types.Package)
    (dir loc : string) :
  is_Some (value_of (collectPkgMetadata pkg dir loc)).
Proof.
  unfold collectPkgMetadata. destruct pkg as [p|]; [|cbn; eauto].
  destruct (HasPrefix loc dir || HasPrefix loc goRoot); [cbn; eauto|].
  destruct (getPkgVersion_total dir
              {| protocol.Version := "";
                 protocol.Name := types.pkg_Name p;
                 protocol.RepoURI := types.pkg_Path p |} loc) as [l ->].
  cbn. destruct (vcs_RepoRootForImportPath _); cbn; eauto.
Qed.

(** The package locator does not call the parser. *)
Lemma collectPkgMetadata_calls (pkg : option types.Package)
    (dir loc : string) :
  CallParse ∉ calls_of (collectPkgMetadata pkg dir loc).
Proof.
  unfold collectPkgMetadata. destruct pkg as [p|].
  2:{ cbn. rewrite !elem_of_cons. intros [[=] | Hin].
      now apply not_elem_of_nil in Hin. }
  destruct (HasPrefix loc dir || HasPrefix loc goRoot).
  { cbn. rewrite !elem_of_cons. intros [[=] | Hin].
    now apply not_elem_of_nil in Hin. }
  destruct (getPkgVersion_total dir
              {| protocol.Version := "";
                 protocol.Name := types.pkg_Name p;
                 protocol.RepoURI := types.pkg_Path p |} loc) as [l ->].
  cbn. destruct (vcs_RepoRootForImportPath _); cbn;
    rewrite !elem_of_cons; intros [[=] | [[=] | Hin]];
    now apply not_elem_of_nil in Hin.
Qed.

#[local] Opaque collectPkgMetadata.

(** X5. A cross-view request for a declaration of a mapped kind, whose file
    the view gets but cannot parse, still succeeds: the locator has the
    kind and the package locator and no location. Its qualified name is
    empty, except for a package name, whose qualified name is the name
    itself: for it no parse is attempted. *)
Theorem EDefinition_unparsed_declaration (params : DefinitionParams)
    (f : File) (ident : IdentifierInfo) (declRange : protocol.Range)
    (declFile : File) (e : error) :
  let uri := span_NewURI (dp_URI params) in
  let view := session_ViewOf uri in
  let kind := getSymbolKind (GetDeclObject ident) in
  view_GetFile view uri = ok f ->
  source_Identifier view f (dp_Position params) = ok ident ->
  Declaration_Range ident = ok declRange ->
  HasPrefix (Filename (Declaration_URI ident))
            (Filename (view_Folder view)) = false ->
  view_GetFile view (Declaration_URI ident) = ok declFile ->
  (kind =? 0) = false ->
  view_Parse view declFile = err e ->
  exists pkgLocator,
    value_of (collectPkgMetadata (types.obj_Pkg (GetDeclObject ident))
                (Filename (view_Folder view))
                (Filename (Declaration_URI ident)))
    = Some pkgLocator
    /\ value_of (EDefinition params)
       = Some (ok [ {| protocol.Qname :=
                         if kind =? protocol.Package
                         then types.obj_Name (GetDeclObject ident)
                         else "";
                       protocol.Kind := kind;
                       protocol.Loc := None;
                       protocol.Package_ := pkgLocator |} ])
    /\ ((kind =? protocol.Package) = true ->
        CallParse ∉ calls_of (EDefinition params)).
Proof.
  intros uri view kind Hf Hid Hrange Hprefix Hdecl Hkind Hparse.
  subst kind view uri. unfold EDefinition.
  cbn. rewrite Hf. cbn. rewrite Hid. cbn. rewrite Hrange, Hprefix. cbn.
  rewrite Hdecl. cbn. rewrite Hkind.
  destruct (collectPkgMetadata_returns
              (types.obj_Pkg (GetDeclObject ident))
              (Filename (view_Folder
                           (session_ViewOf (span_NewURI (dp_URI params)))))
              (Filename (Declaration_URI ident))) as [l Hl].
  exists l. split; [exact Hl|].
  pose proof (collectPkgMetadata_calls
                (types.obj_Pkg (GetDeclObject ident))
                (Filename (view_Folder
                             (session_ViewOf (span_NewURI (dp_URI params)))))
                (Filename (Declaration_URI ident))) as Hcalls.
  unfold getQName.
  destruct (getSymbolKind (GetDeclObject ident) =? protocol.Package); cbn.
  - destruct (collectPkgMetadata _ _ _) as [[l'|] t]; cbn in *;
      [|discriminate].
    split; [congruence|]. intros _.
    rewrite !elem_of_cons, elem_of_app. cbn in Hcalls.
    intros [[=] | [[=] | [[=] | [[=] | [[=] | [[=] | [[=] | [? | Hin]]]]]]]];
      [contradiction | now apply not_elem_of_nil in Hin].
  - rewrite Hparse. cbn.
    destruct (collectPkgMetadata _ _ _) as [[l'|] t]; cbn in *;
      [|discriminate].
    split; [congruence | discriminate].
Qed.

(** X6. [Full] never panics, always answers with an empty reference list,
    and when it returns an error the symbol list is empty: no partial outline
    is returned. *)
Theorem Full_response_on_error (fullParams : FullParams) :
  exists resp e,
    value_of (Full fullParams) = Some (resp, e)
    /\ protocol.References resp = []
    /\ (e <> None -> protocol.Symbols resp = []).
Proof.
  unfold Full.
  destruct (Contains _ folderSkip); [cbn; eexists _, _; eauto|].
  cbn. destruct (view_GetFile _ _) as [f|e]; cbn; [|eexists _, _; eauto].
  destruct (view_CheckPackageHandles _ f) as [cphs|e]; cbn;
    [|eexists _, _; eauto].
  destruct (cph_Check _) as [pkg|e]; cbn; [|eexists _, _; eauto].
  destruct (collectPkgMetadata_returns (pkg_GetTypes pkg)
              (Filename (view_Folder
                           (session_ViewOf
                              (span_NewURI (fp_URI fullParams)))))
              (Filename (file_URI f))) as [l Hl].
  destruct (collectPkgMetadata _ _ _) as [[l'|] t]; cbn in *;
    [|discriminate].
  destruct (Server_DocumentSymbol (fp_URI fullParams)) as [docSyms [e|]];
    cbn; [eexists _, _; eauto|].
  destruct (fp_Reference fullParams); cbn; eexists _, _;
    (split; [reflexivity|]); split; [reflexivity | congruence |
                                     reflexivity | congruence].
Qed.

(** X7. The [Reference] flag of the request has no effect on what [Full]
    does or returns. *)
Theorem Full_ignores_Reference (uri : string) (b1 b2 : bool) :
  Full {| fp_URI := uri; fp_Reference := b1 |}
  = Full {| fp_URI := uri; fp_Reference := b2 |}.
Proof.
  unfold Full. cbn [fp_URI fp_Reference].
  destruct (Contains _ folderSkip); [reflexivity|].
  cbn. destruct (view_GetFile _ _) as [f|e]; cbn; [|reflexivity].
  destruct (view_CheckPackageHandles _ f) as [cphs|e]; cbn; [|reflexivity].
  destruct (cph_Check _) as [pkg|e]; cbn; [|reflexivity].
  destruct (collectPkgMetadata _ _ _) as [[l|] t]; cbn; [|reflexivity].
  destruct (Server_DocumentSymbol uri) as [docSyms [e|]]; cbn;
    [reflexivity|].
  now destruct b1, b2.
Qed.

#[local] Transparent collectPkgMetadata.

End HandlerFacts.

Lemma EDefinition_unparsed_declaration_witness :
  exists pkgLocator,
    value_of (@collectPkgMetadata DemoUnparsed.env (Some Demo.pkgY)
                "/w/proj" Demo.modFile)
    = Some pkgLocator
    /\ value_of (@EDefinition DemoUnparsed.env Demo.requestA)
       = Some (ok [ {| protocol.Qname := "";
                       protocol.Kind := protocol.Field;
                       protocol.Loc := None;
                       protocol.Package_ := pkgLocator |} ]).
Proof.
  destruct (@EDefinition_unparsed_declaration DemoUnparsed.env Demo.requestA
              "/w/proj/a.go" _ Demo.zeroRange Demo.modFile "no syntax tree"
              eq_refl eq_refl eq_refl eq_refl eq_refl eq_refl eq_refl)
    as (pkgLocator & Hlocator & Hresult & _).
  exists pkgLocator. split; [exact Hlocator | exact Hresult].
Defined.

Lemma Full_response_on_error_witness :
  exists resp e,
    value_of (@Full DemoUnparsed.env Demo.requestFull) = Some (resp, e)
    /\ protocol.References resp = []
    /\ protocol.Symbols resp = [].
Proof.
  destruct (@Full_response_on_error DemoUnparsed.env Demo.requestFull)
    as (resp & e & Hvalue & Hrefs & Hsyms).
  exists resp, e. split; [exact Hvalue|]. split; [exact Hrefs|].
  apply Hsyms. vm_compute in Hvalue. injection Hvalue as _ <-. discriminate.
Defined.

(** ** The flattened outline, for any outline *)

Section FlattenShape.

Variable uri : string.
Variable pkgLocator : protocol.PackageLocator.

(** What every entry appended by the flattening carries. *)
Local Abbreviation appended tail :=
  (Forall (fun entry =>
             protocol.dsi_Package entry = pkgLocator
             /\ protocol.URI (protocol.si_Location (protocol.Symbol entry))
                = uri) tail).

Lemma flatten_shape_list (symbols : list protocol.DocumentSymbol) :
  Forall (fun symbol =>
            forall prefix container detailSyms,
            exists tail,
              flattenSymbol uri pkgLocator symbol prefix container detailSyms
              = (detailSyms ++ tail)%list
              /\ appended tail
              /\ List.map entry_names tail = outline_names container symbol)
         symbols ->
  forall prefix container detailSyms,
  exists tail,
    flattenDocumentSymbol uri pkgLocator symbols prefix container detailSyms
    = (detailSyms ++ tail)%list
    /\ appended tail
    /\ List.map entry_names tail
       = List.concat (List.map (outline_names container) symbols).
Proof.
  induction 1 as [|s l Hs _ IH]; intros prefix container detailSyms.
  - exists []. cbn. rewrite app_nil_r. repeat split. constructor.
  - cbn [flattenDocumentSymbol List.map List.concat].
    destruct (Hs prefix container detailSyms) as (t1 & -> & Ha1 & Hn1).
    destruct (IH prefix container (detailSyms ++ t1)%list)
      as (t2 & -> & Ha2 & Hn2).
    exists (t1 ++ t2)%list. rewrite <- app_assoc. split; [reflexivity|].
    split; [now apply Forall_app|].
    now rewrite List.map_app, Hn1, Hn2.
Qed.

Lemma flatten_shape_symbol (symbol : protocol.DocumentSymbol) :
  forall prefix container detailSyms,
  exists tail,
    flattenSymbol uri pkgLocator symbol prefix container detailSyms
    = (detailSyms ++ tail)%list
    /\ appended tail
    /\ List.map entry_names tail = outline_names container symbol.
Proof.
  induction symbol as [name kind deprecated selectionRange children IH]
    using DocumentSymbol_children_ind.
  intros prefix container detailSyms.
  rewrite flattenSymbol_children. cbn zeta.
  set (q := if negb (String.eqb prefix "") then _ else _).
  destruct (flatten_shape_list children IH q name
              (detailSyms ++
               [ {| protocol.Symbol :=
                      {| protocol.si_Name := name;
                         protocol.si_Kind := kind;
                         protocol.si_Deprecated := deprecated;
                         protocol.si_ContainerName := container;
                         protocol.si_Location :=
                           {| protocol.URI := uri;
                              protocol.Range_ := selectionRange |} |};
                    protocol.dsi_Qname := protocol.Name pkgLocator ++ "." ++ q;
                    protocol.dsi_Package := pkgLocator |} ])%list)
    as (t & -> & Ha & Hn).
  eexists (_ :: t). rewrite <- app_assoc. split; [reflexivity|].
  split; [constructor; [now split | exact Ha]|].
  cbn [List.map outline_names]. now rewrite Hn.
Qed.

(** X8. For any outline, the flattening keeps the entries it is given and
    appends one entry per symbol, in pre-order, each with the name of the
    symbol, the name of its parent as container, the URI of the request and
    the shared package locator. *)
Theorem flatten_appends_preorder (symbols : list protocol.DocumentSymbol)
    (prefix container : string)
    (detailSyms : list protocol.DetailSymbolInformation) :
  exists tail,
    flattenDocumentSymbol uri pkgLocator symbols prefix container detailSyms
    = (detailSyms ++ tail)%list
    /\ Forall (fun entry =>
                 protocol.dsi_Package entry = pkgLocator
                 /\ protocol.URI
                      (protocol.si_Location (protocol.Symbol entry)) = uri)
              tail
    /\ List.map entry_names tail
       = List.concat (List.map (outline_names container) symbols).
Proof.
  apply flatten_shape_list. apply Forall_forall. intros s _.
  apply flatten_shape_symbol.
Qed.

End FlattenShape.

(** ** The vendor-mode registry: how its operations compose *)

Section RegistryComposition.

Context {sys : Platform}.

(** The three outcomes of a check: found at its first index, absent and
    left out, absent and registered at the end. *)
Lemma checkVendorFolder_cases (w : World) (folder : string) :
  (exists i : nat,
      checkVendorFolder w folder = (w, Z.of_nat i)
      /\ folderUnderVendorMode w !! i = Some folder)
  \/ ((folder ∉ folderUnderVendorMode w)
      /\ checkVendorFolder w folder = (w, -1))
  \/ ((folder ∉ folderUnderVendorMode w)
      /\ checkVendorFolder w folder
         = (storeVendorFolder w folder,
            Z.of_nat (length (folderUnderVendorMode w)))).
Proof.
  unfold checkVendorFolder.
  pose proof (indexOf_spec folder (folderUnderVendorMode w) 0) as Hspec.
  destruct (indexOf folder (folderUnderVendorMode w) 0) as [i0|].
  - destruct Hspec as (i & -> & Hi & _). left. exists i.
    split; [f_equal; lia | exact Hi].
  - right.
    destruct (os_Stat (fs w) (filepath_Join folder "go.mod")); [now left|].
    destruct (existsb _ DependencyControlSystem); [now left|].
    destruct (os_Stat (fs w) (filepath_Join folder "vendor")); [|now left].
    right. split; [exact Hspec|]. f_equal. cbn. rewrite length_app. cbn. lia.
Qed.

Lemma indexOf_found (folder : string) (l : list string) :
  folder ∈ l -> exists i : nat, indexOf folder l 0 = Some (Z.of_nat i)
                                /\ l !! i = Some folder.
Proof.
  intros Hin. pose proof (indexOf_spec folder l 0) as Hspec.
  destruct (indexOf folder l 0) as [i0|]; [|contradiction].
  destruct Hspec as (i & -> & Hi & _). exists i. split; [f_equal; lia|exact Hi].
Qed.

Lemma indexOf_first (folder : string) (l : list string) :
  folder ∉ l -> indexOf folder (l ++ [folder])%list 0
                = Some (Z.of_nat (length l)).
Proof.
  intros Hnotin. pose proof (indexOf_spec folder (l ++ [folder])%list 0) as H.
  destruct (indexOf folder (l ++ [folder])%list 0) as [i0|].
  - destruct H as (j & -> & Hj & _). f_equal.
    destruct (decide (j < length l)%nat) as [Hlt|Hge].
    + rewrite lookup_app_l in Hj by exact Hlt.
      apply list_elem_of_lookup_2 in Hj. contradiction.
    + apply lookup_lt_Some in Hj. rewrite length_app in Hj. cbn in Hj. lia.
  - exfalso. apply H. apply elem_of_app. right. now apply list_elem_of_singleton.
Qed.

Lemma store_keeps_NoDup (l : list string) (folder : string) :
  folder ∉ l -> NoDup l -> NoDup (l ++ [folder])%list.
Proof.
  intros Hnotin Hnodup. apply NoDup_app. split; [exact Hnodup|].
  split; [|apply NoDup_singleton].
  intros x Hx Hx'. apply list_elem_of_singleton in Hx'. now subst x.
Qed.

(** X9. A folder that was marked is found by the next check, whatever the
    file system holds, and the check changes nothing. *)
Theorem check_after_store (w : World) (folder : string) :
  exists i : nat,
    checkVendorFolder (storeVendorFolder w folder) folder
    = (storeVendorFolder w folder, Z.of_nat i)
    /\ (i <= length (folderUnderVendorMode w))%nat
    /\ (folderUnderVendorMode w ++ [folder])%list !! i = Some folder.
Proof.
  unfold checkVendorFolder. cbn [storeVendorFolder folderUnderVendorMode].
  pose proof (indexOf_spec folder (folderUnderVendorMode w ++ [folder])%list 0)
    as Hspec.
  destruct (indexOf folder _ 0) as [i0|].
  - destruct Hspec as (i & -> & Hi & Hfirst). exists i.
    split; [f_equal; lia|]. split; [|exact Hi].
    destruct (decide (i <= length (folderUnderVendorMode w))%nat) as [|Hgt];
      [assumption|].
    exfalso. apply (Hfirst (length (folderUnderVendorMode w))); [lia|].
    rewrite lookup_app_r, Nat.sub_diag by lia. reflexivity.
  - exfalso. apply Hspec. apply elem_of_app. right.
    now apply list_elem_of_singleton.
Qed.

(** X10. A check registers a folder at most once: it keeps a registry
    without duplicates free of duplicates, only ever appends to it, and once
    it has answered with an index, checking again gives the same index and
    changes nothing. *)
Theorem check_registers_once (w : World) (folder : string) :
  let '(w1, index) := checkVendorFolder w folder in
  (NoDup (folderUnderVendorMode w) -> NoDup (folderUnderVendorMode w1))
  /\ folderUnderVendorMode w `prefix_of` folderUnderVendorMode w1
  /\ fs w1 = fs w
  /\ (index = -1 /\ (folder ∉ folderUnderVendorMode w1)
      \/ 0 <= index /\ checkVendorFolder w1 folder = (w1, index)).
Proof.
  destruct (checkVendorFolder_cases w folder)
    as [(i & Hcheck & Hi) | [[Hnotin Hcheck] | [Hnotin Hcheck]]];
    rewrite Hcheck.
  - split; [auto|]. split; [reflexivity|]. split; [reflexivity|].
    right. split; [lia | exact Hcheck].
  - split; [auto|]. split; [reflexivity|]. split; [reflexivity|].
    left. now split.
  - cbn [storeVendorFolder folderUnderVendorMode fs].
    split; [now apply store_keeps_NoDup|].
    split; [now apply prefix_app_r|]. split; [reflexivity|].
    right. split; [lia|].
    unfold checkVendorFolder. cbn [storeVendorFolder folderUnderVendorMode].
    now rewrite (indexOf_first folder _ Hnotin).
Qed.

(** X11. In a registry without duplicates, checking a folder and clearing
    the index the check gave leaves the folder unregistered. *)
Theorem clear_after_check (w : World) (folder : string) :
  NoDup (folderUnderVendorMode w) ->
  let '(w1, index) := checkVendorFolder w folder in
  folder ∉ folderUnderVendorMode (clearVendorFolder w1 index).
Proof.
  intros Hnodup.
  assert (Hclear : forall (w1 : World) (i : nat),
             NoDup (folderUnderVendorMode w1) ->
             folderUnderVendorMode w1 !! i = Some folder ->
             folder ∉ folderUnderVendorMode
                        (clearVendorFolder w1 (Z.of_nat i))).
  { intros w1 i Hnd Hi. unfold clearVendorFolder.
    pose proof (lookup_lt_Some _ _ _ Hi) as Hlt.
    destruct (Z.of_nat i <? 0) eqn:E1; [apply Z.ltb_lt in E1; lia|].
    destruct (Z.of_nat (length (folderUnderVendorMode w1)) <=? Z.of_nat i)
      eqn:E2; [apply Z.leb_le in E2; lia|].
    cbn [orb].
    replace (Z.to_nat (Z.of_nat (length (folderUnderVendorMode w1)) - 1))
      with (length (folderUnderVendorMode w1) - 1)%nat by lia.
    destruct (lookup_lt_is_Some_2 (folderUnderVendorMode w1)
                (length (folderUnderVendorMode w1) - 1)) as [y Hy]; [lia|].
    rewrite Hy, Nat2Z.id. cbn [folderUnderVendorMode].
    pose proof (swap_remove_Permutation _ _ _ _ Hi Hy) as Hperm.
    rewrite <- Hperm in Hnd. now apply NoDup_cons_1_1 in Hnd. }
  destruct (checkVendorFolder_cases w folder)
    as [(i & Hcheck & Hi) | [[Hnotin Hcheck] | [Hnotin Hcheck]]];
    rewrite Hcheck.
  - now apply Hclear.
  - unfold clearVendorFolder. cbn. exact Hnotin.
  - apply Hclear; [now apply store_keeps_NoDup|].
    cbn [storeVendorFolder folderUnderVendorMode].
    rewrite lookup_app_r, Nat.sub_diag by lia. reflexivity.
Qed.

(** The body of the loop of [downloadDeps]: the registry is extended, stays
    free of duplicates, and afterwards holds the folder unless the check
    answered [-1] and the download, run on the files as they are, has
    succeeded. *)
Lemma download_step (w : World) (dir : string) :
  let w1 :=
    let '(w, index) := checkVendorFolder w dir in
    if 0 <=? index then w
    else
      let '(fs1, e) := go_mod_download (fs w) dir in
      let w := {| fs := fs1;
                  folderUnderVendorMode := folderUnderVendorMode w |} in
      match e with
      | Some _ => storeVendorFolder w dir
      | None => w
      end in
  folderUnderVendorMode w `prefix_of` folderUnderVendorMode w1
  /\ (NoDup (folderUnderVendorMode w) -> NoDup (folderUnderVendorMode w1))
  /\ (dir ∈ folderUnderVendorMode w1
      \/ (checkVendorFolder w dir).2 = -1
         /\ (go_mod_download (fs w) dir).2 = None).
Proof.
  destruct (checkVendorFolder_cases w dir)
    as [(i & Hcheck & Hi) | [[Hnotin Hcheck] | [Hnotin Hcheck]]];
    rewrite Hcheck; cbn zeta.
  - replace (0 <=? Z.of_nat i) with true by (symmetry; apply Z.leb_le; lia).
    split; [reflexivity|]. split; [auto|]. left.
    now apply list_elem_of_lookup_2 in Hi.
  - cbn [Z.leb Z.compare].
    destruct (go_mod_download (fs w) dir) as [fs1 [e|]] eqn:E; cbn.
    + split; [now apply prefix_app_r|].
      split; [now apply store_keeps_NoDup|]. left.
      apply elem_of_app. right. now apply list_elem_of_singleton.
    + split; [reflexivity|]. split; [auto|]. right. now split.
  - replace (0 <=? Z.of_nat (length (folderUnderVendorMode w))) with true
      by (symmetry; apply Z.leb_le; lia).
    cbn. split; [now apply prefix_app_r|].
    split; [now apply store_keeps_NoDup|]. left.
    apply elem_of_app. right. now apply list_elem_of_singleton.
Qed.

(** X12. [downloadDeps] only appends to the registry and keeps it free of
    duplicates; with the install flag off it does nothing; with the flag on,
    every folder it was given ends up vendor-flagged, unless, when its turn
    came, the check answered [-1] and the download that was then run for
    it, on the files as they were at that point of the run, succeeded. *)
Theorem downloadDeps_registry (depsMgr : DepsManager) (w : World)
    (folders : list WorkspaceFolder) :
  let w' := downloadDeps depsMgr w folders in
  folderUnderVendorMode w `prefix_of` folderUnderVendorMode w'
  /\ (NoDup (folderUnderVendorMode w) -> NoDup (folderUnderVendorMode w'))
  /\ (installGoDeps depsMgr = false -> w' = w)
  /\ (installGoDeps depsMgr = true ->
      forall (k : nat) (folder : WorkspaceFolder),
        folders !! k = Some folder ->
        let dir := Filename (span_NewURI (wf_URI folder)) in
        let before := downloadDeps depsMgr w (take k folders) in
        dir ∈ folderUnderVendorMode w'
        \/ (checkVendorFolder before dir).2 = -1
           /\ (go_mod_download (fs before) dir).2 = None).
Proof.
  unfold downloadDeps. destruct (installGoDeps depsMgr); cbn [negb].
  2: { cbn zeta. split; [reflexivity|]. split; [auto|].
       split; [reflexivity | discriminate]. }
  cbn zeta.
  match goal with
  | |- context [fold_left ?f folders w] => set (step := f)
  end.
  assert (Hstep : forall w folder,
             folderUnderVendorMode w `prefix_of`
               folderUnderVendorMode (step w folder)
             /\ (NoDup (folderUnderVendorMode w) ->
                 NoDup (folderUnderVendorMode (step w folder)))
             /\ (Filename (span_NewURI (wf_URI folder))
                   ∈ folderUnderVendorMode (step w folder)
                 \/ (checkVendorFolder w
                       (Filename (span_NewURI (wf_URI folder)))).2 = -1
                    /\ (go_mod_download (fs w)
                          (Filename (span_NewURI (wf_URI folder)))).2 = None)).
  { intros w0 folder.
    exact (download_step w0 (Filename (span_NewURI (wf_URI folder)))). }
  assert (Hloop : forall folders w,
             folderUnderVendorMode w `prefix_of`
               folderUnderVendorMode (fold_left step folders w)
             /\ (NoDup (folderUnderVendorMode w) ->
                 NoDup (folderUnderVendorMode (fold_left step folders w)))).
  { clear w folders. intros folders.
    induction folders as [|folder folders IH]; intros w; cbn [fold_left].
    - split; [reflexivity | auto].
    - destruct (Hstep w folder) as (Hpre1 & Hnd1 & _).
      destruct (IH (step w folder)) as (Hpre & Hnd).
      split; [now transitivity (folderUnderVendorMode (step w folder))|].
      auto. }
  destruct (Hloop folders w) as (Hpre & Hnd).
  split; [exact Hpre|]. split; [exact Hnd|]. split; [discriminate|].
  intros _ k folder Hk.
  rewrite <- (take_drop_middle folders k folder Hk) at 1.
  rewrite fold_left_app. cbn [fold_left].
  set (before := fold_left step (take k folders) w).
  destruct (Hstep before folder) as (_ & _ & [Hin | Hdone]); [left | now right].
  destruct (Hloop (drop (S k) folders) (step before folder)) as [[more ->] _].
  apply elem_of_app. now left.
Qed.

End RegistryComposition.

Lemma check_registers_once_witness :
  NoDup (folderUnderVendorMode Demo.vendorWorld)
  /\ NoDup ["/w/x"; "/w/a"]
  /\ @checkVendorFolder Demo.platform
       (storeVendorFolder Demo.vendorWorld "/w/a") "/w/a"
     = (storeVendorFolder Demo.vendorWorld "/w/a", 1).
Proof.
  assert (Hnodup : NoDup (folderUnderVendorMode Demo.vendorWorld))
    by (apply NoDup_singleton).
  split; [exact Hnodup|].
  pose proof (@check_registers_once Demo.platform Demo.vendorWorld "/w/a")
    as Honce.
  change (@checkVendorFolder Demo.platform Demo.vendorWorld "/w/a")
    with (storeVendorFolder Demo.vendorWorld "/w/a", 1) in Honce.
  destruct Honce as (Hkeeps & _ & _ & [[Hminus _] | [_ Hagain]]).
  - discriminate Hminus.
  - split; [exact (Hkeeps Hnodup) | exact Hagain].
Defined.

Lemma clear_after_check_witness :
  NoDup (folderUnderVendorMode Demo.vendorWorld)
  /\ ("/w/a" ∉ folderUnderVendorMode
                 (clearVendorFolder
                    (storeVendorFolder Demo.vendorWorld "/w/a") 1)).
Proof.
  assert (Hnodup : NoDup (folderUnderVendorMode Demo.vendorWorld))
    by (apply NoDup_singleton).
  split; [exact Hnodup|].
  exact (@clear_after_check Demo.platform Demo.vendorWorld "/w/a" Hnodup).
Defined.

(** ** Module-boundary files: what is written and what is deleted *)

Section BoundaryFiles.

Context {sys : Platform}.

Lemma os_Remove_other (fs0 : FileSystem) (path other : string) :
  other <> path -> entries (os_Remove fs0 path) !! other = entries fs0 !! other.
Proof.
  intros Hne. unfold os_Remove. case_bool_decide; [reflexivity|].
  cbn. now apply lookup_delete_ne.
Qed.

(** X13. [constructGoModManually] touches no path but the [go.mod] of the
    folder. A [go.mod] that exists is left as it is, without error.
    Otherwise, on success the file holds ["module "] and the module path; on
    failure the file is absent or was created and left empty. *)
Theorem constructGoModManually_effect (fs0 : FileSystem)
    (folder modulePath : string) :
  let goMod := filepath_Join folder "go.mod" in
  let '(fs1, e) := constructGoModManually fs0 folder modulePath in
  (forall path, path <> goMod -> entries fs1 !! path = entries fs0 !! path)
  /\ (os_Stat fs0 goMod = true -> fs1 = fs0 /\ e = None)
  /\ (os_Stat fs0 goMod = false ->
      match e with
      | None =>
          entries fs1 !! goMod = Some (RegularFile ("module " ++ modulePath))
      | Some _ =>
          entries fs1 !! goMod = None
          \/ entries fs1 !! goMod = Some (RegularFile "")
      end).
Proof.
  cbn zeta. unfold constructGoModManually.
  destruct (os_Stat fs0 (filepath_Join folder "go.mod")) eqn:Hstat.
  { split; [reflexivity|]. split; [auto | discriminate]. }
  unfold os_Create. case_bool_decide.
  { split; [reflexivity|]. split; [discriminate|]. intros _. left.
    unfold os_Stat in Hstat. apply bool_decide_eq_false in Hstat.
    destruct (entries fs0 !! filepath_Join folder "go.mod") eqn:E;
      [exfalso; apply Hstat; eauto | reflexivity]. }
  unfold file_WriteString. cbn [write_fails]. case_bool_decide.
  - split; [intros path Hne; cbn; now apply lookup_insert_ne|].
    split; [discriminate|]. intros _. right. cbn. apply lookup_insert_eq.
  - split.
    { intros path Hne. cbn. now rewrite !lookup_insert_ne. }
    split; [discriminate|]. intros _. cbn. apply lookup_insert_eq.
Qed.

Lemma cleanup_folder_other (fs1 : FileSystem) (folder path : string) :
  path <> filepath_Join folder "go.mod" ->
  path <> filepath_Join folder "go.sum" ->
  entries (cleanup_folder fs1 folder) !! path = entries fs1 !! path.
Proof.
  intros Hmod Hsum. unfold cleanup_folder.
  repeat (destruct (os_Stat _ (filepath_Join _ _)));
    rewrite ?os_Remove_other by assumption; reflexivity.
Qed.

Lemma cleanup_folder_gone_sum (fs1 : FileSystem) (folder : string) :
  filepath_Join folder "go.sum" ∉ remove_fails fs1 ->
  os_Stat (cleanup_folder fs1 folder) (filepath_Join folder "go.sum") = false.
Proof.
  intros H. unfold cleanup_folder.
  set (fs2 := if os_Stat fs1 (filepath_Join folder "go.mod") then _ else _).
  assert (Hfails : remove_fails fs2 = remove_fails fs1)
    by (subst fs2; destruct (os_Stat _ _);
        [apply os_Remove_remove_fails | reflexivity]).
  destruct (os_Stat fs2 (filepath_Join folder "go.sum")) eqn:E; [|exact E].
  apply os_Remove_gone. now rewrite Hfails.
Qed.

(** X14. [Cleanup] only deletes, and only the [go.mod] and [go.sum] of the
    folders of the cleanup list: every other path is as it was, no path
    comes into being, and both files of a listed folder are gone afterwards
    unless their removal fails. *)
Theorem Cleanup_effect (s : ElasticServer) (fs0 : FileSystem) :
  (forall path,
      (forall folder, folder ∈ FolderNeedsCleanup s ->
                      path <> filepath_Join folder "go.mod"
                      /\ path <> filepath_Join folder "go.sum") ->
      entries (Cleanup s fs0) !! path = entries fs0 !! path)
  /\ (forall path, os_Stat fs0 path = false ->
                   os_Stat (Cleanup s fs0) path = false)
  /\ (forall folder name,
        folder ∈ FolderNeedsCleanup s ->
        name = "go.mod" \/ name = "go.sum" ->
        filepath_Join folder name ∉ remove_fails fs0 ->
        os_Stat (Cleanup s fs0) (filepath_Join folder name) = false).
Proof.
  split; [|split].
  - unfold Cleanup. generalize (FolderNeedsCleanup s). intros l. revert fs0.
    induction l as [|dir l IH]; intros fs0 path Hother; [reflexivity|].
    cbn [fold_left]. rewrite IH.
    + destruct (Hother dir) as [Hmod Hsum]; [now left|].
      now apply cleanup_folder_other.
    + intros folder Hin. apply Hother. now right.
  - unfold Cleanup. generalize (FolderNeedsCleanup s). intros l. revert fs0.
    induction l as [|dir l IH]; intros fs0 path Habsent; [exact Habsent|].
    cbn [fold_left]. apply IH. now apply cleanup_folder_absent.
  - intros folder name Hin [-> | ->] Hremovable.
    + now apply Cleanup_deletes_recorded.
    + revert Hin Hremovable. unfold Cleanup.
      generalize (FolderNeedsCleanup s). intros l. revert fs0.
      induction l as [|dir l IH]; intros fs0 Hin Hremovable.
      * now apply not_elem_of_nil in Hin.
      * cbn [fold_left]. apply elem_of_cons in Hin as [<- | Hin].
        -- assert (E := cleanup_folder_gone_sum fs0 folder Hremovable).
           revert E. generalize (cleanup_folder fs0 folder). clear.
           induction l as [|dir l IH]; intros fs1 E; [exact E|].
           cbn [fold_left]. apply IH. now apply cleanup_folder_absent.
        -- apply IH; [exact Hin|]. now rewrite cleanup_folder_remove_fails.
Qed.

(** A folder is settled when each of its two files is absent or cannot be
    removed: cleaning it again changes nothing. *)
Lemma cleanup_folder_settled (fs1 : FileSystem) (folder : string) :
  (os_Stat fs1 (filepath_Join folder "go.mod") = false
   \/ filepath_Join folder "go.mod" ∈ remove_fails fs1) ->
  (os_Stat fs1 (filepath_Join folder "go.sum") = false
   \/ filepath_Join folder "go.sum" ∈ remove_fails fs1) ->
  cleanup_folder fs1 folder = fs1.
Proof.
  intros Hmod Hsum. unfold cleanup_folder.
  assert (E : (if os_Stat fs1 (filepath_Join folder "go.mod")
               then os_Remove fs1 (filepath_Join folder "go.mod")
               else fs1) = fs1).
  { destruct Hmod as [-> | Hin]; [reflexivity|].
    destruct (os_Stat fs1 (filepath_Join folder "go.mod")); [|reflexivity].
    unfold os_Remove. now rewrite bool_decide_eq_true_2. }
  rewrite E. destruct Hsum as [-> | Hin]; [reflexivity|].
  destruct (os_Stat fs1 (filepath_Join folder "go.sum")); [|reflexivity].
  unfold os_Remove. now rewrite bool_decide_eq_true_2.
Qed.

Lemma cleanup_folder_settles (fs1 : FileSystem) (folder name : string) :
  name = "go.mod" \/ name = "go.sum" ->
  os_Stat (cleanup_folder fs1 folder) (filepath_Join folder name) = false
  \/ filepath_Join folder name ∈ remove_fails (cleanup_folder fs1 folder).
Proof.
  intros Hname. rewrite cleanup_folder_remove_fails.
  destruct (decide (filepath_Join folder name ∈ remove_fails fs1))
    as [Hin|Hnotin]; [now right|]. left.
  destruct Hname as [-> | ->];
    [now apply cleanup_folder_gone | now apply cleanup_folder_gone_sum].
Qed.

(** X15. [Cleanup] is idempotent: running it a second time changes
    nothing. *)
Theorem Cleanup_idempotent (s : ElasticServer) (fs0 : FileSystem) :
  Cleanup s (Cleanup s fs0) = Cleanup s fs0.
Proof.
  unfold Cleanup. generalize (FolderNeedsCleanup s). intros l.
  set (settled := fun (fs1 : FileSystem) (folder name : string) =>
         os_Stat fs1 (filepath_Join folder name) = false
         \/ filepath_Join folder name ∈ remove_fails fs1).
  assert (Hkeep : forall fs1 dir folder name,
             settled fs1 folder name ->
             settled (cleanup_folder fs1 dir) folder name).
  { intros fs1 dir folder name [Habsent | Hin]; [left | right].
    - now apply cleanup_folder_absent.
    - now rewrite cleanup_folder_remove_fails. }
  assert (Hfinal : forall l fs1 folder name,
             name = "go.mod" \/ name = "go.sum" ->
             (folder ∈ l \/ settled fs1 folder name) ->
             settled (fold_left cleanup_folder l fs1) folder name).
  { clear l. intros l. induction l as [|dir l IH];
      intros fs1 folder name Hname [Hin | Hsettled]; cbn [fold_left].
    - now apply not_elem_of_nil in Hin.
    - exact Hsettled.
    - apply IH; [exact Hname|].
      apply elem_of_cons in Hin as [-> | Hin]; [right | now left].
      now apply cleanup_folder_settles.
    - apply IH; [exact Hname|]. right. now apply Hkeep. }
  assert (Hstable : forall l' fs1,
             (forall folder name, folder ∈ l' ->
                name = "go.mod" \/ name = "go.sum" ->
                settled fs1 folder name) ->
             fold_left cleanup_folder l' fs1 = fs1).
  { intros l'. induction l' as [|dir l' IH]; intros fs1 Hall; [reflexivity|].
    cbn [fold_left].
    rewrite (cleanup_folder_settled fs1 dir).
    - apply IH. intros folder name Hin. apply Hall. now right.
    - apply Hall; [now left | now left].
    - apply Hall; [now left | now right]. }
  apply Hstable. intros folder name Hin Hname. apply Hfinal; auto.
Qed.

End BoundaryFiles.

(** ** The module manager without the [go] command *)

Section ManualMode.

Context {sys : Platform}.

Lemma extends_with_refl (fs0 : FileSystem) (added : list string) :
  extends_with fs0 fs0 added.
Proof. unfold extends_with. repeat split; auto. Qed.

Lemma extends_with_trans (fs0 fs1 fs2 : FileSystem)
    (added1 added2 : list string) :
  extends_with fs0 fs1 added1 -> extends_with fs1 fs2 added2 ->
  extends_with fs0 fs2 (added1 ++ added2)%list.
Proof.
  intros (Hkeep1 & Hnew1 & Hc1 & Hw1 & Hr1) (Hkeep2 & Hnew2 & Hc2 & Hw2 & Hr2).
  unfold extends_with. repeat split; [auto| |congruence..].
  intros path Habsent.
  destruct (Hnew1 path Habsent) as [Hstill | (folder & data & Hin & -> & E & Hd)].
  - destruct (Hnew2 path Hstill) as [? | (folder & data & Hin & -> & E & Hd)];
      [now left | right].
    exists folder, data. repeat split; auto. apply elem_of_app. now right.
  - right. exists folder, data. repeat split; auto. apply elem_of_app. now left.
Qed.

Lemma constructGoModManually_extends (fs0 : FileSystem)
    (folder modulePath : string) :
  extends_with fs0 (constructGoModManually fs0 folder modulePath).1 [folder].
Proof.
  unfold constructGoModManually.
  destruct (os_Stat fs0 (filepath_Join folder "go.mod")) eqn:Hstat;
    [apply extends_with_refl|].
  unfold os_Stat in Hstat. apply bool_decide_eq_false in Hstat.
  assert (Habsent : entries fs0 !! filepath_Join folder "go.mod" = None).
  { destruct (entries fs0 !! filepath_Join folder "go.mod") eqn:E;
      [exfalso; apply Hstat; eauto | reflexivity]. }
  unfold os_Create. case_bool_decide; [apply extends_with_refl|].
  unfold file_WriteString. cbn [write_fails].
  assert (Hfolder : folder ∈ [folder]) by now left.
  case_bool_decide; cbn [fst]; unfold extends_with; cbn;
    (split; [|split; [|auto]]).
  - intros path e E. rewrite lookup_insert_ne; [exact E | congruence].
  - intros path E.
    destruct (decide (path = filepath_Join folder "go.mod")) as [-> | Hne].
    + right. exists folder, "". rewrite lookup_insert_eq. auto.
    + left. now rewrite lookup_insert_ne.
  - intros path e E. rewrite !lookup_insert_ne; [exact E | congruence..].
  - intros path E.
    destruct (decide (path = filepath_Join folder "go.mod")) as [-> | Hne].
    + right. exists folder, ("module " ++ modulePath).
      rewrite lookup_insert_eq. repeat split; eauto.
    + left. now rewrite !lookup_insert_ne.
Qed.

Lemma manual_progress_refl (dm : DepsManager) (fs0 : FileSystem) :
  installGoDeps dm = false -> manual_progress dm fs0 dm fs0.
Proof.
  intros Hflag. split; [exact Hflag|]. exists [].
  split; [now rewrite app_nil_r | apply extends_with_refl].
Qed.

Lemma manual_progress_trans (dm0 dm1 dm2 : DepsManager)
    (fs0 fs1 fs2 : FileSystem) :
  manual_progress dm0 fs0 dm1 fs1 -> manual_progress dm1 fs1 dm2 fs2 ->
  manual_progress dm0 fs0 dm2 fs2.
Proof.
  intros (_ & added1 & E1 & H1) (Hflag & added2 & E2 & H2).
  split; [exact Hflag|]. exists (added1 ++ added2)%list.
  split; [now rewrite E2, E1, app_assoc | now apply extends_with_trans with fs1].
Qed.

Lemma goModInit_manual (depsMgr : DepsManager) (fs0 : FileSystem)
    (folder : string) :
  installGoDeps depsMgr = false ->
  manual_progress depsMgr fs0 (goModInit depsMgr fs0 folder).1.1
                  (goModInit depsMgr fs0 folder).1.2
  /\ moduleFolders (goModInit depsMgr fs0 folder).1.1 = moduleFolders depsMgr.
Proof.
  intros Hflag. unfold goModInit. rewrite Hflag.
  pose proof (constructGoModManually_extends fs0 folder
                (getModulePath fs0 folder)) as Hext.
  destruct (constructGoModManually _ _ _) as [fs1 e]. cbn in *.
  split; [|reflexivity]. split; [reflexivity|]. exists [folder]. now split.
Qed.

Lemma collectMetadata_manual (depsMgr : DepsManager) (fs0 : FileSystem)
    (folder : string) :
  installGoDeps depsMgr = false ->
  match collectMetadata depsMgr fs0 folder with
  | Some (depsMgr', fs1, _) =>
      manual_progress depsMgr fs0 depsMgr' fs1
      /\ moduleFolders depsMgr' = moduleFolders depsMgr
  | None => True
  end.
Proof.
  intros Hflag. unfold collectMetadata.
  destruct (Walk.filepath_Walk _ _ _ _) as [[module [e|]]|];
    [split; [now apply manual_progress_refl | reflexivity]| |exact I].
  destruct (collectUncoveredSrc fs0 folder) as [[folderUncovered needMod] [e|]];
    [split; [now apply manual_progress_refl | reflexivity]|].
  match goal with
  | |- context [fold_left ?f ?todo (depsMgr, fs0, module)] =>
      generalize todo; intros needed;
      assert (Hloop : forall l dm1 fs1 module1,
                 installGoDeps dm1 = false ->
                 manual_progress dm1 fs1 (fold_left f l (dm1, fs1, module1)).1.1
                                 (fold_left f l (dm1, fs1, module1)).1.2
                 /\ moduleFolders (fold_left f l (dm1, fs1, module1)).1.1
                    = moduleFolders dm1)
  end.
  { clear. intros l. induction l as [|dir l IH]; intros dm1 fs1 module1 Hflag;
      [split; [now apply manual_progress_refl | reflexivity]|].
    cbn [fold_left].
    destruct (goModInit_manual dm1 fs1 dir Hflag) as [Hstep Hsame].
    destruct (goModInit dm1 fs1 dir) as [[dm2 fs2] e]. cbn [fst snd] in *.
    assert (Hflag2 : installGoDeps dm2 = false) by apply Hstep.
    destruct e as [e|];
      (match goal with
       | |- context [fold_left _ l (dm2, fs2, ?m)] =>
           destruct (IH dm2 fs2 m Hflag2) as [Hrest Hsame2]
       end;
       split; [now apply manual_progress_trans with dm2 fs2 | congruence]). }
  specialize (Hloop needed depsMgr fs0 module Hflag).
  destruct (fold_left _ needed _) as [[dm1 fs1] module1]. exact Hloop.
Qed.

Lemma run_manual (depsMgr : DepsManager) (fs0 : FileSystem)
    (root : WorkspaceFolder) :
  installGoDeps depsMgr = false ->
  match run depsMgr fs0 root with
  | Some (depsMgr', fs1, _) => manual_progress depsMgr fs0 depsMgr' fs1
  | None => True
  end.
Proof.
  intros Hflag. unfold run.
  pose proof (collectMetadata_manual depsMgr fs0
                (Filename (span_NewURI (wf_URI root))) Hflag) as Hstep.
  destruct (collectMetadata _ _ _) as [[[dm1 fs1] [[e|] modules]]|];
    [apply Hstep | | exact I].
  destruct Hstep as [Hstep _].
  match goal with
  | |- manual_progress _ _ (fold_left ?f modules dm1) _ =>
      assert (Hloop : forall l dm,
                 installGoDeps (fold_left f l dm) = installGoDeps dm
                 /\ dm_FolderNeedsCleanup (fold_left f l dm)
                    = dm_FolderNeedsCleanup dm)
  end.
  { clear. intros l. induction l as [|dir l IH]; intros dm; [now split|].
    cbn [fold_left]. destruct (String.eqb _ _); [apply IH|].
    destruct (IH {| installGoDeps := installGoDeps dm;
                    moduleFolders :=
                      (moduleFolders dm ++
                       [ {| wf_URI := span_NewURI dir;
                            wf_Name := filepath_Base dir |} ])%list;
                    dm_FolderNeedsCleanup := dm_FolderNeedsCleanup dm |})
      as [E1 E2]. now split. }
  destruct (Hloop modules dm1) as [E1 E2].
  destruct Hstep as (Hflag1 & added & E & Hext).
  split; [congruence|]. exists added. split; [congruence | exact Hext].
Qed.

(** X16. With the install flag off in the session and in the options,
    [ManageDeps], when it returns, leaves the vendor-mode registry and
    every existing file as they are: all it does to the files is to create
    the [go.mod] of folders that its manager lists for cleanup, each empty
    or holding a [module] line. *)
Theorem ManageDeps_manual_mode (s : ElasticServer) (w : World)
    (folders : list WorkspaceFolder)
    (options : option (gmap string OptionValue)) :
  session_InstallGoDependency s = false ->
  (forall opts, options = Some opts ->
                opts !! "installGoDependency" <> Some (OptBool true)) ->
  match ManageDeps_local s w folders options with
  | Some (_, w', _, depsMgr) =>
      folderUnderVendorMode w' = folderUnderVendorMode w
      /\ extends_with (fs w) (fs w') (dm_FolderNeedsCleanup depsMgr)
  | None => True
  end.
Proof.
  intros Hsession Hoptions. unfold ManageDeps_local. rewrite Hsession.
  cbn [negb].
  assert (Hflag : match options with
                  | Some opts =>
                      match opts !! "installGoDependency" with
                      | Some (OptBool true) => true
                      | _ => false
                      end
                  | None => false
                  end = false).
  { destruct options as [opts|]; [|reflexivity].
    specialize (Hoptions opts eq_refl).
    destruct (opts !! "installGoDependency") as [[[|]|]|];
      [congruence | reflexivity..]. }
  rewrite Hflag.
  set (dm0 := {| installGoDeps := false; moduleFolders := [];
                 dm_FolderNeedsCleanup := [] |}).
  match goal with
  | |- context [fold_left ?f folders (Some (dm0, fs w, folders))] =>
      assert (Hloop : forall l dm1 fs1 acc,
                 installGoDeps dm1 = false ->
                 match fold_left f l (Some (dm1, fs1, acc)) with
                 | Some (dm2, fs2, _) => manual_progress dm1 fs1 dm2 fs2
                 | None => True
                 end)
  end.
  { clear. intros l. induction l as [|root l IH]; intros dm1 fs1 acc Hflag;
      [now apply manual_progress_refl|].
    cbn [fold_left]. pose proof (run_manual dm1 fs1 root Hflag) as Hstep.
    destruct (run dm1 fs1 root) as [[[dm2 fs2] e]|].
    - specialize (IH dm2 fs2 (acc ++ moduleFolders dm2)%list
                     (proj1 Hstep)).
      destruct (fold_left _ l _) as [[[dm3 fs3] acc']|]; [|exact I].
      now apply manual_progress_trans with dm2 fs2.
    - clear. induction l as [|root' l IH]; [exact I | exact IH]. }
  specialize (Hloop folders dm0 (fs w) folders eq_refl).
  destruct (fold_left _ folders _) as [[[dm1 fs1] folders']|]; [|exact I].
  destruct Hloop as (Hflag1 & added & E & Hext).
  unfold downloadDeps. rewrite Hflag1. cbn.
  split; [reflexivity|]. cbn in E. now rewrite E.
Qed.

End ManualMode.

Lemma ManageDeps_manual_mode_witness :
  match @ManageDeps_local Demo.platform Demo.server Demo.world Demo.folders
                          None with
  | Some (_, w', _, depsMgr) =>
      folderUnderVendorMode w' = folderUnderVendorMode Demo.world
      /\ @extends_with Demo.platform (fs Demo.world) (fs w')
           (dm_FolderNeedsCleanup depsMgr)
  | None => False
  end.
Proof.
  pose proof (@ManageDeps_manual_mode Demo.platform Demo.server Demo.world
                Demo.folders None eq_refl
                ltac:(discriminate)) as Hframe.
  destruct (@ManageDeps_local Demo.platform Demo.server Demo.world
              Demo.folders None) as [[[[s' w'] folders'] depsMgr]|] eqn:Hrun;
    [exact Hframe|].
  vm_compute in Hrun. discriminate Hrun.
Defined.

(** ** The walk that collects the module directories *)

Section WalkFacts.

Context {sys : Platform}.

Lemma Walk_Node_ind (P : Walk.Node -> Prop) :
  (forall e, P (Walk.Missing e)) ->
  (forall info e, P (Walk.Found info (err e))) ->
  (forall info names,
      (forall name child, (name, child) ∈ names -> P child) ->
      P (Walk.Found info (ok names))) ->
  forall node, P node.
Proof.
  intros Hmissing Hunread Hdir. fix IH 1.
  intros [e | info [names | e]]; [apply Hmissing | | apply Hunread].
  apply Hdir. intros name child Hin.
  assert (Hall : Forall (fun entry => P entry.2) names).
  { clear Hin. induction names as [|[n c] rest IHrest]; constructor.
    - apply IH.
    - exact IHrest. }
  rewrite Forall_forall in Hall. exact (Hall _ Hin).
Qed.

(** The function given to the walk answers [nil], or [SkipDir] for a
    directory; it keeps the modules collected so far. *)
Lemma collectModule_answers (module : list string) (path : string)
    (info : option Walk.FileInfo) (e : option error)
    (module' : list string) (r : option Walk.WalkError) :
  collectModule module path info e = Some (module', r) ->
  module `prefix_of` module'
  /\ (r = None
      \/ r = Some Walk.SkipDir
         /\ exists i, info = Some i /\ Walk.info_IsDir i = true).
Proof.
  unfold collectModule. destruct (filepath_Base path) as [|c base];
    [discriminate|].
  destruct (Ascii.eqb c "." || String.eqb (String c base) "vendor").
  - destruct info as [i|]; [|discriminate].
    destruct (Walk.info_IsDir i) eqn:Hdir.
    + intros [= <- <-]. split; [reflexivity|]. right. eauto.
    + destruct (String.eqb _ "go.mod"); intros [= <- <-];
        (split; [|now left]); [now apply prefix_app_r | reflexivity].
  - destruct info as [i|]; [|intros [= <- <-]; split; [reflexivity | now left]].
    destruct (String.eqb _ "go.mod"); intros [= <- <-];
      (split; [|now left]); [now apply prefix_app_r | reflexivity].
Qed.

(** With this function, [walk] answers [nil], or [SkipDir] for a
    directory. *)
Lemma walk_answers (node : Walk.Node) :
  forall path module module' r,
    Walk.walk collectModule node path module = Some (module', r) ->
    module `prefix_of` module'
    /\ (r = None
        \/ r = Some Walk.SkipDir
           /\ exists info names,
               node = Walk.Found info names /\ Walk.info_IsDir info = true).
Proof.
  induction node as [e | info e | info names IH] using Walk_Node_ind;
    intros path module module' r Hwalk; cbn [Walk.walk] in Hwalk.
  - apply collectModule_answers in Hwalk as [Hprefix [-> | [_ (i & [=] & _)]]].
    split; [exact Hprefix | now left].
  - destruct (Walk.info_IsDir info) eqn:Hdir; cbn [negb] in Hwalk.
    + destruct (collectModule module path (Some info) (Some e))
        as [[module1 err1]|] eqn:Hcall; [|discriminate].
      apply collectModule_answers in Hcall as [Hprefix Hr].
      assert (E : Some (module1, err1) = Some (module', r))
        by (destruct err1; exact Hwalk).
      injection E as <- <-. split; [exact Hprefix|].
      destruct Hr as [-> | [-> _]]; [now left | right; eauto].
    + apply collectModule_answers in Hwalk
        as [Hprefix [-> | [_ (i & [= <-] & Hi)]]]; [now split; [|left]|].
      congruence.
  - destruct (Walk.info_IsDir info) eqn:Hdir; cbn [negb] in Hwalk.
    2:{ apply collectModule_answers in Hwalk
          as [Hprefix [-> | [_ (i & [= <-] & Hi)]]]; [now split; [|left]|].
        congruence. }
    destruct (collectModule module path (Some info) None)
      as [[module1 err1]|] eqn:Hcall; [|discriminate].
    apply collectModule_answers in Hcall as [Hprefix Hr].
    destruct err1 as [e1|].
    { injection Hwalk as <- <-. split; [exact Hprefix|].
      destruct Hr as [[=] | [-> _]]. right. eauto. }
    assert (Hloop : module1 `prefix_of` module' /\ r = None).
    { clear Hr Hprefix. revert module1 Hwalk.
      induction names as [|[name child] rest IHrest]; intros module1 Hwalk.
      { injection Hwalk as <- <-. now split. }
      destruct (Walk.walk collectModule child (filepath_Join path name)
                          module1) as [[module2 r2]|] eqn:Hchild;
        [|discriminate].
      destruct (IH name child ltac:(now left) _ _ _ _ Hchild)
        as [Hprefix2 Hr2].
      assert (Hrest : (fix loop (names : list (string * Walk.Node))
                           (s : list string)
                         : option (list string * option Walk.WalkError) :=
                         match names with
                         | [] => Some (s, None)
                         | (name, child) :: rest =>
                             match Walk.walk collectModule child
                                     (filepath_Join path name) s with
                             | None => None
                             | Some (s', None) => loop rest s'
                             | Some (s', Some e) =>
                                 if Walk.passed_over child e
                                 then loop rest s'
                                 else Some (s', Some e)
                             end
                         end) rest module2 = Some (module', r)).
      { destruct Hr2 as [-> | [-> (i & ns & -> & Hi)]]; [exact Hwalk|].
        cbn [Walk.passed_over] in Hwalk. now rewrite Hi in Hwalk. }
      destruct (IHrest ltac:(intros n c Hin; apply (IH n c); now right)
                       _ Hrest) as [Hprefix3 ->].
      split; [now transitivity module2 | reflexivity]. }
    destruct Hloop as [Hprefix' ->].
    split; [now transitivity module1 | now left].
Qed.

(** With this function, [filepath.Walk] never returns an error. *)
Lemma Walk_never_fails (root : string) (node : Walk.Node)
    (module module' : list string) (e : option error) :
  Walk.filepath_Walk collectModule root node module = Some (module', e) ->
  e = None.
Proof.
  unfold Walk.filepath_Walk.
  destruct (Walk.walk collectModule node root module) as [[m r]|] eqn:Hwalk;
    [|discriminate].
  apply walk_answers in Hwalk as [_ [-> | [-> _]]]; now intros [= _ <-].
Qed.

(** How the function given to the walk answers. *)
Lemma collectModule_cases (module : list string) (path : string)
    (info : option Walk.FileInfo) (e : option error) :
  match collectModule module path info e with
  | None =>
      filepath_Base path = ""
      \/ (marked_base (filepath_Base path) = true /\ info = None)
  | Some (module', Some _) =>
      module' = module
      /\ filepath_Base path <> ""
      /\ marked_base (filepath_Base path) = true
      /\ exists i, info = Some i /\ Walk.info_IsDir i = true
  | Some (module', None) =>
      filepath_Base path <> ""
      /\ (marked_base (filepath_Base path) = true ->
          exists i, info = Some i /\ Walk.info_IsDir i = false)
      /\ match info with
         | Some i =>
             if String.eqb (Walk.info_Name i) "go.mod"
             then module' = (module ++ [filepath_Dir path])%list
             else module' = module
         | None => module' = module
         end
  end.
Proof.
  unfold collectModule, marked_base.
  destruct (filepath_Base path) as [|c base] eqn:Hbase; [now left|].
  destruct (Ascii.eqb c "." || String.eqb (String c base) "vendor").
  - destruct info as [i|]; [|right; now split].
    destruct (Walk.info_IsDir i) eqn:Hdir.
    + repeat split; [discriminate | eauto].
    + destruct (String.eqb _ "go.mod") eqn:Hname;
        (split; [discriminate|]); (split; [eauto|]); now rewrite ?Hname.
  - destruct info as [i|].
    + destruct (String.eqb _ "go.mod") eqn:Hname;
        (split; [discriminate|]); (split; [discriminate|]);
        now rewrite ?Hname.
    + split; [discriminate|]. split; [discriminate | reflexivity].
Qed.

(** Whether [walk] panics does not depend on the modules collected so
    far. *)
Lemma walk_panic_reached (node : Walk.Node) :
  forall path module,
    Walk.walk collectModule node path module = None <->
    exists path' node', reaches path node path' node' /\ panics_at path' node'.
Proof.
  induction node as [e | info e | info names IH] using Walk_Node_ind;
    intros path module; cbn [Walk.walk].
  - pose proof (collectModule_cases module path None (Some e)) as Hcall.
    destruct (collectModule module path None (Some e)) as [[m [r|]]|].
    + destruct Hcall as (_ & _ & _ & i & [=] & _).
    + split; [discriminate|]. intros (p & n & Hreach & Hbad).
      inversion Hreach; subst. destruct Hcall as (Hbase & Hmarked & _).
      destruct Hbad as [? | [Hm _]]; [contradiction|].
      destruct (Hmarked Hm) as (i & [=] & _).
    + split; [intros _|reflexivity]. exists path, (Walk.Missing e).
      split; [constructor|]. destruct Hcall as [? | [Hm _]]; [now left|].
      right. eauto.
  - assert (Hhere : forall e', collectModule module path (Some info) e' = None
                               <-> exists path' node',
                                     reaches path (Walk.Found info (err e))
                                             path' node'
                                     /\ panics_at path' node').
    { intros e'.
      pose proof (collectModule_cases module path (Some info) e') as Hcall.
      destruct (collectModule module path (Some info) e') as [[m [r|]]|].
      - split; [discriminate|]. intros (p & n & Hreach & Hbad).
        inversion Hreach; subst. destruct Hcall as (_ & Hbase & _).
        destruct Hbad as [? | [_ [e0 [=]]]]. contradiction.
      - split; [discriminate|]. intros (p & n & Hreach & Hbad).
        inversion Hreach; subst. destruct Hcall as (Hbase & _).
        destruct Hbad as [? | [_ [e0 [=]]]]. contradiction.
      - split; [intros _|reflexivity].
        exists path, (Walk.Found info (err e)). split; [constructor|].
        destruct Hcall as [? | [_ [=]]]. now left. }
    destruct (Walk.info_IsDir info); cbn [negb]; [|apply Hhere].
    rewrite <- (Hhere (Some e)).
    destruct (collectModule module path (Some info) (Some e)) as [[m r]|];
      [|reflexivity].
    split; discriminate.
  - pose proof (collectModule_cases module path (Some info) None) as Hcall.
    destruct (Walk.info_IsDir info) eqn:Hdir; cbn [negb].
    2:{ destruct (collectModule module path (Some info) None) as [[m [r|]]|].
        - split; [discriminate|]. intros (p & n & Hreach & Hbad).
          inversion Hreach; subst; [|congruence].
          destruct Hcall as (_ & Hbase & _).
          destruct Hbad as [? | [_ [e0 [=]]]]. contradiction.
        - split; [discriminate|]. intros (p & n & Hreach & Hbad).
          inversion Hreach; subst; [|congruence].
          destruct Hcall as (Hbase & _).
          destruct Hbad as [? | [_ [e0 [=]]]]. contradiction.
        - split; [intros _|reflexivity].
          exists path, (Walk.Found info (ok names)). split; [constructor|].
          destruct Hcall as [? | [_ [=]]]. now left. }
    destruct (collectModule module path (Some info) None) as [[m [r|]]|].
    + (* a marked directory is skipped *)
      destruct Hcall as (_ & Hbase & Hmarked & _).
      split; [discriminate|]. intros (p & n & Hreach & Hbad).
      inversion Hreach; subst; [|congruence].
      destruct Hbad as [? | [_ [e0 [=]]]]. contradiction.
    + destruct Hcall as (Hbase & Hmarked & _).
      assert (Hplain : marked_base (filepath_Base path) = false).
      { destruct (marked_base (filepath_Base path)); [|reflexivity].
        destruct (Hmarked eq_refl) as (i & [= <-] & Hi). congruence. }
      clear Hmarked.
      transitivity (exists name child,
                       (name, child) ∈ names
                       /\ exists path' node',
                           reaches (filepath_Join path name) child path' node'
                           /\ panics_at path' node').
      * assert (Hsub : forall name child, (name, child) ∈ names ->
                                          (name, child) ∈ names) by auto.
        revert Hsub. generalize names at 1 3 4. intros todo. revert m.
        induction todo as [|[name child] rest IHrest]; intros m Hsub.
        { split; [discriminate|]. intros (? & ? & Hin & _).
          now apply not_elem_of_nil in Hin. }
        assert (Hchild := IH name child (Hsub _ _ ltac:(now left))
                             (filepath_Join path name)).
        assert (Hrest : forall n c, (n, c) ∈ rest -> (n, c) ∈ names)
          by (intros n c Hin; apply Hsub; now right).
        destruct (Walk.walk collectModule child (filepath_Join path name) m)
          as [[m' r]|] eqn:Hwalk.
        -- assert (Hgo : (match r with
                          | None => True
                          | Some e0 => Walk.passed_over child e0 = true
                          end)).
           { apply walk_answers in Hwalk
               as [_ [-> | [-> (i & ns & -> & Hi)]]]; [exact I | exact Hi]. }
           assert (Hnone : ~ exists path' node',
                             reaches (filepath_Join path name) child
                                     path' node'
                             /\ panics_at path' node').
           { intros Hbad. apply (Hchild m) in Hbad. congruence. }
           destruct r as [e0|]; [rewrite Hgo|]; rewrite (IHrest m' Hrest);
             (split;
              [intros (n & c & Hin & Hbad); exists n, c;
               split; [now right | exact Hbad]
              |intros (n & c & Hin & Hbad);
               apply elem_of_cons in Hin as [[= -> ->] | Hin];
               [contradiction | eauto]]).
        -- split; [intros _|reflexivity]. exists name, child.
           split; [now left|]. now apply (Hchild m).
      * split.
        -- intros (name & child & Hin & p & n & Hreach & Hbad).
           exists p, n. split; [|exact Hbad].
           now apply reaches_below with name child.
        -- intros (p & n & Hreach & Hbad).
           inversion Hreach; subst.
           { destruct Hbad as [? | [_ [e0 [=]]]]. contradiction. }
           eauto 8.
    + split; [intros _|reflexivity].
      exists path, (Walk.Found info (ok names)). split; [constructor|].
      destruct Hcall as [? | [_ [=]]]. now left.
Qed.

(** X28. The walk of [collectMetadata] panics exactly when it comes to a
    path without base name or to a missing path whose base name starts
    with a dot or is [vendor] (there [info.IsDir()] is called on a nil
    [info]); otherwise it returns, and without error. *)
Theorem Walk_panics_iff (root : string) (node : Walk.Node)
    (module : list string) :
  (Walk.filepath_Walk collectModule root node module = None <->
   exists path node', reaches root node path node' /\ panics_at path node')
  /\ (forall module' e,
        Walk.filepath_Walk collectModule root node module = Some (module', e)
        -> e = None).
Proof.
  split; [|intros module' e; apply Walk_never_fails].
  rewrite <- (walk_panic_reached node root module). unfold Walk.filepath_Walk.
  destruct (Walk.walk collectModule node root module) as [[m [[|e]|]]|];
    split; congruence.
Qed.

(** What was collected when [walk] returns. *)
Lemma walk_collected (node : Walk.Node) :
  forall path module module' r,
    Walk.walk collectModule node path module = Some (module', r) ->
    forall dir,
      dir ∈ module' <->
      dir ∈ module
      \/ exists path' info names,
          reaches path node path' (Walk.Found info names)
          /\ Walk.info_Name info = "go.mod"
          /\ (marked_base (filepath_Base path') = true ->
              Walk.info_IsDir info = false)
          /\ dir = filepath_Dir path'.
Proof.
  assert (Hcalled : forall path module info e names module1 r1,
             collectModule module path (Some info) e = Some (module1, r1) ->
             (forall path' node',
                 reaches path (Walk.Found info names) path' node' ->
                 path' = path /\ node' = Walk.Found info names) ->
             forall dir,
               dir ∈ module1 <->
               dir ∈ module
               \/ exists path' info' names',
                   reaches path (Walk.Found info names) path'
                           (Walk.Found info' names')
                   /\ Walk.info_Name info' = "go.mod"
                   /\ (marked_base (filepath_Base path') = true ->
                       Walk.info_IsDir info' = false)
                   /\ dir = filepath_Dir path').
  { intros path module info e names module1 r1 Hcall Honly dir.
    pose proof (collectModule_cases module path (Some info) e) as Hcase.
    rewrite Hcall in Hcase. destruct r1 as [r1|].
    - destruct Hcase as (-> & _ & Hmarked & i & [= <-] & Hdir).
      split; [now left|]. intros [Hin | (p & i & ns & Hreach & _ & Hplain & _)];
        [exact Hin|].
      destruct (Honly _ _ Hreach) as [-> [= -> _]].
      rewrite (Hplain Hmarked) in Hdir. discriminate.
    - destruct Hcase as (_ & Hplain & Hmodule).
      destruct (String.eqb (Walk.info_Name info) "go.mod") eqn:Hname.
      + subst module1. rewrite elem_of_app, list_elem_of_singleton.
        apply String.eqb_eq in Hname. split.
        * intros [Hin | ->]; [now left | right].
          exists path, info, names. split; [constructor|].
          split; [exact Hname|]. split; [|reflexivity].
          intros Hm. destruct (Hplain Hm) as (i & [= <-] & Hi). exact Hi.
        * intros [Hin | (p & i & ns & Hreach & _ & _ & ->)]; [now left|].
          destruct (Honly _ _ Hreach) as [-> _]. now right.
      + subst module1. split; [now left|].
        intros [Hin | (p & i & ns & Hreach & Hgomod & _)]; [exact Hin|].
        destruct (Honly _ _ Hreach) as [-> [= -> _]].
        rewrite Hgomod in Hname. discriminate. }
  induction node as [e | info e | info names IH] using Walk_Node_ind;
    intros path module module' r Hwalk dir; cbn [Walk.walk] in Hwalk.
  - pose proof (collectModule_cases module path None (Some e)) as Hcase.
    rewrite Hwalk in Hcase. destruct r as [r|].
    { destruct Hcase as (_ & _ & _ & i & [=] & _). }
    destruct Hcase as (_ & _ & ->). split; [now left|].
    intros [Hin | (p & i & ns & Hreach & _)]; [exact Hin|].
    inversion Hreach.
  - assert (Honly : forall path' node',
               reaches path (Walk.Found info (err e)) path' node' ->
               path' = path /\ node' = Walk.Found info (err e))
      by (intros p n Hreach; inversion Hreach; now subst).
    destruct (Walk.info_IsDir info); cbn [negb] in Hwalk.
    + destruct (collectModule module path (Some info) (Some e))
        as [[module1 r1]|] eqn:Hcall; [|discriminate].
      assert (E : Some (module1, r1) = Some (module', r))
        by (destruct r1; exact Hwalk).
      injection E as <- <-. now apply (Hcalled _ _ _ _ _ _ _ Hcall).
    + now apply (Hcalled _ _ _ _ _ _ _ Hwalk).
  - destruct (Walk.info_IsDir info) eqn:Hdir; cbn [negb] in Hwalk.
    2:{ apply (Hcalled _ _ _ _ _ _ _ Hwalk).
        intros p n Hreach. inversion Hreach; subst; [now split | congruence]. }
    destruct (collectModule module path (Some info) None)
      as [[module1 r1]|] eqn:Hcall; [|discriminate].
    pose proof (collectModule_cases module path (Some info) None) as Hcase.
    rewrite Hcall in Hcase. destruct r1 as [r1|].
    { injection Hwalk as <- <-. apply (Hcalled _ _ _ _ _ _ _ Hcall).
      intros p n Hreach. inversion Hreach; subst; [now split|].
      destruct Hcase as (_ & _ & Hmarked & _). congruence. }
    destruct Hcase as (Hbase & Hplain & Hmodule).
    assert (Hunmarked : marked_base (filepath_Base path) = false).
    { destruct (marked_base (filepath_Base path)); [|reflexivity].
      destruct (Hplain eq_refl) as (i & [= <-] & Hi). congruence. }
    assert (Hhere : dir ∈ module1 <->
                    dir ∈ module
                    \/ (Walk.info_Name info = "go.mod"
                        /\ dir = filepath_Dir path)).
    { destruct (String.eqb (Walk.info_Name info) "go.mod") eqn:Hname;
        subst module1.
      - apply String.eqb_eq in Hname.
        rewrite elem_of_app, list_elem_of_singleton. split.
        + intros [? | ->]; auto.
        + intros [? | [_ ->]]; auto.
      - apply String.eqb_neq in Hname. split; [now left|].
        intros [? | [? _]]; [assumption | contradiction]. }
    assert (Hloop : dir ∈ module' <->
                    dir ∈ module1
                    \/ exists name child,
                        (name, child) ∈ names
                        /\ exists path' info' names',
                            reaches (filepath_Join path name) child path'
                                    (Walk.Found info' names')
                            /\ Walk.info_Name info' = "go.mod"
                            /\ (marked_base (filepath_Base path') = true ->
                                Walk.info_IsDir info' = false)
                            /\ dir = filepath_Dir path').
    { clear Hhere Hmodule Hcall.
      assert (Hsub : forall name child, (name, child) ∈ names ->
                                        (name, child) ∈ names) by auto.
      revert Hsub Hwalk. generalize names at 1 3 4. intros todo.
      revert module1.
      induction todo as [|[name child] rest IHrest]; intros module1 Hsub Hwalk.
      { injection Hwalk as <- <-. split; [now left|].
        intros [? | (? & ? & Hin & _)]; [assumption|].
        now apply not_elem_of_nil in Hin. }
      destruct (Walk.walk collectModule child (filepath_Join path name)
                          module1) as [[module2 r2]|] eqn:Hchild;
        [|discriminate].
      pose proof (IH name child (Hsub _ _ ltac:(now left)) _ _ _ _ Hchild dir)
        as Hfirst.
      assert (Hgo : (match r2 with
                     | None => True
                     | Some e0 => Walk.passed_over child e0 = true
                     end)).
      { apply walk_answers in Hchild
          as [_ [-> | [-> (i & ns & -> & Hi)]]]; [exact I | exact Hi]. }
      assert (Hrest : forall n c, (n, c) ∈ rest -> (n, c) ∈ names)
        by (intros n c Hin; apply Hsub; now right).
      assert (Hlater := fun H => IHrest module2 Hrest H).
      destruct r2 as [e0|]; [rewrite Hgo in Hwalk|];
        rewrite (Hlater Hwalk), Hfirst;
        (split;
         [intros [[? | Hin] | (n & c & Hin & Hfound)];
          [now left
          |right; exists name, child; split; [now left | exact Hin]
          |right; exists n, c; split; [now right | exact Hfound]]
         |intros [? | (n & c & Hin & Hfound)]; [now left; left|];
          apply elem_of_cons in Hin as [[= -> ->] | Hin];
          [left; right; exact Hfound | right; eauto]]). }
    rewrite Hloop, Hhere. split.
    + intros [[? | [Hname ->]] | (name & child & Hin & p & i & ns & Hreach & Hrest)].
      * now left.
      * right. exists path, info, (ok names). split; [constructor|].
        split; [exact Hname|]. split; [congruence | reflexivity].
      * right. exists p, i, ns. split; [|exact Hrest].
        now apply reaches_below with name child.
    + intros [? | (p & i & ns & Hreach & Hname & Hdirp & ->)]; [now left; left|].
      inversion Hreach; subst.
      * left. right. now split.
      * right. eauto 10.
Qed.

(** X29. When the walk of [collectMetadata] returns, it has appended to the
    modules, in the order of the walk, the directory of every path it came
    to whose info is named [go.mod], be it a file or a directory, unless
    it is a directory whose base name is marked: these are skipped. *)
Theorem Walk_collects (root : string) (node : Walk.Node)
    (module module' : list string) (e : option error) :
  Walk.filepath_Walk collectModule root node module = Some (module', e) ->
  module `prefix_of` module'
  /\ forall dir,
      dir ∈ module' <->
      dir ∈ module
      \/ exists path info names,
          reaches root node path (Walk.Found info names)
          /\ Walk.info_Name info = "go.mod"
          /\ (marked_base (filepath_Base path) = true ->
              Walk.info_IsDir info = false)
          /\ dir = filepath_Dir path.
Proof.
  unfold Walk.filepath_Walk.
  destruct (Walk.walk collectModule node root module) as [[m r]|] eqn:Hwalk;
    [|discriminate].
  intros Hresult.
  assert (m = module') as -> by (destruct r as [[|e0]|]; congruence).
  split; [now apply walk_answers in Hwalk|].
  exact (walk_collected node root module module' r Hwalk).
Qed.

End WalkFacts.

(** ** The workspace folders the module manager reports *)

Section ModuleFolders.

Context {sys : Platform}.

Lemma goModInit_manager (depsMgr : DepsManager) (fs0 : FileSystem)
    (folder : string) :
  installGoDeps (goModInit depsMgr fs0 folder).1.1 = installGoDeps depsMgr
  /\ moduleFolders (goModInit depsMgr fs0 folder).1.1 = moduleFolders depsMgr
  /\ (installGoDeps depsMgr = true ->
      (goModInit depsMgr fs0 folder).1.1 = depsMgr).
Proof.
  unfold goModInit. destruct (installGoDeps depsMgr) eqn:Hflag.
  - destruct (go_mod_init _ _ _). now cbn.
  - destruct (constructGoModManually _ _ _). cbn. repeat split. discriminate.
Qed.

Lemma collectMetadata_manager (depsMgr : DepsManager) (fs0 : FileSystem)
    (folder : string) :
  match collectMetadata depsMgr fs0 folder with
  | Some (depsMgr', fs1, (e, modules')) =>
      installGoDeps depsMgr' = installGoDeps depsMgr
      /\ moduleFolders depsMgr' = moduleFolders depsMgr
      /\ (installGoDeps depsMgr = true -> depsMgr' = depsMgr)
      /\ e = None
      /\ exists modules,
          Walk.filepath_Walk collectModule folder (lstat_tree fs0 folder) []
          = Some (modules, None)
          /\ modules `prefix_of` modules'
  | None =>
      Walk.filepath_Walk collectModule folder (lstat_tree fs0 folder) []
      = None
  end.
Proof.
  unfold collectMetadata.
  destruct (Walk.filepath_Walk _ _ _ _) as [[module e]|] eqn:Hwalk;
    [|reflexivity].
  rewrite (Walk_never_fails _ _ _ _ _ Hwalk) in *.
  destruct (collectUncoveredSrc fs0 folder) as [[folderUncovered needMod] [e'|]];
    [repeat split; eauto|].
  match goal with
  | |- context [fold_left ?f ?todo (depsMgr, fs0, module)] =>
      generalize todo; intros needed;
      assert (Hloop : forall l dm1 fs1 module1,
                 let '(dm2, _, module2) := fold_left f l (dm1, fs1, module1) in
                 installGoDeps dm2 = installGoDeps dm1
                 /\ moduleFolders dm2 = moduleFolders dm1
                 /\ (installGoDeps dm1 = true -> dm2 = dm1)
                 /\ module1 `prefix_of` module2)
  end.
  { clear. intros l. induction l as [|dir l IH]; intros dm1 fs1 module1;
      [now repeat split|].
    cbn [fold_left].
    destruct (goModInit_manager dm1 fs1 dir) as (Hflag & Hfolders & Hsame).
    destruct (goModInit dm1 fs1 dir) as [[dm2 fs2] e]. cbn [fst snd] in *.
    destruct e as [e|];
      match goal with
      | |- context [fold_left _ l (dm2, fs2, ?m)] =>
          specialize (IH dm2 fs2 m);
          destruct (fold_left _ l (dm2, fs2, m)) as [[dm3 fs3] module3];
          destruct IH as (Hflag' & Hfolders' & Hsame' & Hprefix)
      end;
      (split; [congruence|]; split; [congruence|]; split;
       [intros Hon; rewrite Hsame' by congruence; now apply Hsame|]).
    - exact Hprefix.
    - transitivity (module1 ++ [dir])%list; [|exact Hprefix].
      now apply prefix_app_r. }
  specialize (Hloop needed depsMgr fs0 module).
  destruct (fold_left _ needed _) as [[dm1 fs1] module1].
  destruct Hloop as (Hflag & Hfolders & Hsame & Hprefix).
  repeat split; eauto.
Qed.

(** The module folders after the loop of [run] over [modules]. *)
Lemma run_loop (root : WorkspaceFolder) (modules : list string)
    (depsMgr : DepsManager) :
  let kept := fun folder =>
    negb (String.eqb (filepath_Clean (span_NewURI folder))
                     (filepath_Clean (wf_URI root))) in
  let depsMgr' :=
    fold_left
      (fun depsMgr folder =>
         let uri := span_NewURI folder in
         if String.eqb (filepath_Clean uri) (filepath_Clean (wf_URI root))
         then depsMgr
         else
           {| installGoDeps := installGoDeps depsMgr;
              moduleFolders :=
                (moduleFolders depsMgr ++
                 [ {| wf_URI := uri; wf_Name := filepath_Base folder |} ])%list;
              dm_FolderNeedsCleanup := dm_FolderNeedsCleanup depsMgr |})
      modules depsMgr in
  installGoDeps depsMgr' = installGoDeps depsMgr
  /\ dm_FolderNeedsCleanup depsMgr' = dm_FolderNeedsCleanup depsMgr
  /\ moduleFolders depsMgr'
     = (moduleFolders depsMgr ++
        List.map (fun folder => {| wf_URI := span_NewURI folder;
                                   wf_Name := filepath_Base folder |})
                 (List.filter kept modules))%list.
Proof.
  cbn zeta. revert depsMgr.
  induction modules as [|dir modules IH]; intros depsMgr;
    [cbn; now rewrite app_nil_r|].
  cbn [fold_left List.filter].
  destruct (String.eqb _ _); cbn [negb]; [apply IH|].
  match goal with
  | |- context [fold_left _ modules ?dm] =>
      destruct (IH dm) as (E1 & E2 & E3)
  end.
  rewrite E1, E2, E3. cbn. now rewrite <- app_assoc.
Qed.

(** X17. [run] never returns an error: the function it gives to the walk
    answers only [nil] or [SkipDir], so the walk cannot fail, and a failure
    of the scan for uncovered sources is swallowed. It fails to return
    exactly when the walk panics. When it returns, it has only appended to
    the module folders, never a folder whose cleaned URI is that of the
    root, and every directory the walk collected is reported, the root
    apart. *)
Theorem run_module_folders (depsMgr : DepsManager) (fs0 : FileSystem)
    (root : WorkspaceFolder) :
  let dir := Filename (span_NewURI (wf_URI root)) in
  match run depsMgr fs0 root with
  | None =>
      Walk.filepath_Walk collectModule dir (lstat_tree fs0 dir) [] = None
  | Some (depsMgr', fs1, e) =>
      e = None
      /\ moduleFolders depsMgr `prefix_of` moduleFolders depsMgr'
      /\ (forall m, m ∈ moduleFolders depsMgr' ->
                    m ∈ moduleFolders depsMgr
                    \/ filepath_Clean (wf_URI m)
                       <> filepath_Clean (wf_URI root))
      /\ exists modules,
          Walk.filepath_Walk collectModule dir (lstat_tree fs0 dir) []
          = Some (modules, None)
          /\ forall folder,
              folder ∈ modules ->
              filepath_Clean (span_NewURI folder)
              <> filepath_Clean (wf_URI root) ->
              {| wf_URI := span_NewURI folder;
                 wf_Name := filepath_Base folder |} ∈ moduleFolders depsMgr'
  end.
Proof.
  cbn zeta. unfold run.
  pose proof (collectMetadata_manager depsMgr fs0
                (Filename (span_NewURI (wf_URI root)))) as Hcollect.
  destruct (collectMetadata _ _ _) as [[[dm1 fs1] [e modules']]|];
    [|exact Hcollect].
  destruct Hcollect as (_ & Hfolders & _ & -> & modules & Hwalk & Hprefix).
  destruct (run_loop root modules' dm1) as (_ & _ & E). cbn zeta in E.
  rewrite E, Hfolders. split; [reflexivity|].
  split; [now apply prefix_app_r|]. split.
  - intros m Hin. apply elem_of_app in Hin as [Hin | Hin]; [now left|].
    right. apply list_elem_of_In, in_map_iff in Hin
      as (folder & <- & Hin%filter_In).
    destruct Hin as [_ Hkept]. cbn.
    apply negb_true_iff, String.eqb_neq in Hkept. exact Hkept.
  - exists modules. split; [exact Hwalk|].
    intros folder Hin Hne. apply elem_of_app. right.
    apply list_elem_of_In, in_map_iff. exists folder. split; [reflexivity|].
    apply filter_In. split.
    + apply list_elem_of_In. destruct Hprefix as [rest ->].
      apply elem_of_app. now left.
    + now apply negb_true_iff, String.eqb_neq.
Qed.

Lemma run_manager (depsMgr : DepsManager) (fs0 : FileSystem)
    (root : WorkspaceFolder) :
  match run depsMgr fs0 root with
  | Some (depsMgr', _, _) =>
      installGoDeps depsMgr' = installGoDeps depsMgr
      /\ moduleFolders depsMgr `prefix_of` moduleFolders depsMgr'
      /\ (installGoDeps depsMgr = true ->
          dm_FolderNeedsCleanup depsMgr' = dm_FolderNeedsCleanup depsMgr)
  | None => True
  end.
Proof.
  unfold run.
  pose proof (collectMetadata_manager depsMgr fs0
                (Filename (span_NewURI (wf_URI root)))) as Hcollect.
  destruct (collectMetadata _ _ _) as [[[dm1 fs1] [e modules']]|];
    [|exact I].
  destruct Hcollect as (Hflag & Hfolders & Hsame & -> & _).
  destruct (run_loop root modules' dm1) as (E1 & E2 & E3). cbn zeta in *.
  rewrite E1, E2, E3, Hfolders. split; [exact Hflag|].
  split; [now apply prefix_app_r|]. intros Hon. now rewrite Hsame.
Qed.

(** Once a walk has panicked, the loop of [ManageDeps] gives nothing. *)
Lemma ManageDeps_loop_panicked (roots : list WorkspaceFolder) :
  fold_left
    (fun state folder =>
       match state with
       | None => None
       | Some (depsMgr, fs1, folders') =>
           match run depsMgr fs1 folder with
           | None => None
           | Some (depsMgr, fs2, _) =>
               Some (depsMgr, fs2, (folders' ++ moduleFolders depsMgr)%list)
           end
       end)
    roots None = None.
Proof. induction roots as [|root roots IH]; [reflexivity | exact IH]. Qed.

(** The loop of [ManageDeps]: what it appends to the folders. *)
Lemma ManageDeps_loop (roots : list WorkspaceFolder) (depsMgr : DepsManager)
    (fs0 : FileSystem) (acc : list WorkspaceFolder) :
  match
    fold_left
      (fun state folder =>
         match state with
         | None => None
         | Some (depsMgr, fs1, folders') =>
             match run depsMgr fs1 folder with
             | None => None
             | Some (depsMgr, fs2, _) =>
                 Some (depsMgr, fs2, (folders' ++ moduleFolders depsMgr)%list)
             end
         end)
      roots (Some (depsMgr, fs0, acc))
  with
  | None => True
  | Some (depsMgr', _, acc') =>
      installGoDeps depsMgr' = installGoDeps depsMgr
      /\ moduleFolders depsMgr `prefix_of` moduleFolders depsMgr'
      /\ (installGoDeps depsMgr = true ->
          dm_FolderNeedsCleanup depsMgr' = dm_FolderNeedsCleanup depsMgr)
      /\ exists added,
          acc' = (acc ++ added)%list
          /\ (forall f, f ∈ added -> f ∈ moduleFolders depsMgr')
          /\ (roots <> [] -> moduleFolders depsMgr' `suffix_of` added)
  end.
Proof.
  revert depsMgr fs0 acc.
  induction roots as [|root roots IH]; intros depsMgr fs0 acc.
  { cbn. repeat split; auto. exists []. rewrite app_nil_r.
    repeat split; [|congruence]. intros f Hin. now apply not_elem_of_nil in Hin. }
  cbn [fold_left].
  pose proof (run_manager depsMgr fs0 root) as Hrun.
  destruct (run depsMgr fs0 root) as [[[dm1 fs1] e]|];
    [|now rewrite ManageDeps_loop_panicked].
  destruct Hrun as (Hflag & Hprefix & Hclean).
  destruct (decide (roots = [])) as [-> | Hmore].
  { cbn. repeat split; auto. exists (moduleFolders dm1). now repeat split. }
  specialize (IH dm1 fs1 (acc ++ moduleFolders dm1)%list).
  destruct (fold_left _ roots _) as [[[dm2 fs2] acc']|]; [|exact I].
  destruct IH as (Hflag' & Hprefix' & Hclean' & added & -> & Hin & Hsuffix).
  split; [congruence|]. split; [now transitivity (moduleFolders dm1)|].
  split; [intros Hon; rewrite Hclean' by congruence; now apply Hclean|].
  exists (moduleFolders dm1 ++ added)%list. split; [now rewrite app_assoc|].
  split.
  - intros f Hf. apply elem_of_app in Hf as [Hf | Hf]; [|now apply Hin].
    destruct Hprefix' as [rest ->]. apply elem_of_app. now left.
  - intros _. transitivity added; [now apply Hsuffix | now apply suffix_app_r].
Qed.

(** X18. [ManageDeps] installs dependencies exactly when the session option
    is on or the options are a map whose [installGoDependency] is the
    boolean [true]. When it returns, the folders it was given stay at the
    front of the result; what follows are module folders of its manager,
    whose whole list closes the result when there was a folder to process.
    With the flag on, the manager records no folder for cleanup. *)
Theorem ManageDeps_folders (s : ElasticServer) (w : World)
    (folders : list WorkspaceFolder)
    (options : option (gmap string OptionValue)) :
  match ManageDeps_local s w folders options with
  | None => True
  | Some (_, _, folders', depsMgr) =>
      (installGoDeps depsMgr = true <->
       session_InstallGoDependency s = true
       \/ exists opts, options = Some opts
                       /\ opts !! "installGoDependency" = Some (OptBool true))
      /\ folders `prefix_of` folders'
      /\ (forall f, f ∈ folders' -> f ∈ folders \/ f ∈ moduleFolders depsMgr)
      /\ (folders <> [] -> moduleFolders depsMgr `suffix_of` folders')
      /\ (installGoDeps depsMgr = true -> dm_FolderNeedsCleanup depsMgr = [])
  end.
Proof.
  unfold ManageDeps_local.
  match goal with
  | |- context [fold_left _ folders (Some (?dm, fs w, folders))] =>
      pose proof (ManageDeps_loop folders dm (fs w) folders) as Hloop
  end.
  destruct (fold_left _ folders _) as [[[dm1 fs1] folders']|]; [|exact I].
  destruct Hloop as (Hflag & _ & Hclean & added & -> & Hin & Hsuffix).
  cbn [installGoDeps dm_FolderNeedsCleanup] in Hflag, Hclean.
  split; [|split; [now apply prefix_app_r|split; [|split]]].
  - rewrite Hflag. destruct (session_InstallGoDependency s); cbn [negb].
    { split; auto. }
    destruct options as [opts|].
    + destruct (opts !! "installGoDependency") as [[[|]|]|] eqn:E.
      * split; [intros _; right; eauto | reflexivity].
      * split; [discriminate|]. intros [? | (opts' & [= <-] & E')]; congruence.
      * split; [discriminate|]. intros [? | (opts' & [= <-] & E')]; congruence.
      * split; [discriminate|]. intros [? | (opts' & [= <-] & E')]; congruence.
    + split; [discriminate|]. intros [? | (opts' & ? & _)]; congruence.
  - intros f Hf. apply elem_of_app in Hf as [Hf | Hf]; [now left|].
    right. now apply Hin.
  - intros Hsome. transitivity added; [now apply Hsuffix|].
    now apply suffix_app_r.
  - intros Hon. apply Hclean. now rewrite <- Hflag.
Qed.

(** X19. The manager's module folders are never reset between workspace
    folders, and the whole list is appended after each of them: with two
    workspace folders or more, a module folder found under the first one
    occurs at least twice in the result. *)
Theorem ManageDeps_repeats_module_folders (s : ElasticServer) (w : World)
    (first second : WorkspaceFolder) (rest : list WorkspaceFolder)
    (options : option (gmap string OptionValue)) (m : WorkspaceFolder) :
  match ManageDeps_local s w (first :: second :: rest) options with
  | None => True
  | Some (_, _, folders', depsMgr) =>
      forall depsMgr1 fs1 e1,
        run {| installGoDeps := installGoDeps depsMgr;
               moduleFolders := [];
               dm_FolderNeedsCleanup := [] |} (fs w) first
        = Some (depsMgr1, fs1, e1) ->
        m ∈ moduleFolders depsMgr1 ->
        exists a b c, folders' = (a ++ m :: b ++ m :: c)%list
  end.
Proof.
  unfold ManageDeps_local. cbn [fold_left].
  match goal with
  | |- context [run ?dm (fs w) first] => set (dm0 := dm)
  end.
  destruct (run dm0 (fs w) first) as [[[dm1 fs1] e1]|] eqn:Efirst;
    [|now rewrite ManageDeps_loop_panicked].
  pose proof (run_manager dm0 (fs w) first) as Hrun1.
  rewrite Efirst in Hrun1. destruct Hrun1 as (Hflag1 & _ & _).
  pose proof (run_manager dm1 fs1 second) as Hrun2.
  destruct (run dm1 fs1 second) as [[[dm2 fs2] e2]|];
    [|now rewrite ManageDeps_loop_panicked].
  destruct Hrun2 as (Hflag2 & Hprefix2 & _).
  match goal with
  | |- context [fold_left _ rest (Some (dm2, fs2, ?acc))] =>
      pose proof (ManageDeps_loop rest dm2 fs2 acc) as Hloop
  end.
  destruct (fold_left _ rest _) as [[[dm3 fs3] folders']|]; [|exact I].
  destruct Hloop as (Hflag3 & _ & _ & added & -> & _).
  assert (Edm : {| installGoDeps := installGoDeps dm3; moduleFolders := [];
                   dm_FolderNeedsCleanup := [] |} = dm0).
  { subst dm0. cbn in *. f_equal. congruence. }
  rewrite Edm, Efirst. intros dm1' fs1' e1' [= <- <- <-] Hin.
  destruct Hprefix2 as [more Emore].
  apply list_elem_of_split in Hin as (l1 & l2 & El).
  exists (first :: second :: rest ++ l1)%list, (l2 ++ l1)%list,
    (l2 ++ more ++ added)%list.
  rewrite Emore, El. cbn. rewrite <- !app_assoc. cbn.
  reflexivity.
Qed.

End ModuleFolders.

Lemma ManageDeps_repeats_module_folders_witness :
  exists a b c,
    [DemoModules.first; DemoModules.second; DemoModules.nested;
     DemoModules.nested]
    = (a ++ DemoModules.nested :: b ++ DemoModules.nested :: c)%list.
Proof.
  pose proof (@ManageDeps_repeats_module_folders DemoModules.platform
                Demo.server DemoModules.world DemoModules.first
                DemoModules.second [] None DemoModules.nested) as Hrepeats.
  vm_compute in Hrepeats. eapply Hrepeats; [reflexivity|]. cbn. left.
Defined.

(** ** The longest common prefix of the uncovered folders *)

Section CommonPrefix.

Context {sys : Platform}.

(** X20. The labelled loop of [collectMetadata] joins to the prefix the
    longest run of leading segments of the first folder that every other
    folder has at the same positions: the [k] first segments are common to
    all, and when the loop stopped before the end, some folder differs at
    the next position or is too short. *)
Theorem commonPrefix_longest (names : list string) (i : nat)
    (others : list (list string)) (longestPrefix : string) :
  exists k,
    (k <= length names)%nat
    /\ commonPrefix names i others longestPrefix
       = fold_left filepath_Join (take k names) longestPrefix
    /\ (forall folder, folder ∈ others ->
                       take k (drop i folder) = take k names)
    /\ ((k < length names)%nat ->
        exists folder, folder ∈ others /\ folder !! (i + k)%nat <> names !! k).
Proof.
  revert i longestPrefix.
  induction names as [|name names IH]; intros i longestPrefix.
  { exists 0%nat. cbn. repeat split; [lia..]. }
  cbn [commonPrefix].
  destruct (forallb _ others) eqn:Hall.
  - destruct (IH (S i) (filepath_Join longestPrefix name))
      as (k & Hk & E & Hcommon & Hstop).
    exists (S k). cbn [length take fold_left].
    split; [lia|]. split; [exact E|]. split.
    + intros folder Hin. rewrite forallb_forall in Hall.
      specialize (Hall folder (proj1 (list_elem_of_In _ _) Hin)).
      destruct (folder !! i) as [x|] eqn:Ei; [|discriminate].
      apply String.eqb_eq in Hall as ->.
      rewrite (drop_S _ _ _ Ei). cbn [take]. f_equal. now apply Hcommon.
    + intros Hlt. destruct Hstop as (folder & Hin & Hne); [lia|].
      exists folder. split; [exact Hin|].
      replace (i + S k)%nat with (S i + k)%nat by lia. exact Hne.
  - exists 0%nat. cbn [take fold_left length].
    split; [lia|]. split; [reflexivity|]. split; [now intros; rewrite take_0|].
    intros _.
    assert (Hex : exists folder, In folder others
                    /\ match folder !! i with
                       | Some x => String.eqb x name
                       | None => false
                       end = false).
    { clear - Hall. induction others as [|folder others IH];
        [discriminate|].
      cbn in Hall. apply andb_false_iff in Hall as [Hhere | Hlater].
      - exists folder. split; [now left | exact Hhere].
      - destruct (IH Hlater) as (f & Hin & Hf). exists f.
        split; [now right | exact Hf]. }
    destruct Hex as (folder & Hin & Hne). exists folder.
    split; [now apply list_elem_of_In|].
    rewrite Nat.add_0_r. cbn. intros E. rewrite E in Hne.
    now rewrite String.eqb_refl in Hne.
Qed.

End CommonPrefix.

(** ** The scan for uncovered sources *)

Section ScanFacts.

Context {paths : Paths}.

Lemma Node_fileInfo_ind (P : Scan.Node -> Prop) :
  P Scan.File ->
  (forall unreadable fileInfo,
      (forall name sub, (name, sub) ∈ fileInfo -> P sub) ->
      P (Scan.Dir unreadable fileInfo)) ->
  forall node, P node.
Proof.
  intros Hfile Hdir. fix IH 1. intros [|unreadable fileInfo]; [exact Hfile|].
  apply Hdir. intros name sub Hin.
  assert (Hall : Forall (fun info => P info.2) fileInfo).
  { clear Hin. induction fileInfo as [|[n s] rest IHrest]; constructor.
    - apply IH.
    - exact IHrest. }
  rewrite Forall_forall in Hall. exact (Hall _ Hin).
Qed.

(** What the subdirectories of a listing contribute to a list of the
    outcome. *)
Local Abbreviation from_sub collect path todo pick x :=
  (exists name unreadable subInfo o,
      (name, Scan.Dir unreadable subInfo) ∈ todo
      /\ Scan.hidden name = false
      /\ collect (Scan.Dir unreadable subInfo) (filepath_Join path name)
         = Some o
      /\ x ∈ pick o).

Lemma shouldBeCovered_step (shouldBeCovered : bool) (name : string) :
  (if negb shouldBeCovered
      && String.eqb (Scan.filepath_Ext name) ".go"
      && negb (HasSuffix name "_test.go")
   then true else shouldBeCovered)
  = shouldBeCovered || Scan.is_source name.
Proof.
  unfold Scan.is_source. destruct shouldBeCovered; cbn; [reflexivity|].
  now destruct (_ && _).
Qed.

Lemma scan_entries_outcome (collect : Scan.Node -> string -> option Scan.Outcome)
    (path : string) (todo : list (string * Scan.Node)) :
  forall shouldBeCovered folderNeedMod folderUncovered err o,
    Scan.scan_entries collect path todo shouldBeCovered folderNeedMod
                      folderUncovered err = Some o ->
    (forall name unreadable subInfo,
        (name, Scan.Dir unreadable subInfo) ∈ todo ->
        Scan.hidden name = false ->
        is_Some (collect (Scan.Dir unreadable subInfo)
                         (filepath_Join path name)))
    /\ (forall p, p ∈ o.1.2 <->
                  p ∈ folderNeedMod
                  \/ from_sub collect path todo (fun o' => o'.1.2) p)
    /\ (forall segments,
          segments ∈ o.1.1 <->
          segments ∈ folderUncovered
          \/ from_sub collect path todo (fun o' => o'.1.1) segments
          \/ ((shouldBeCovered = true
               \/ exists name sub,
                   (name, sub) ∈ todo /\ Scan.is_source name = true)
              /\ segments = Split path Separator)).
Proof.
  induction todo as [|[name sub] rest IH];
    intros shouldBeCovered folderNeedMod folderUncovered err o Hrun.
  { cbn in Hrun. injection Hrun as <-. cbn [fst snd].
    split; [intros ? ? ? Hin; now apply not_elem_of_nil in Hin|]. split.
    - intros p. split; [now left|].
      intros [Hp | (? & ? & ? & ? & Hin & _)]; [exact Hp|].
      now apply not_elem_of_nil in Hin.
    - intros segments. destruct shouldBeCovered.
      + rewrite elem_of_app, list_elem_of_singleton. split.
        * intros [Hs | ->]; [now left | right; right; auto].
        * intros [Hs | [(? & ? & ? & ? & Hin & _) | [_ ->]]];
            [now left | now apply not_elem_of_nil in Hin | now right].
      + split; [now left|].
        intros [Hs | [(? & ? & ? & ? & Hin & _) | [[? | (? & ? & Hin & _)] _]]];
          [exact Hs | now apply not_elem_of_nil in Hin | discriminate
          | now apply not_elem_of_nil in Hin]. }
  cbn [Scan.scan_entries] in Hrun. rewrite shouldBeCovered_step in Hrun.
  assert (Hskip :
    Scan.scan_entries collect path rest
      (shouldBeCovered || Scan.is_source name) folderNeedMod folderUncovered
      err = Some o ->
    (forall unreadable subInfo,
        sub = Scan.Dir unreadable subInfo -> Scan.hidden name = true) ->
    (forall name0 unreadable subInfo,
        (name0, Scan.Dir unreadable subInfo) ∈ (name, sub) :: rest ->
        Scan.hidden name0 = false ->
        is_Some (collect (Scan.Dir unreadable subInfo)
                         (filepath_Join path name0)))
    /\ (forall p, p ∈ o.1.2 <->
                  p ∈ folderNeedMod
                  \/ from_sub collect path ((name, sub) :: rest)
                       (fun o' => o'.1.2) p)
    /\ (forall segments,
          segments ∈ o.1.1 <->
          segments ∈ folderUncovered
          \/ from_sub collect path ((name, sub) :: rest)
               (fun o' => o'.1.1) segments
          \/ ((shouldBeCovered = true
               \/ exists name0 sub0,
                   (name0, sub0) ∈ (name, sub) :: rest
                   /\ Scan.is_source name0 = true)
              /\ segments = Split path Separator))).
  { intros Hrest Hnot. destruct (IH _ _ _ _ _ Hrest) as (Hsome & Hmod & Hunc).
    split; [|split].
    - intros name0 u s Hin Hvisible.
      apply elem_of_cons in Hin as [[= -> <-] | Hin]; [|now eapply Hsome].
      rewrite (Hnot _ _ eq_refl) in Hvisible. discriminate.
    - intros p. rewrite Hmod. split.
      + intros [Hp | (n & u & s & o' & Hin & Hrestp)]; [now left | right].
        exists n, u, s, o'. split; [now right | exact Hrestp].
      + intros [Hp | (n & u & s & o' & Hin & Hvisible & Hrestp)];
          [now left | right].
        apply elem_of_cons in Hin as [[= -> <-] | Hin].
        * rewrite (Hnot _ _ eq_refl) in Hvisible. discriminate.
        * exists n, u, s, o'. auto.
    - intros segments. rewrite Hunc. split.
      + intros [Hs | [(n & u & s & o' & Hin & Hrests) | [Hcover ->]]];
          [now left | right; left | right; right].
        * exists n, u, s, o'. split; [now right | exact Hrests].
        * split; [|reflexivity].
          destruct Hcover as [Hcover | (n & s & Hin & Hsrc)].
          -- apply orb_true_iff in Hcover as [-> | Hsrc]; [now left | right].
             exists name, sub. split; [now left | exact Hsrc].
          -- right. exists n, s. split; [now right | exact Hsrc].
      + intros [Hs | [(n & u & s & o' & Hin & Hvisible & Hrests)
                     | [Hcover ->]]];
          [now left | right; left | right; right].
        * apply elem_of_cons in Hin as [[= -> <-] | Hin].
          -- rewrite (Hnot _ _ eq_refl) in Hvisible. discriminate.
          -- exists n, u, s, o'. auto.
        * split; [|reflexivity].
          destruct Hcover as [-> | (n & s & Hin & Hsrc)]; [now left|].
          apply elem_of_cons in Hin as [[= -> ->] | Hin].
          -- left. rewrite Hsrc. apply orb_true_r.
          -- right. eauto. }
  destruct sub as [|unreadable subInfo].
  { apply Hskip; [exact Hrun | discriminate]. }
  destruct (Scan.first_byte name) as [c|] eqn:Hfirst; [|discriminate].
  destruct (Ascii.eqb c ".") eqn:Hdot.
  { apply Hskip; [exact Hrun|]. intros _ _ _. unfold Scan.hidden.
    now rewrite Hfirst. }
  assert (Hvisible : Scan.hidden name = false)
    by (unfold Scan.hidden; now rewrite Hfirst).
  destruct (collect (Scan.Dir unreadable subInfo) (filepath_Join path name))
    as [[[uncovered needMod] e]|] eqn:Hsub; [|discriminate].
  destruct (IH _ _ _ _ _ Hrun) as (Hsome & Hmod & Hunc).
  split; [|split].
  - intros name0 u s Hin Hvis.
    apply elem_of_cons in Hin as [[= -> -> ->] | Hin]; [|now eapply Hsome].
    rewrite Hsub. eauto.
  - intros p. rewrite Hmod, elem_of_app. split.
    + intros [[Hp | Hp] | (n & u & s & o' & Hin & Hrestp)];
        [now left | right | right].
      * exists name, unreadable, subInfo, (uncovered, needMod, e).
        split; [now left | auto].
      * exists n, u, s, o'. split; [now right | exact Hrestp].
    + intros [Hp | (n & u & s & o' & Hin & Hvis & Hcollect & Hp)];
        [now left; left|].
      apply elem_of_cons in Hin as [[= -> -> ->] | Hin].
      * left. right. rewrite Hsub in Hcollect. now injection Hcollect as <-.
      * right. exists n, u, s, o'. auto.
  - intros segments. rewrite Hunc, elem_of_app. split.
    + intros [[Hs | Hs] | [(n & u & s & o' & Hin & Hrests) | [Hcover ->]]];
        [now left | right; left | right; left | right; right].
      * exists name, unreadable, subInfo, (uncovered, needMod, e).
        split; [now left | auto].
      * exists n, u, s, o'. split; [now right | exact Hrests].
      * split; [|reflexivity].
        destruct Hcover as [Hcover | (n & s & Hin & Hsrc)].
        -- apply orb_true_iff in Hcover as [-> | Hsrc]; [now left | right].
           exists name, (Scan.Dir unreadable subInfo).
           split; [now left | exact Hsrc].
        -- right. exists n, s. split; [now right | exact Hsrc].
    + intros [Hs | [(n & u & s & o' & Hin & Hvis & Hcollect & Hs)
                   | [Hcover ->]]].
      * now left; left.
      * apply elem_of_cons in Hin as [[= -> -> ->] | Hin].
        -- left. right. rewrite Hsub in Hcollect.
           now injection Hcollect as <-.
        -- right. left. exists n, u, s, o'. auto.
      * right. right. split; [|reflexivity].
        destruct Hcover as [-> | (n & s & Hin & Hsrc)]; [now left|].
        apply elem_of_cons in Hin as [[= -> ->] | Hin].
        -- left. rewrite Hsrc. apply orb_true_r.
        -- right. eauto.
Qed.

Lemma collectUncoveredSrc_eq (dir : Scan.Node) (path : string) :
  Scan.collectUncoveredSrc dir path
  = if Scan.stat_under dir "go.mod" then Some ([], [], None)
    else if Scan.existDepControlFile dir then Some ([], [path], None)
    else if Scan.stat_under dir "vendor" then Some ([], [path], None)
    else
      match dir with
      | Scan.File => Some ([], [], Some "readdir: not a directory")
      | Scan.Dir (Some e) _ => Some ([], [], Some e)
      | Scan.Dir None fileInfo =>
          Scan.scan_entries Scan.collectUncoveredSrc path fileInfo false [] []
                            None
      end.
Proof. destruct dir; reflexivity. Qed.

(** The scan goes below a directory only if it is readable and not
    marked. *)
Lemma scans_stops (root dir : Scan.Node) (rootPath path : string) :
  Scan.scans root rootPath dir path ->
  (forall fileInfo, root = Scan.Dir None fileInfo ->
                    Scan.marked root = true) ->
  dir = root /\ path = rootPath.
Proof.
  intros Hscans Hstop. destruct Hscans as [|? ? ? ? ? ? ? Hplain]; [now split|].
  rewrite (Hstop _ eq_refl) in Hplain. discriminate.
Qed.

(** X21. What [collectUncoveredSrc] returns, when it returns: the folders
    that need a module are the directories the scan comes to that hold no
    [go.mod] but a manifest of a dependency tool or a [vendor] directory;
    the uncovered folders are the paths, split at the separator, of the
    unmarked readable directories it comes to that hold an entry, file or
    directory, named [*.go] and not [*_test.go]. *)
Theorem collectUncoveredSrc_lists (root : Scan.Node) (rootPath : string)
    (o : Scan.Outcome) :
  Scan.collectUncoveredSrc root rootPath = Some o ->
  (forall p,
      p ∈ o.1.2 <->
      exists dir,
        Scan.scans root rootPath dir p
        /\ Scan.stat_under dir "go.mod" = false
        /\ (Scan.existDepControlFile dir = true
            \/ Scan.stat_under dir "vendor" = true))
  /\ (forall segments,
        segments ∈ o.1.1 <->
        exists fileInfo path,
          Scan.scans root rootPath (Scan.Dir None fileInfo) path
          /\ Scan.marked (Scan.Dir None fileInfo) = false
          /\ (exists name sub,
                 (name, sub) ∈ fileInfo /\ Scan.is_source name = true)
          /\ segments = Split path Separator).
Proof.
  revert rootPath o.
  induction root as [|unreadable fileInfo IH] using Node_fileInfo_ind;
    intros rootPath o Hrun; rewrite collectUncoveredSrc_eq in Hrun.
  - (* a file: nothing is below it *)
    change (Scan.stat_under Scan.File "go.mod") with false in Hrun.
    destruct (Scan.existDepControlFile Scan.File) eqn:Hdep;
      [|destruct (Scan.stat_under Scan.File "vendor") eqn:Hvendor];
      injection Hrun as <-; cbn [fst snd].
    + split.
      * intros p. rewrite list_elem_of_singleton. split.
        -- intros ->. exists Scan.File. split; [constructor | auto].
        -- intros (dir & Hscans & _).
           apply scans_stops in Hscans as [_ ->]; [reflexivity | discriminate].
      * intros segments. split; [intros Hin; now apply not_elem_of_nil in Hin|].
        intros (fi & path & Hscans & _).
        apply scans_stops in Hscans as [[=] _]. discriminate.
    + split.
      * intros p. rewrite list_elem_of_singleton. split.
        -- intros ->. exists Scan.File. split; [constructor | auto].
        -- intros (dir & Hscans & _).
           apply scans_stops in Hscans as [_ ->]; [reflexivity | discriminate].
      * intros segments. split; [intros Hin; now apply not_elem_of_nil in Hin|].
        intros (fi & path & Hscans & _).
        apply scans_stops in Hscans as [[=] _]. discriminate.
    + split.
      * intros p. split; [intros Hin; now apply not_elem_of_nil in Hin|].
        intros (dir & Hscans & _ & Hmark).
        apply scans_stops in Hscans as [-> _]; [|discriminate].
        destruct Hmark; congruence.
      * intros segments. split; [intros Hin; now apply not_elem_of_nil in Hin|].
        intros (fi & path & Hscans & _).
        apply scans_stops in Hscans as [[=] _]. discriminate.
  - set (root := Scan.Dir unreadable fileInfo) in *.
    destruct (Scan.stat_under root "go.mod") eqn:Hmod;
      [|destruct (Scan.existDepControlFile root) eqn:Hdep;
        [|destruct (Scan.stat_under root "vendor") eqn:Hvendor]].
    + (* a module *)
      injection Hrun as <-. cbn [fst snd].
      assert (Hmarked : Scan.marked root = true)
        by (unfold Scan.marked; now rewrite Hmod).
      split.
      * intros p. split; [intros Hin; now apply not_elem_of_nil in Hin|].
        intros (dir & Hscans & Hnone & _).
        apply scans_stops in Hscans as [-> _]; [congruence | auto].
      * intros segments. split; [intros Hin; now apply not_elem_of_nil in Hin|].
        intros (fi & path & Hscans & Hplain & _).
        apply scans_stops in Hscans as [E _]; [|auto].
        rewrite E in Hplain. congruence.
    + (* a manifest *)
      injection Hrun as <-. cbn [fst snd].
      assert (Hmarked : Scan.marked root = true)
        by (unfold Scan.marked; rewrite Hmod, Hdep; reflexivity).
      split.
      * intros p. rewrite list_elem_of_singleton. split.
        -- intros ->. exists root. split; [constructor | auto].
        -- intros (dir & Hscans & _).
           apply scans_stops in Hscans as [_ ->]; [reflexivity | auto].
      * intros segments. split; [intros Hin; now apply not_elem_of_nil in Hin|].
        intros (fi & path & Hscans & Hplain & _).
        apply scans_stops in Hscans as [E _]; [|auto].
        rewrite E in Hplain. congruence.
    + (* a vendor directory *)
      injection Hrun as <-. cbn [fst snd].
      assert (Hmarked : Scan.marked root = true)
        by (unfold Scan.marked; rewrite Hmod, Hdep, Hvendor; reflexivity).
      split.
      * intros p. rewrite list_elem_of_singleton. split.
        -- intros ->. exists root. split; [constructor | auto].
        -- intros (dir & Hscans & _).
           apply scans_stops in Hscans as [_ ->]; [reflexivity | auto].
      * intros segments. split; [intros Hin; now apply not_elem_of_nil in Hin|].
        intros (fi & path & Hscans & Hplain & _).
        apply scans_stops in Hscans as [E _]; [|auto].
        rewrite E in Hplain. congruence.
    + assert (Hplain : Scan.marked root = false)
        by (unfold Scan.marked; rewrite Hmod, Hdep, Hvendor; reflexivity).
      subst root. destruct unreadable as [e|].
      { (* the listing fails *)
        injection Hrun as <-. cbn [fst snd]. split.
        - intros p. split; [intros Hin; now apply not_elem_of_nil in Hin|].
          intros (dir & Hscans & _ & Hmark).
          apply scans_stops in Hscans as [-> _]; [|discriminate].
          destruct Hmark; congruence.
        - intros segments.
          split; [intros Hin; now apply not_elem_of_nil in Hin|].
          intros (fi & path & Hscans & _).
          apply scans_stops in Hscans as [[=] _]. discriminate. }
      destruct (scan_entries_outcome _ _ _ _ _ _ _ _ Hrun)
        as (Hsome & Hneed & Hunc).
      split.
      * intros p. rewrite Hneed. split.
        -- intros [Hin | (name & u & subInfo & o' & Hin & Hvis & Hsub & Hp)];
             [now apply not_elem_of_nil in Hin|].
           destruct (IH _ _ Hin _ _ Hsub) as [Hlist _].
           apply Hlist in Hp as (dir & Hscans & Hcond).
           exists dir. split; [|exact Hcond].
           now apply Scan.scans_below with name u subInfo.
        -- intros (dir & Hscans & Hnone & Hmark). right.
           inversion Hscans as [|? ? name u subInfo ? ? _ Hin Hvis Hbelow];
             subst.
           { unfold Scan.marked in Hplain. rewrite Hmod, Hdep, Hvendor in *.
             destruct Hmark; discriminate. }
           destruct (Hsome _ _ _ Hin Hvis) as [o' Hsub].
           exists name, u, subInfo, o'. repeat split; auto.
           apply (IH _ _ Hin _ _ Hsub). eauto.
      * intros segments. rewrite Hunc. split.
        -- intros [Hin | [(name & u & subInfo & o' & Hin & Hvis & Hsub & Hs)
                         | [[? | Hsrc] ->]]];
             [now apply not_elem_of_nil in Hin | | discriminate |].
           ++ destruct (IH _ _ Hin _ _ Hsub) as [_ Hlist].
              apply Hlist in Hs as (fi & path & Hscans & Hcond).
              exists fi, path. split; [|exact Hcond].
              now apply Scan.scans_below with name u subInfo.
           ++ exists fileInfo, rootPath. split; [constructor | auto].
        -- intros (fi & path & Hscans & Hplain' & Hsrc & ->). right.
           inversion Hscans as [|? ? name u subInfo ? ? _ Hin Hvis Hbelow];
             subst.
           { right. auto. }
           left. destruct (Hsome _ _ _ Hin Hvis) as [o' Hsub].
           exists name, u, subInfo, o'. repeat split; auto.
           apply (IH _ _ Hin _ _ Hsub). eauto 10.
Qed.

Lemma scan_entries_skips (collect : Scan.Node -> string -> option Scan.Outcome)
    (path : string) (after : list (string * Scan.Node)) :
  (forall name sub, (name, sub) ∈ after ->
                    sub = Scan.File \/ Scan.hidden name = true) ->
  forall shouldBeCovered folderNeedMod folderUncovered err o,
    Scan.scan_entries collect path after shouldBeCovered folderNeedMod
                      folderUncovered err = Some o ->
    o.2 = err.
Proof.
  induction after as [|[name sub] after IH]; intros Hskip;
    intros shouldBeCovered folderNeedMod folderUncovered err o Hrun.
  { cbn in Hrun. now injection Hrun as <-. }
  assert (Hrest : forall name0 sub0, (name0, sub0) ∈ after ->
                    sub0 = Scan.File \/ Scan.hidden name0 = true)
    by (intros ? ? Hin; apply Hskip; now right).
  cbn [Scan.scan_entries] in Hrun.
  destruct sub as [|unreadable subInfo]; [now apply IH in Hrun|].
  destruct (Hskip name (Scan.Dir unreadable subInfo)) as [? | Hhidden];
    [now left | discriminate |].
  unfold Scan.hidden in Hhidden.
  destruct (Scan.first_byte name) as [c|]; [|discriminate].
  rewrite Hhidden in Hrun. now apply IH in Hrun.
Qed.

(** X22. The error [collectUncoveredSrc] returns for a readable, unmarked
    directory is that of the last subdirectory it scanned: what went wrong
    in a subdirectory listed before it is dropped. *)
Theorem collectUncoveredSrc_error_of_last
    (before after : list (string * Scan.Node)) (name : string)
    (unreadable : option error) (subInfo : list (string * Scan.Node))
    (path : string) (o : Scan.Outcome) :
  let root :=
    Scan.Dir None (before ++ (name, Scan.Dir unreadable subInfo) :: after) in
  Scan.marked root = false ->
  Scan.hidden name = false ->
  (forall name' sub, (name', sub) ∈ after ->
                     sub = Scan.File \/ Scan.hidden name' = true) ->
  Scan.collectUncoveredSrc root path = Some o ->
  exists o',
    Scan.collectUncoveredSrc (Scan.Dir unreadable subInfo)
                             (filepath_Join path name) = Some o'
    /\ o.2 = o'.2.
Proof.
  intros root Hplain Hvisible Hafter Hrun. subst root.
  rewrite collectUncoveredSrc_eq in Hrun. unfold Scan.marked in Hplain.
  apply orb_false_iff in Hplain as [Hplain Hvendor].
  apply orb_false_iff in Hplain as [Hmod Hdep].
  rewrite Hmod, Hdep, Hvendor in Hrun. clear Hmod Hdep Hvendor. revert Hrun.
  generalize false, (@nil string), (@nil (list string)), (@None error).
  induction before as [|[name0 sub0] before IH];
    intros shouldBeCovered folderNeedMod folderUncovered err Hrun.
  - cbn [app Scan.scan_entries] in Hrun. unfold Scan.hidden in Hvisible.
    destruct (Scan.first_byte name) as [c|]; [|discriminate].
    rewrite Hvisible in Hrun.
    destruct (Scan.collectUncoveredSrc _ _) as [[[uncovered needMod] e]|];
      [|discriminate].
    exists (uncovered, needMod, e). split; [reflexivity|].
    now apply scan_entries_skips in Hrun.
  - cbn [app Scan.scan_entries] in Hrun.
    destruct sub0 as [|unreadable0 subInfo0]; [eapply IH, Hrun|].
    destruct (Scan.first_byte name0) as [c|]; [|discriminate].
    destruct (Ascii.eqb c "."); [eapply IH, Hrun|].
    destruct (Scan.collectUncoveredSrc _ (filepath_Join path name0))
      as [[[uncovered needMod] e]|]; [|discriminate].
    eapply IH, Hrun.
Qed.

Lemma scan_entries_panics (collect : Scan.Node -> string -> option Scan.Outcome)
    (path : string) (todo : list (string * Scan.Node)) :
  forall shouldBeCovered folderNeedMod folderUncovered err,
    Scan.scan_entries collect path todo shouldBeCovered folderNeedMod
                      folderUncovered err = None <->
    exists name unreadable subInfo,
      (name, Scan.Dir unreadable subInfo) ∈ todo
      /\ (name = ""
          \/ (Scan.hidden name = false
              /\ collect (Scan.Dir unreadable subInfo)
                         (filepath_Join path name) = None)).
Proof.
  induction todo as [|[name sub] rest IH];
    intros shouldBeCovered folderNeedMod folderUncovered err.
  { cbn. split; [discriminate|]. intros (? & ? & ? & Hin & _).
    now apply not_elem_of_nil in Hin. }
  cbn [Scan.scan_entries].
  assert (Hlater : forall P : Prop,
             (P <-> exists name0 u s,
                      (name0, Scan.Dir u s) ∈ rest
                      /\ (name0 = ""
                          \/ (Scan.hidden name0 = false
                              /\ collect (Scan.Dir u s)
                                         (filepath_Join path name0) = None))) ->
             (forall u s, sub = Scan.Dir u s ->
                          name <> ""
                          /\ ~ (Scan.hidden name = false
                                /\ collect sub (filepath_Join path name)
                                   = None)) ->
             P <-> exists name0 u s,
                     (name0, Scan.Dir u s) ∈ (name, sub) :: rest
                     /\ (name0 = ""
                         \/ (Scan.hidden name0 = false
                             /\ collect (Scan.Dir u s)
                                        (filepath_Join path name0) = None))).
  { intros P HP Hhead. rewrite HP. split.
    - intros (n & u & s & Hin & Hcase). exists n, u, s.
      split; [now right | exact Hcase].
    - intros (n & u & s & Hin & Hcase).
      apply elem_of_cons in Hin as [[= -> <-] | Hin]; [|eauto 6].
      destruct (Hhead _ _ eq_refl) as [Hname Hsub].
      destruct Hcase as [-> | Hcase]; [congruence | contradiction]. }
  destruct sub as [|unreadable subInfo].
  { apply Hlater; [apply IH | discriminate]. }
  destruct (Scan.first_byte name) as [c|] eqn:Hfirst.
  2:{ destruct name; [|discriminate]. split; [|reflexivity]. intros _.
      exists "", unreadable, subInfo. split; [now left | now left]. }
  assert (Hname : name <> "") by (intros ->; discriminate).
  destruct (Ascii.eqb c ".") eqn:Hdot.
  { apply Hlater; [apply IH|]. intros _ _ _. split; [exact Hname|].
    unfold Scan.hidden. rewrite Hfirst, Hdot. now intros [? _]. }
  destruct (collect (Scan.Dir unreadable subInfo) (filepath_Join path name))
    as [[[uncovered needMod] e]|] eqn:Hsub.
  { apply Hlater; [apply IH|]. intros _ _ _. split; [exact Hname|].
    now intros [_ ?]. }
  split; [|reflexivity]. intros _. exists name, unreadable, subInfo.
  split; [now left|]. right. unfold Scan.hidden. now rewrite Hfirst, Hdot.
Qed.

(** X23. [collectUncoveredSrc] panics exactly when the scan comes to a
    readable, unmarked directory that lists a directory with an empty
    name: nothing else makes it fail to return. *)
Theorem collectUncoveredSrc_panics_iff (root : Scan.Node) (rootPath : string) :
  Scan.collectUncoveredSrc root rootPath = None <->
  exists fileInfo path unreadable subInfo,
    Scan.scans root rootPath (Scan.Dir None fileInfo) path
    /\ Scan.marked (Scan.Dir None fileInfo) = false
    /\ ("", Scan.Dir unreadable subInfo) ∈ fileInfo.
Proof.
  revert rootPath.
  induction root as [|unreadable fileInfo IH] using Node_fileInfo_ind;
    intros rootPath; rewrite collectUncoveredSrc_eq.
  - split.
    + destruct (Scan.stat_under _ "go.mod"); [discriminate|].
      destruct (Scan.existDepControlFile _); [discriminate|].
      destruct (Scan.stat_under _ "vendor"); discriminate.
    + intros (fi & path & u & s & Hscans & _).
      apply scans_stops in Hscans as [[=] _]. discriminate.
  - destruct (Scan.marked (Scan.Dir unreadable fileInfo)) eqn:Hmarked.
    { split.
      - unfold Scan.marked in Hmarked.
        destruct (Scan.stat_under _ "go.mod"); [discriminate|].
        destruct (Scan.existDepControlFile _); [discriminate|].
        destruct (Scan.stat_under _ "vendor"); discriminate.
      - intros (fi & path & u & s & Hscans & Hplain & _).
        apply scans_stops in Hscans as [E _]; [|auto].
        rewrite E in Hplain. congruence. }
    pose proof Hmarked as Hplain. unfold Scan.marked in Hmarked.
    apply orb_false_iff in Hmarked as [Hmarked ->].
    apply orb_false_iff in Hmarked as [-> ->].
    destruct unreadable as [e|].
    { split; [discriminate|].
      intros (fi & path & u & s & Hscans & _).
      apply scans_stops in Hscans as [[=] _]. discriminate. }
    rewrite scan_entries_panics. split.
    + intros (name & u & s & Hin & [-> | [Hvisible Hsub]]).
      * exists fileInfo, rootPath, u, s. split; [constructor | auto].
      * apply (IH _ _ Hin) in Hsub as (fi & path & u' & s' & Hscans & Hrest).
        exists fi, path, u', s'. split; [|exact Hrest].
        now apply Scan.scans_below with name u s.
    + intros (fi & path & u & s & Hscans & Hplain' & Hempty).
      inversion Hscans as [|? ? name u' s' ? ? _ Hin Hvis Hbelow]; subst.
      * exists "", u, s. auto.
      * exists name, u', s'. split; [exact Hin|]. right.
        split; [exact Hvis|]. apply (IH _ _ Hin). eauto 8.
Qed.

End ScanFacts.

Lemma collectUncoveredSrc_lists_witness :
  (forall p,
      p ∈ DemoScan.outcome.1.2 <->
      exists dir,
        @Scan.scans Demo.paths DemoScan.tree "/w" dir p
        /\ Scan.stat_under dir "go.mod" = false
        /\ (Scan.existDepControlFile dir = true
            \/ Scan.stat_under dir "vendor" = true))
  /\ (forall segments,
        segments ∈ DemoScan.outcome.1.1 <->
        exists fileInfo path,
          @Scan.scans Demo.paths DemoScan.tree "/w" (Scan.Dir None fileInfo)
                      path
          /\ Scan.marked (Scan.Dir None fileInfo) = false
          /\ (exists name sub,
                 (name, sub) ∈ fileInfo /\ Scan.is_source name = true)
          /\ segments = Split path Separator).
Proof.
  apply (@collectUncoveredSrc_lists Demo.paths DemoScan.tree "/w"
           DemoScan.outcome).
  vm_compute. reflexivity.
Defined.

Lemma collectUncoveredSrc_error_of_last_witness :
  exists o',
    @Scan.collectUncoveredSrc Demo.paths
      (Scan.Dir None [("main.go", Scan.File)]) (Demo.Join "/w" "c") = Some o'
    /\ DemoScan.outcome.2 = o'.2.
Proof.
  apply (@collectUncoveredSrc_error_of_last Demo.paths
           [ ("a", Scan.Dir (Some "permission denied") []);
             ("b", Scan.Dir None [("vendor", Scan.Dir None [])]) ]
           [] "c" None [("main.go", Scan.File)] "/w" DemoScan.outcome).
  - vm_compute. reflexivity.
  - vm_compute. reflexivity.
  - intros name' sub Hin. now apply not_elem_of_nil in Hin.
  - vm_compute. reflexivity.
Defined.

(** ** The module path guessed from the name of the folder *)

Lemma Split_no_separator (s : string) (c : ascii) :
  has_byte c s = false -> Split s c = [s].
Proof.
  induction s as [|d s IH]; [reflexivity|]. cbn [has_byte Split].
  intros [Hd Hs]%orb_false_iff. rewrite Hd, (IH Hs). reflexivity.
Qed.

Lemma Split_append (a b : string) (c : ascii) :
  Split (a ++ String c b) c = (Split a c ++ Split b c)%list.
Proof.
  induction a as [|d a IH]; cbn [String.append Split].
  - now rewrite Ascii.eqb_refl.
  - rewrite IH. destruct (Ascii.eqb d c); [reflexivity|].
    pose proof (Split_nonempty a c) as Hne.
    destruct (Split a c) as [|p ps]; [congruence | reflexivity].
Qed.

Lemma Join_cons (a p : string) (ps : list string) (sep : string) :
  ModulePath.Join (a :: p :: ps) sep = a ++ sep ++ ModulePath.Join (p :: ps) sep.
Proof. reflexivity. Qed.

Lemma Join_Split (s : string) (c : ascii) :
  ModulePath.Join (Split s c) (String c "") = s.
Proof.
  induction s as [|d s IH]; [reflexivity|]. cbn [Split].
  pose proof (Split_nonempty s c) as Hne.
  destruct (Ascii.eqb d c) eqn:Hd.
  - apply Ascii.eqb_eq in Hd as ->.
    destruct (Split s c) as [|p ps]; [congruence|].
    rewrite Join_cons, IH. reflexivity.
  - destruct (Split s c) as [|p ps]; [congruence|].
    destruct ps as [|q ps].
    + cbn in *. now rewrite IH.
    + rewrite Join_cons. rewrite Join_cons in IH. rewrite <- IH. reflexivity.
Qed.

Lemma split_from_skip (a b sep : string) :
  ModulePath.split_from (a ++ b) sep (String.length a)
  = ModulePath.split_from b sep 0.
Proof.
  induction a as [|c a IH]; [reflexivity|]. cbn. exact IH.
Qed.

(** Without an occurrence of the separator, there is one piece. *)
Lemma split_from_absent (s sep : string) :
  Contains s sep = false -> ModulePath.split_from s sep 0 = [s].
Proof.
  induction s as [|c s IH]; [reflexivity|].
  cbn [Contains ModulePath.split_from].
  intros [Hhere Hlater]%orb_false_iff. rewrite Hhere, (IH Hlater).
  reflexivity.
Qed.

(** The first cut is at the first occurrence. *)
Lemma split_from_first (a b sep' : string) (c : ascii) :
  (forall a1 a2, a = a1 ++ a2 -> a2 <> "" ->
                 HasPrefix (a2 ++ String c sep' ++ b) (String c sep') = false) ->
  ModulePath.split_from (a ++ String c sep' ++ b) (String c sep') 0
  = a :: ModulePath.split_from b (String c sep') 0.
Proof.
  induction a as [|d a IH]; intros Hfirst.
  - change ("" ++ String c sep' ++ b) with (String c (sep' ++ b)).
    cbn [ModulePath.split_from].
    assert (Hhere : HasPrefix (String c (sep' ++ b)) (String c sep') = true)
      by (apply HasPrefix_iff; now exists b).
    rewrite Hhere.
    replace (String.length (String c sep') - 1)%nat with (String.length sep')
      by (cbn [String.length]; lia).
    now rewrite split_from_skip.
  - change (String d a ++ String c sep' ++ b)
      with (String d (a ++ String c sep' ++ b)).
    cbn [ModulePath.split_from].
    assert (Hhere : HasPrefix (String d (a ++ String c sep' ++ b))
                              (String c sep') = false)
      by (apply (Hfirst "" (String d a) eq_refl); discriminate).
    rewrite Hhere, IH; [reflexivity|].
    intros a1 a2 -> Hne. apply (Hfirst (String d a1) a2); auto.
Qed.

(** No occurrence of ["/__"] starts in a string free of it and runs into
    the ["/__"] that follows it. *)
Lemma no_straddle (a b : string) :
  Contains a "/__" = false ->
  forall a1 a2, a = a1 ++ a2 -> a2 <> "" ->
                HasPrefix (a2 ++ "/__" ++ b) "/__" = false.
Proof.
  intros Hfree a1 a2 -> Hne.
  destruct (HasPrefix (a2 ++ "/__" ++ b) "/__") eqn:E; [|reflexivity].
  exfalso. apply HasPrefix_iff in E as [t E].
  destruct a2 as [|x [|y [|z a2]]]; [congruence|..];
    cbn in E; inversion E; subst.
  assert (Hin : Contains (a1 ++ String "/" (String "_" (String "_" a2)))
                         "/__" = true)
    by (apply Contains_iff; now exists a1, a2).
  congruence.
Qed.

(** X24. Without an import path found in the files, a folder of the shape
    [root/host/owner/repo/__hash/branch] has the module path
    [host/owner/repo], and with a subdirectory [sub] after the branch the
    module path [host/owner/repo/sub]; the five names hold no separator
    and ["/__"] occurs only where shown. *)
Theorem getModulePath_checkout (e : error)
    (root host owner repo hash branch : string) :
  has_byte Separator host = false ->
  has_byte Separator owner = false ->
  has_byte Separator repo = false ->
  has_byte Separator hash = false ->
  has_byte Separator branch = false ->
  Contains (root ++ "/" ++ host ++ "/" ++ owner ++ "/" ++ repo) "/__"
  = false ->
  (Contains (hash ++ "/" ++ branch) "/__" = false ->
   ModulePath.getModulePath (err e)
     ((root ++ "/" ++ host ++ "/" ++ owner ++ "/" ++ repo)
      ++ "/__" ++ hash ++ "/" ++ branch)
   = host ++ "/" ++ owner ++ "/" ++ repo)
  /\ (forall sub,
        Contains (hash ++ "/" ++ branch ++ "/" ++ sub) "/__" = false ->
        ModulePath.getModulePath (err e)
          ((root ++ "/" ++ host ++ "/" ++ owner ++ "/" ++ repo)
           ++ "/__" ++ hash ++ "/" ++ branch ++ "/" ++ sub)
        = host ++ "/" ++ owner ++ "/" ++ repo ++ "/" ++ sub).
Proof.
  intros Hhost Howner Hrepo Hhash Hbranch Hprefix.
  set (P := root ++ "/" ++ host ++ "/" ++ owner ++ "/" ++ repo) in *.
  assert (Hcut : forall S,
             Contains S "/__" = false ->
             ModulePath.SplitString (P ++ "/__" ++ S) (String Separator "__")
             = [P; S]).
  { intros S HS. unfold ModulePath.SplitString.
    change (String Separator "__") with (String "/" "__").
    change (P ++ "/__" ++ S) with (P ++ String "/" "__" ++ S).
    rewrite split_from_first by (apply no_straddle; exact Hprefix).
    now rewrite (split_from_absent S). }
  assert (HP : Split P Separator
               = (Split root Separator ++ [host; owner; repo])%list).
  { subst P. unfold Separator in *. cbn [String.append].
    rewrite !Split_append, (Split_no_separator host),
      (Split_no_separator owner), (Split_no_separator repo) by assumption.
    reflexivity. }
  assert (Hlen : (4 <= length (Split P Separator))%nat).
  { rewrite HP, length_app. cbn.
    pose proof (Split_nonempty root Separator) as Hne.
    destruct (Split root Separator); [congruence | cbn; lia]. }
  assert (Hlast : drop (length (Split P Separator) - 3) (Split P Separator)
                  = [host; owner; repo]).
  { rewrite HP, length_app. cbn [length].
    replace (length (Split root Separator) + 3 - 3)%nat
      with (length (Split root Separator) + 0)%nat by lia.
    now rewrite drop_app_add. }
  split.
  - intros HS. unfold ModulePath.getModulePath. rewrite (Hcut _ HS).
    cbn [length Nat.eqb negb nth].
    destruct (Nat.ltb_spec (length (Split P Separator)) 4) as [?|_]; [lia|].
    rewrite Hlast. unfold Separator in *. cbn [String.append].
    rewrite Split_append, (Split_no_separator hash),
      (Split_no_separator branch) by assumption.
    reflexivity.
  - intros sub HS. unfold ModulePath.getModulePath. rewrite (Hcut _ HS).
    cbn [length Nat.eqb negb nth].
    destruct (Nat.ltb_spec (length (Split P Separator)) 4) as [?|_]; [lia|].
    rewrite Hlast. unfold Separator in *. cbn [String.append].
    rewrite !Split_append, (Split_no_separator hash),
      (Split_no_separator branch) by assumption.
    pose proof (Split_nonempty sub "/") as Hne.
    pose proof (Join_Split sub "/") as Hjoin.
    destruct (Split sub "/") as [|p ps]; [congruence|].
    cbn [app length Nat.ltb Nat.leb drop].
    rewrite Join_cons, Hjoin. cbn [ModulePath.Join].
    rewrite !append_assoc. reflexivity.
Qed.

Lemma Split_length (s : string) (c : ascii) :
  Z.of_nat (length (Split s c)) = Count s c + 1.
Proof.
  induction s as [|d s IH]; [reflexivity|]. cbn [Split Count].
  pose proof (Split_nonempty s c) as Hne.
  destruct (Ascii.eqb d c).
  - cbn [length]. lia.
  - destruct (Split s c) as [|p ps]; [congruence|]. cbn [length] in *. lia.
Qed.

(** X25. When no import path is found in the files, [getModulePath] returns
    the folder itself if ["/__"] does not occur in it, and also if it occurs
    once with fewer than three separators before it. *)
Theorem getModulePath_default (e : error) (folder : string) :
  Contains folder "/__" = false
  \/ (exists before after,
         folder = before ++ "/__" ++ after
         /\ Contains before "/__" = false
         /\ Contains after "/__" = false
         /\ Count before Separator < 3) ->
  ModulePath.getModulePath (err e) folder = folder.
Proof.
  unfold ModulePath.getModulePath, ModulePath.SplitString.
  intros [Hfree | (before & after & -> & Hbefore & Hafter & Hshort)].
  - now rewrite (split_from_absent folder (String Separator "__") Hfree).
  - change (String Separator "__") with (String "/" "__").
    change (before ++ "/__" ++ after)
      with (before ++ String "/" "__" ++ after).
    rewrite split_from_first by (apply no_straddle; exact Hbefore).
    rewrite (split_from_absent after) by exact Hafter.
    cbn [length Nat.eqb negb nth].
    pose proof (Split_length before Separator) as Hlength.
    destruct (Nat.ltb_spec (length (Split before Separator)) 4) as [_|?];
      [reflexivity | lia].
Qed.

Lemma getModulePath_checkout_witness :
  ModulePath.getModulePath (err "cannot determine module path")
    "/data/github.com/elastic/kibana/__0a1b2c/master"
  = "github.com/elastic/kibana"
  /\ ModulePath.getModulePath (err "cannot determine module path")
       "/data/github.com/elastic/kibana/__0a1b2c/master/x-pack/plugins"
     = "github.com/elastic/kibana/x-pack/plugins".
Proof.
  destruct (getModulePath_checkout "cannot determine module path" "/data"
              "github.com" "elastic" "kibana" "0a1b2c" "master"
              eq_refl eq_refl eq_refl eq_refl eq_refl eq_refl)
    as [Hplain Hsub].
  split; [exact (Hplain eq_refl) | exact (Hsub "x-pack/plugins" eq_refl)].
Defined.

(** ** The extension test of the scan *)

Lemma list_ascii_of_string_append (a b : string) :
  list_ascii_of_string (a ++ b)
  = (list_ascii_of_string a ++ list_ascii_of_string b)%list.
Proof. induction a as [|c a IH]; cbn; [reflexivity | now rewrite IH]. Qed.

Lemma string_of_list_ascii_snoc (l : list ascii) (c : ascii) (s : string) :
  string_of_list_ascii (l ++ [c]) ++ s = string_of_list_ascii l ++ String c s.
Proof. induction l as [|d l IH]; cbn; [reflexivity | now rewrite IH]. Qed.

Lemma ext_scan_suffix (reversed : list ascii) (suffix : string) :
  Scan.ext_scan reversed suffix <> "" ->
  exists before,
    string_of_list_ascii (rev reversed) ++ suffix
    = before ++ Scan.ext_scan reversed suffix.
Proof.
  revert suffix. induction reversed as [|c reversed IH]; intros suffix;
    cbn [Scan.ext_scan]; [congruence|].
  destruct (Ascii.eqb c Separator); [congruence|].
  cbn [rev]. rewrite string_of_list_ascii_snoc.
  destruct (Ascii.eqb c "."); [eauto|]. apply IH.
Qed.

(** [filepath.Ext(name) == ".go"] says that [name] ends in [.go]. *)
Lemma filepath_Ext_go (name : string) :
  String.eqb (Scan.filepath_Ext name) ".go" = HasSuffix name ".go".
Proof.
  apply eq_true_iff_eq. rewrite String.eqb_eq, HasSuffix_iff.
  unfold Scan.filepath_Ext. split.
  - intros E.
    destruct (ext_scan_suffix (rev (list_ascii_of_string name)) "")
      as [before Hbefore]; [now rewrite E|].
    rewrite E, rev_involutive, string_of_list_ascii_of_string in Hbefore.
    exists before. rewrite <- Hbefore. clear.
    induction name as [|c name IH]; cbn; [reflexivity | now rewrite <- IH].
  - intros [before ->].
    rewrite list_ascii_of_string_append, rev_app_distr. reflexivity.
Qed.

(** The names that make a directory one to cover end in [.go] and not in
    [_test.go]. *)
Lemma is_source_suffix (name : string) :
  Scan.is_source name
  = HasSuffix name ".go" && negb (HasSuffix name "_test.go").
Proof. unfold Scan.is_source. now rewrite filepath_Ext_go. Qed.

(** ** Where [EDefinition] can panic *)

Section HandlerPanics.

Context {env : Collaborators}.

#[local] Opaque getQName collectPkgMetadata.

(** X26. [EDefinition] panics only inside [getQName]: it fails to return
    exactly when the request is resolved to a declaration outside the view
    folder, of a kind that is mapped, whose file the view can get, and
    [getQName] panics for it. *)
Theorem EDefinition_panics_iff (params : DefinitionParams) :
  let uri := span_NewURI (dp_URI params) in
  let view := session_ViewOf uri in
  value_of (EDefinition params) = None <->
  exists f ident declRange declFile,
    view_GetFile view uri = ok f
    /\ source_Identifier view f (dp_Position params) = ok ident
    /\ Declaration_Range ident = ok declRange
    /\ HasPrefix (Filename (Declaration_URI ident))
                 (Filename (view_Folder view)) = false
    /\ view_GetFile view (Declaration_URI ident) = ok declFile
    /\ (getSymbolKind (GetDeclObject ident) =? 0) = false
    /\ value_of (getQName view declFile (GetDeclObject ident)
                          (getSymbolKind (GetDeclObject ident))) = None.
Proof.
  intros uri view. subst view uri. unfold EDefinition. cbn.
  destruct (view_GetFile _ (span_NewURI (dp_URI params))) as [f|e] eqn:Hf;
    cbn.
  2:{ split; [discriminate|].
      intros (f' & ident' & r' & d' & H1 & _). congruence. }
  destruct (source_Identifier _ f _) as [ident|e] eqn:Hident; cbn.
  2:{ split; [discriminate|].
      intros (f' & ident' & r' & d' & H1 & H2 & _).
      injection H1 as <-. congruence. }
  destruct (Declaration_Range ident) as [declRange|e] eqn:Hrange; cbn.
  2:{ split; [discriminate|].
      intros (f' & ident' & r' & d' & H1 & H2 & H3 & _).
      injection H1 as <-.
      rewrite Hident in H2. injection H2 as <-. congruence. }
  destruct (HasPrefix _ _) eqn:Hprefix; cbn.
  { split; [discriminate|].
    intros (f' & ident' & r' & d' & H1 & H2 & H3 & H4 & _).
    injection H1 as <-.
    rewrite Hident in H2. injection H2 as <-. congruence. }
  destruct (view_GetFile _ (Declaration_URI ident)) as [declFile|e] eqn:Hdecl;
    cbn.
  2:{ split; [discriminate|].
      intros (f' & ident' & r' & d' & H1 & H2 & H3 & H4 & H5 & _).
      injection H1 as <-.
      rewrite Hident in H2. injection H2 as <-. congruence. }
  destruct (getSymbolKind (GetDeclObject ident) =? 0) eqn:Hkind; cbn.
  { split; [discriminate|].
    intros (f' & ident' & r' & d' & H1 & H2 & H3 & H4 & H5 & H6 & _).
    injection H1 as <-.
    rewrite Hident in H2. injection H2 as <-. congruence. }
  destruct (getQName _ declFile _ _) as [[qname|] t] eqn:Hqname; cbn.
  - destruct (collectPkgMetadata_returns
                (types.obj_Pkg (GetDeclObject ident))
                (Filename (view_Folder
                             (session_ViewOf (span_NewURI (dp_URI params)))))
                (Filename (Declaration_URI ident))) as [l Hl].
    destruct (collectPkgMetadata _ _ _) as [[l'|] t']; cbn in *;
      [|discriminate].
    split; [discriminate|].
    intros (f' & ident' & r' & d' & H1 & H2 & H3 & H4 & H5 & H6 & H7).
    injection H1 as <-.
    rewrite Hident in H2. injection H2 as <-.
    rewrite Hdecl in H5. injection H5 as <-.
    rewrite Hqname in H7. discriminate.
  - split; [intros _|reflexivity].
    exists f, ident, declRange, declFile. rewrite Hqname. now repeat split.
Qed.

End HandlerPanics.

(** ** What the manager achieves without the [go] command *)

Section Coverage.

Context {sys : Platform}.

Lemma constructGoModManually_succeeds (fs0 : FileSystem)
    (folder modulePath : string) :
  create_fails fs0 = ∅ -> write_fails fs0 = ∅ ->
  let '(fs1, e) := constructGoModManually fs0 folder modulePath in
  e = None
  /\ os_Stat fs1 (filepath_Join folder "go.mod") = true
  /\ (forall path, os_Stat fs0 path = true -> os_Stat fs1 path = true)
  /\ create_fails fs1 = ∅ /\ write_fails fs1 = ∅.
Proof.
  intros Hcreate Hwrite. unfold constructGoModManually.
  destruct (os_Stat fs0 (filepath_Join folder "go.mod")) eqn:Hstat;
    [now repeat split|].
  unfold os_Create. rewrite Hcreate.
  rewrite bool_decide_eq_false_2 by set_solver.
  unfold file_WriteString. cbn [write_fails]. rewrite Hwrite.
  rewrite bool_decide_eq_false_2 by set_solver.
  split; [reflexivity|]. unfold os_Stat. cbn.
  split; [|split; [|now split]].
  - apply bool_decide_eq_true_2. rewrite lookup_insert_eq. eauto.
  - intros path Hpath. apply bool_decide_eq_true in Hpath as [x Hx].
    apply bool_decide_eq_true_2.
    destruct (decide (path = filepath_Join folder "go.mod")) as [-> | Hne].
    + rewrite lookup_insert_eq. eauto.
    + rewrite !lookup_insert_ne by congruence. eauto.
Qed.

Lemma goModInit_succeeds (depsMgr : DepsManager) (fs0 : FileSystem)
    (folder : string) :
  installGoDeps depsMgr = false ->
  create_fails fs0 = ∅ -> write_fails fs0 = ∅ ->
  let '(depsMgr', fs1, e) := goModInit depsMgr fs0 folder in
  e = None
  /\ installGoDeps depsMgr' = false
  /\ dm_FolderNeedsCleanup depsMgr'
     = (dm_FolderNeedsCleanup depsMgr ++ [folder])%list
  /\ os_Stat fs1 (filepath_Join folder "go.mod") = true
  /\ (forall path, os_Stat fs0 path = true -> os_Stat fs1 path = true)
  /\ create_fails fs1 = ∅ /\ write_fails fs1 = ∅.
Proof.
  intros Hflag Hcreate Hwrite. unfold goModInit. rewrite Hflag.
  pose proof (constructGoModManually_succeeds fs0 folder
                (getModulePath fs0 folder) Hcreate Hwrite) as Hstep.
  destruct (constructGoModManually fs0 folder _) as [fs1 e].
  destruct Hstep as (-> & Hthere & Hkeep & Hcreate1 & Hwrite1).
  now repeat split.
Qed.

(** X27. With the install flag off and a file system on which creating and
    writing files does not fail, once the walk and the scan have returned,
    [collectMetadata] returns and gives a [go.mod] to every folder the scan
    asked a module for and to the common prefix of the uncovered folders:
    each of them is returned as a module and recorded for cleanup, in that
    order, after what was there. *)
Theorem collectMetadata_covers (depsMgr : DepsManager) (fs0 : FileSystem)
    (folder : string) (modules : list string)
    (folderUncovered : list (list string)) (folderNeedMod : list string) :
  installGoDeps depsMgr = false ->
  Walk.filepath_Walk collectModule folder (lstat_tree fs0 folder) []
  = Some (modules, None) ->
  collectUncoveredSrc fs0 folder = (folderUncovered, folderNeedMod, None) ->
  create_fails fs0 = ∅ ->
  write_fails fs0 = ∅ ->
  let targets :=
    (folderNeedMod ++
     match folderUncovered with
     | [] => []
     | first :: others =>
         [filepath_Clean (commonPrefix first 0 others (String Separator ""))]
     end)%list in
  match collectMetadata depsMgr fs0 folder with
  | None => False
  | Some (depsMgr', fs1, (e, modules')) =>
      e = None
      /\ modules' = (modules ++ targets)%list
      /\ dm_FolderNeedsCleanup depsMgr'
         = (dm_FolderNeedsCleanup depsMgr ++ targets)%list
      /\ (forall target, target ∈ targets ->
                         os_Stat fs1 (filepath_Join target "go.mod") = true)
  end.
Proof.
  intros Hflag Hwalk Hscan Hcreate Hwrite targets.
  unfold collectMetadata. rewrite Hwalk, Hscan.
  assert (Htargets :
    match folderUncovered with
    | [] => folderNeedMod
    | first :: others =>
        (folderNeedMod ++
         [filepath_Clean (commonPrefix first 0 others (String Separator ""))])
        %list
    end = targets).
  { subst targets. destruct folderUncovered; [now rewrite app_nil_r|].
    reflexivity. }
  rewrite Htargets. clear Htargets Hwalk Hscan. generalize targets.
  clear targets. intros targets.
  match goal with
  | |- context [fold_left ?f targets (depsMgr, fs0, modules)] =>
      assert (Hloop : forall l dm1 fs1 module1,
                 installGoDeps dm1 = false ->
                 create_fails fs1 = ∅ -> write_fails fs1 = ∅ ->
                 let '(dm2, fs2, module2) := fold_left f l (dm1, fs1, module1) in
                 module2 = (module1 ++ l)%list
                 /\ dm_FolderNeedsCleanup dm2
                    = (dm_FolderNeedsCleanup dm1 ++ l)%list
                 /\ (forall target, target ∈ l ->
                       os_Stat fs2 (filepath_Join target "go.mod") = true)
                 /\ (forall path, os_Stat fs1 path = true ->
                                  os_Stat fs2 path = true))
  end.
  { clear. intros l.
    induction l as [|dir l IH]; intros dm1 fs1 module1 Hflag Hcreate Hwrite.
    { cbn. rewrite !app_nil_r. repeat split; auto.
      intros target Hin. now apply not_elem_of_nil in Hin. }
    cbn [fold_left].
    pose proof (goModInit_succeeds dm1 fs1 dir Hflag Hcreate Hwrite) as Hstep.
    destruct (goModInit dm1 fs1 dir) as [[dm2 fs2] e].
    destruct Hstep
      as (-> & Hflag2 & Hclean2 & Hthere & Hkeep & Hcreate2 & Hwrite2).
    specialize (IH dm2 fs2 (module1 ++ [dir])%list Hflag2 Hcreate2 Hwrite2).
    destruct (fold_left _ l _) as [[dm3 fs3] module3].
    destruct IH as (-> & Hclean & Hall & Hkeep').
    split; [now rewrite <- app_assoc|].
    split; [now rewrite Hclean, Hclean2, <- app_assoc|]. split.
    - intros target Hin. apply elem_of_cons in Hin as [-> | Hin]; auto.
    - auto. }
  specialize (Hloop targets depsMgr fs0 modules Hflag Hcreate Hwrite).
  destruct (fold_left _ targets _) as [[dm1 fs1] module1].
  destruct Hloop as (Hmodules & Hclean & Hall & _). now repeat split.
Qed.

End Coverage.

Lemma collectMetadata_covers_witness :
  match @collectMetadata Demo.platform
          {| installGoDeps := false; moduleFolders := [];
             dm_FolderNeedsCleanup := [] |} Demo.tree "/w" with
  | None => False
  | Some (depsMgr', fs1, (e, modules')) =>
      e = None
      /\ modules' = ["/w"]
      /\ dm_FolderNeedsCleanup depsMgr' = ["/w"]
      /\ (forall target, target ∈ ["/w"] ->
                         os_Stat fs1 (Demo.Join target "go.mod") = true)
  end.
Proof.
  exact (@collectMetadata_covers Demo.platform
           {| installGoDeps := false; moduleFolders := [];
              dm_FolderNeedsCleanup := [] |} Demo.tree "/w" []
           [[""; "w"]] [] eq_refl eq_refl eq_refl eq_refl eq_refl).
Defined.

Lemma getModulePath_default_witness :
  ModulePath.getModulePath (err "cannot determine module path") "/tmp/work"
  = "/tmp/work"
  /\ ModulePath.getModulePath (err "cannot determine module path")
       "/a/b/__0a1b2c/master"
     = "/a/b/__0a1b2c/master".
Proof.
  split.
  - apply (getModulePath_default "cannot determine module path" "/tmp/work").
    left. reflexivity.
  - apply (getModulePath_default "cannot determine module path"
             "/a/b/__0a1b2c/master").
    right. exists "/a/b", "0a1b2c/master". repeat split.
Defined.

Lemma Walk_collects_witness :
  [] `prefix_of` ["/w/a"]
  /\ forall dir,
      dir ∈ ["/w/a"] <->
      dir ∈ []
      \/ exists path info names,
          @reaches Demo.paths "/w"
            (@lstat_tree DemoModules.platform DemoModules.tree "/w") path
            (Walk.Found info names)
          /\ Walk.info_Name info = "go.mod"
          /\ (marked_base (Demo.Base path) = true ->
              Walk.info_IsDir info = false)
          /\ dir = Demo.Dir path.
Proof.
  apply (@Walk_collects DemoModules.platform "/w"
           (@lstat_tree DemoModules.platform DemoModules.tree "/w")
           [] ["/w/a"] None).
  vm_compute. reflexivity.
Defined.
